(** * The ZFS storage driver of LXD ([lxd/storage_zfs.go])

    A shallow embedding of the driver's lifecycle operations.  The Go
    methods of [storageZfs] become programs of a small effect monad
    [Prog]: every call the driver makes to code outside
    [storage_zfs.go] (the zfs command helpers, the host filesystem, the
    container object, the operation-lock map) is a [Call], answered by a
    handler.  The sequential interpreter [run] threads the world and the
    two package-level variables of the file and records the calls made;
    the interleaving semantics [run_schedule] runs several such programs
    against one shared world. *)

From Stdlib Require Import String Ascii List Bool ZArith Lia DecimalString.
From stdpp Require Import base option list strings gmap.

Set Implicit Arguments.
Unset Strict Implicit.
Set Default Proof Using "Type".

(** ** Go values *)

(** A Go [error] value that is not [nil]. *)
Inductive error : Type :=
| EBUSY                      (* syscall.EBUSY *)
| Errorf (msg : string)      (* fmt.Errorf(...) *)
| ExtErr (code : nat).       (* an error made by code outside this file *)

(** A Go [error]: [None] is [nil]. *)
Abbreviation goerr := (option error).

#[global] Instance error_eq_dec : EqDecision error.
Proof. solve_decision. Defined.

(** [err != nil] *)
Definition is_err (e : goerr) : bool :=
  match e with Some _ => true | None => false end.

(** [strings.HasPrefix(s, prefix)] *)
Definition HasPrefix (s prefix : string) : bool := String.prefix prefix s.

(** [strings.TrimPrefix(s, prefix)] *)
Definition TrimPrefix (s prefix : string) : string :=
  if HasPrefix s prefix
  then String.substring (String.length prefix)
                        (String.length s - String.length prefix) s
  else s.

(** [s[n:]] for [n <= len(s)]. *)
Definition string_from (n : nat) (s : string) : string :=
  String.substring n (String.length s - n) s.

(** [fmt.Sprintf("%d", n)] *)
Definition Sprintf_d (n : Z) : string := NilZero.string_of_int (Z.to_int n).

(** [strconv.ParseInt(s, 10, 64)]: an optional sign, then decimal digits;
    an error on bad syntax or a value outside int64. *)
Definition ParseInt (s : string) : Z * goerr :=
  let '(neg, digits) :=
    match s with
    | String "+"%char r => (false, r)
    | String "-"%char r => (true, r)
    | _ => (false, s)
    end in
  match NilZero.uint_of_string digits with
  | Some u =>
      let n := Z.of_uint u in
      let v := if neg then (- n)%Z else n in
      if ((- 2 ^ 63 <=? v) && (v <=? 2 ^ 63 - 1))%Z then (v, None)
      else ((if neg then - 2 ^ 63 else 2 ^ 63 - 1)%Z, Some (Errorf "value out of range"))
  | None => (0%Z, Some (Errorf "invalid syntax"))
  end.

Definition ascii_lower (a : ascii) : ascii :=
  let n := nat_of_ascii a in
  if (65 <=? n)%nat && (n <=? 90)%nat then ascii_of_nat (n + 32) else a.

Fixpoint ToLower (s : string) : string :=
  match s with
  | EmptyString => EmptyString
  | String a r => String (ascii_lower a) (ToLower r)
  end.

(** Modelled from the spec: [shared.StringInSlice] lives in the [shared]
    package, outside src/; it is the membership test its name says. *)
Definition StringInSlice (key : string) (l : list string) : bool :=
  existsb (String.eqb key) l.

(** Modelled from the spec: [shared.IsTrue] lives in the [shared] package,
    outside src/; the spec's "is true" for a config value: one of the
    spellings of truth, whatever the case. *)
Definition IsTrue (value : string) : bool :=
  StringInSlice (ToLower value) ["true"; "1"; "yes"; "on"].

Arguments IsTrue : simpl never.

(** A Go [map[string]string]; indexing a missing key gives [""]. *)
Abbreviation config := (gmap string string).

Definition cfg (m : config) (k : string) : string := default "" (m !! k).

(** ** The driver's data *)

(** The [container] interface, as far as the driver reads it: the pure
    getters are fields, the methods with effects are [Call]s below. *)
Record container : Type := {
  Name : string;
  Path : string;
  IsPrivileged : bool;
  IsSnapshot : bool;
  (* the pool name of [Storage().GetContainerPoolInfo()] *)
  StoragePool : string;
  (* [ExpandedDevices()]: device name to device config *)
  ExpandedDevices : gmap string config
}.

(** [storageZfs] with the parts of the embedded [storageShared] the
    methods read: [s.pool.Name], [s.pool.Config], [s.volume.Name],
    [s.volume.Config], [s.sTypeName]. *)
Record storageZfs : Type := {
  dataset : string;
  pool_Name : string;
  pool_Config : config;
  volume_Name : string;
  volume_Config : config;
  sTypeName : string
}.

Definition getOnDiskPoolName (s : storageZfs) : string :=
  if String.eqb (dataset s) "" then pool_Name s else dataset s.

Definition GetStorageTypeName (s : storageZfs) : string := sTypeName s.

(** The wire description of a snapshot handed to [MigrationSink]. *)
Record Snapshot : Type := {
  snap_Name : string;
  snap_Devices : option (gmap string config)
}.

(** [containerArgs] as [snapshotProtobufToContainerArgs] builds them. *)
Record containerArgs : Type := {
  args_Name : string;
  args_Devices : option (gmap string config)
}.

(** ** Paths and names (the dataset namer) *)

(** Modelled from the spec: [shared.VarPath] is outside src/; it joins its
    arguments under the daemon's var directory ([<daemon-var>/...]). *)
Definition LXD_DIR : string := "/var/lib/lxd".

Fixpoint join_path (parts : list string) : string :=
  match parts with
  | [] => ""
  | p :: rest => "/" +:+ p +:+ join_path rest
  end.

Definition VarPath (parts : list string) : string := LXD_DIR +:+ join_path parts.

(** Modelled from the spec: the mount point getters are in [storage.go],
    outside src/: [<pool-mount>/containers/<n>] and
    [<pool-mount>/snapshots/<n>], with [<pool-mount>] the directory
    [storage-pools/<pool>] under the daemon's var directory. *)
Definition getContainerMountPoint (poolName containerName : string) : string :=
  VarPath ["storage-pools"; poolName; "containers"; containerName].

Definition getSnapshotMountPoint (poolName snapshotName : string) : string :=
  VarPath ["storage-pools"; poolName; "snapshots"; snapshotName].

Definition getStoragePoolVolumeMountPoint (poolName volumeName : string) : string :=
  VarPath ["storage-pools"; poolName; "custom"; volumeName].

(** Modelled from the spec: the operation keys of the coordinator
    ([storage.go]); a key encodes (verb, kind, pool, name). *)
Definition getContainerMountLockID (poolName containerName : string) : string :=
  "mount/container/" +:+ poolName +:+ "/" +:+ containerName.

Definition getContainerUmountLockID (poolName containerName : string) : string :=
  "umount/container/" +:+ poolName +:+ "/" +:+ containerName.

Definition getCustomMountLockID (poolName volumeName : string) : string :=
  "mount/custom/" +:+ poolName +:+ "/" +:+ volumeName.

(** Modelled from the spec: [containerGetParentAndSnapshotName]
    ([container.go]) is the spec's [split_snapshot_name]: the qualified
    name is cut at the first snapshot delimiter ["/"]. *)
Fixpoint split_at_slash (s : string) : option (string * string) :=
  match s with
  | EmptyString => None
  | String a r =>
      if Ascii.eqb a "/"%char then Some (EmptyString, r)
      else match split_at_slash r with
           | Some (p, q) => Some (String a p, q)
           | None => None
           end
  end.

Definition containerGetParentAndSnapshotName (name : string) : string * string * bool :=
  match split_at_slash name with
  | Some (p, q) => (p, q, true)
  | None => (name, "", false)
  end.

Definition SnapshotDelimiter : string := "/".

(** ** Pool update (lines 350-389) *)

Definition StoragePoolUpdate (changedConfig : list string) : goerr :=
  if StringInSlice "size" changedConfig then
    Some (Errorf "the size property cannot be changed")
  else if StringInSlice "source" changedConfig then
    Some (Errorf "the source property cannot be changed")
  else if StringInSlice "volume.size" changedConfig then
    Some (Errorf "the volume.size property cannot be changed")
  else if StringInSlice "volume.block.mount_options" changedConfig then
    Some (Errorf "the volume.block.mount_options property cannot be changed")
  else if StringInSlice "volume.block.filesystem" changedConfig then
    Some (Errorf "the volume.block.filesystem property cannot be changed")
  else if StringInSlice "lvm.thinpool_name" changedConfig then
    Some (Errorf "the lvm.thinpool_name property cannot be changed")
  else if StringInSlice "lvm.vg_name" changedConfig then
    Some (Errorf "the lvm.vg_name property cannot be changed")
  else if StringInSlice "zfs.pool_name" changedConfig then
    Some (Errorf "the zfs.pool_name property cannot be changed")
  else
    (* "rsync.bwlimit" requires no on-disk modifications. *)
    None.

(** ** Effects *)

(** A channel of the operation-lock map ([chan bool]), by identity. *)
Abbreviation chan := nat.

(** The two package-level variables of the file (lines 23-24). *)
Inductive GlobalVar : Type := zfsUseRefquota | zfsRemoveSnapshots.

(** An [exec.Cmd], by its argument vector. *)
Abbreviation Cmd := (list string).

(** The calls the driver makes to code outside [storage_zfs.go], each with
    the type of its answer.  Names are the Go names; a method's receiver
    is left out where it is the driver itself. *)
Inductive Call : Type -> Type :=
(* package-level variables of this file *)
| ReadVar (v : GlobalVar) : Call string
| StoreVar (v : GlobalVar) (value : string) : Call unit
(* zfs helpers (storage_zfs_utils.go) *)
| zfsFilesystemEntityExists (path : string) (prefixPathWithPool : bool) : Call bool
| zfsFilesystemEntityPropertyGet (path key : string) (prefixPathWithPool : bool)
    : Call (string * goerr)
| zfsPoolListSnapshots (path : string) : Call (list string * goerr)
| zfsPoolVolumeSnapshotRemovable (path name : string) : Call (bool * goerr)
| zfsPoolVolumeCreate (dataset : string) (properties : list string) : Call (string * goerr)
| zfsPoolVolumeClone (source name dest mountpoint : string) : Call goerr
| zfsPoolVolumeDestroy (path : string) : Call goerr
| zfsPoolVolumeCleanup (path : string) : Call goerr
| zfsPoolVolumeSet (path key value : string) : Call goerr
| zfsPoolVolumeRename (source dest : string) : Call goerr
| zfsPoolVolumeMount (path : string) : Call goerr
| zfsPoolVolumeUmount (path mountpoint : string) : Call goerr
| zfsPoolVolumeSnapshotCreate (path name : string) : Call goerr
| zfsPoolVolumeSnapshotDestroy (path name : string) : Call goerr
| zfsPoolVolumeSnapshotRestore (path name : string) : Call goerr
| zfsPoolVolumeSnapshotRename (path oldName newName : string) : Call goerr
(* host filesystem: shared, os, syscall *)
| PathExists (path : string) : Call bool
| PathIsEmpty (path : string) : Call (bool * goerr)
| IsMountPoint (path : string) : Call bool
| os_MkdirAll (path : string) (perm : nat) : Call goerr
| os_Remove (path : string) : Call goerr
| os_RemoveAll (path : string) : Call goerr
| os_Rename (oldpath newpath : string) : Call goerr
| os_Symlink (oldname newname : string) : Call goerr
| tryMount (src dst fs : string) (flags : nat) (options : string) : Call goerr
(* mount point helpers (storage.go) *)
| createContainerMountpoint (mountPoint mountPointSymlink : string) (privileged : bool)
    : Call goerr
| deleteContainerMountpoint (mountPoint mountPointSymlink storageTypeName : string)
    : Call goerr
| renameContainerMountpoint
    (oldMountPoint oldMountPointSymlink newMountPoint newMountPointSymlink : string)
    : Call goerr
| createSnapshotMountpoint
    (snapshotMountpoint snapshotsSymlinkTarget snapshotsSymlink : string) : Call goerr
(* subprocesses and streams *)
| cmd_StdinPipe (c : Cmd) : Call goerr
| cmd_StdoutPipe (c : Cmd) : Call goerr
| cmd_StderrPipe (c : Cmd) : Call goerr
| cmd_Start (c : Cmd) : Call goerr
| cmd_Run (c : Cmd) : Call goerr
| cmd_Wait (c : Cmd) : Call goerr
| RunCommand (c : Cmd) : Call (string * goerr)
| WebsocketRecvStream (c : Cmd) : Call unit
| WebsocketSendStream (c : Cmd) : Call unit
| ReadAll_stderr (c : Cmd) : Call (string * goerr)
| rsyncLocalCopy (source dest bwlimit : string) : Call (string * goerr)
(* the container object and the daemon *)
| Snapshots (c : container) : Call (list container * goerr)
| Delete (c : container) : Call goerr
| StorageStart (c : container) : Call (bool * goerr)
| StorageStop (c : container) : Call (bool * goerr)
| TemplateApply (c : container) (trigger : string) : Call goerr
| shiftRootfs (c : container) : Call goerr
| containerLoadByName (name : string) : Call (container * goerr)
| containerGetRootDiskDevice (devices : gmap string config)
    : Call (string * config * goerr)
| snapshotProtobufToContainerArgs (containerName : string) (snap : Snapshot)
    : Call containerArgs
| containerCreateEmptySnapshot (args : containerArgs) : Call goerr
| uuid_NewRandom : Call string
(* the operation coordinator: lxdStorageMapLock, lxdStorageOngoingOperationMap *)
| MapLock_Lock : Call unit
| MapLock_Unlock : Call unit
| OngoingOperationMap_get (key : string) : Call (option chan)
| OngoingOperationMap_set (key : string) (c : chan) : Call unit
| OngoingOperationMap_delete (key : string) : Call unit
| make_chan : Call chan
| chan_recv (c : chan) : Call bool
| chan_close (c : chan) : Call unit.

(** Programs: a result, a call with the rest of the program, or a Go
    run-time panic (or the end of the fuel that bounds the recursion of a
    revert path). *)
Inductive Prog (A : Type) : Type :=
| Ret (a : A)
| Vis (X : Type) (c : Call X) (k : X -> Prog A)
| Panic (msg : string).

Arguments Ret {A} a.
Arguments Vis {A X} c k.
Arguments Panic {A} msg.

Fixpoint bind {A B : Type} (p : Prog A) (f : A -> Prog B) : Prog B :=
  match p with
  | Ret a => f a
  | Vis c k => Vis c (fun x => bind (k x) f)
  | Panic msg => Panic msg
  end.

Definition call {X : Type} (c : Call X) : Prog X := Vis c Ret.

Declare Scope prog_scope.
Delimit Scope prog_scope with prog.
Bind Scope prog_scope with Prog.

Notation "x <- c ;; k" := (bind c (fun x => k))
  (at level 100, c at next level, right associativity) : prog_scope.
(** [v, err := c; if err != nil { return err }; k] *)
Notation "x '<-!' c ;; k" :=
  (bind c (fun p => match snd p with
                    | Some e => Ret (Some e)
                    | None => let x := fst p in k
                    end))
  (at level 100, c at next level, right associativity) : prog_scope.
Notation "c ;; k" := (bind c (fun _ => k))
  (at level 100, right associativity) : prog_scope.
(** [err := c; if err != nil { return err }; k] *)
Notation "'try!' c ;; k" :=
  (bind c (fun err => match err with Some e => Ret (Some e) | None => k end))
  (at level 100, c at next level, right associativity) : prog_scope.

Open Scope prog_scope.

(** [defer f()] around the rest of a function body: [f] runs when the body
    returns, whatever it returns; its own result is dropped. *)
Definition defer {A B : Type} (f : Prog B) (body : Prog A) : Prog A :=
  r <- body ;; f ;; Ret r.

(** [if cond { defer f() }] *)
Definition defer_if {A B : Type} (cond : bool) (f : Prog B) (body : Prog A) : Prog A :=
  if cond then defer f body else body.

(** The [revert := true; defer func() { if !revert { return }; undo() }()]
    idiom: every function that uses it clears [revert] only on the line
    before its final [return nil], so the undo runs exactly when the body
    returns an error. *)
Definition with_revert {B : Type} (undo : Prog B) (body : Prog goerr) : Prog goerr :=
  r <- body ;;
  match r with
  | Some e => undo ;; Ret (Some e)
  | None => Ret None
  end.

(** ** Mount and unmount (lines 244-285, 411-517) *)

(** The deferred closure [removeLockFromMap] of [ContainerMount], and the
    same four lines at the end of the other lock holders. *)
Definition removeLockFromMap (lockID : string) : Prog unit :=
  call MapLock_Lock ;;
  w <- call (OngoingOperationMap_get lockID) ;;
  match w with
  | Some waitChannel =>
      call (chan_close waitChannel) ;;
      call (OngoingOperationMap_delete lockID)
  | None => Ret tt
  end ;;
  call MapLock_Unlock.

Definition StoragePoolVolumeMount (s : storageZfs) : Prog (bool * goerr) :=
  let fs := "custom/" +:+ volume_Name s in
  let customPoolVolumeMntPoint :=
    getStoragePoolVolumeMountPoint (pool_Name s) (volume_Name s) in
  let customMountLockID := getCustomMountLockID (pool_Name s) (volume_Name s) in
  call MapLock_Lock ;;
  w <- call (OngoingOperationMap_get customMountLockID) ;;
  match w with
  | Some waitChannel =>
      call MapLock_Unlock ;;
      call (chan_recv waitChannel) ;;
      (* Give the benefit of the doubt and assume that the other
         thread actually succeeded in mounting the storage volume. *)
      Ret (false, None)
  | None =>
      ch <- call make_chan ;;
      call (OngoingOperationMap_set customMountLockID ch) ;;
      call MapLock_Unlock ;;
      isMnt <- call (IsMountPoint customPoolVolumeMntPoint) ;;
      r <- (if negb isMnt
            then customerr <- call (zfsPoolVolumeMount fs) ;; Ret (customerr, true)
            else Ret (None, false)) ;;
      let '(customerr, ourMount) := r in
      removeLockFromMap customMountLockID ;;
      match customerr with
      | Some e => Ret (false, Some e)
      | None => Ret (ourMount, None)
      end
  end.

Definition ContainerMount (s : storageZfs) (c : container) : Prog (bool * goerr) :=
  let name := Name c in
  let fs := "containers/" +:+ name in
  let containerPoolVolumeMntPoint := getContainerMountPoint (pool_Name s) name in
  let containerMountLockID := getContainerMountLockID (pool_Name s) name in
  call MapLock_Lock ;;
  w <- call (OngoingOperationMap_get containerMountLockID) ;;
  match w with
  | Some waitChannel =>
      call MapLock_Unlock ;;
      call (chan_recv waitChannel) ;;
      (* Give the benefit of the doubt and assume that the other
         thread actually succeeded in mounting the storage volume. *)
      Ret (false, None)
  | None =>
      ch <- call make_chan ;;
      call (OngoingOperationMap_set containerMountLockID ch) ;;
      call MapLock_Unlock ;;
      defer (removeLockFromMap containerMountLockID) (
        (* Since we're using mount() directly zfs will not automatically
           create the mountpoint for us. *)
        exists_ <- call (PathExists containerPoolVolumeMntPoint) ;;
        err <- (if negb exists_
                then call (createContainerMountpoint containerPoolVolumeMntPoint
                             (Path c) (IsPrivileged c))
                else Ret None) ;;
        match err with
        | Some e => Ret (false, Some e)
        | None =>
            isMnt <- call (IsMountPoint containerPoolVolumeMntPoint) ;;
            if negb isMnt then
              let source := getOnDiskPoolName s +:+ "/" +:+ fs in
              let zfsMountOptions :=
                "rw,zfsutil,mntpoint=" +:+ containerPoolVolumeMntPoint in
              mounterr <- call (tryMount source containerPoolVolumeMntPoint
                                  "zfs" 0 zfsMountOptions) ;;
              match mounterr with
              | Some e =>
                  if negb (bool_decide (e = EBUSY)) then
                    Ret (false, Some e)
                  else
                    (* EBUSY error in zfs are related to a bug we're
                       tracking. So ignore them for now, report back that
                       the mount isn't ours and proceed. *)
                    Ret (false, Some e)
              | None => Ret (true, None)
              end
            else Ret (false, None)
        end)
  end.

Definition ContainerUmount (s : storageZfs) (name path : string) : Prog (bool * goerr) :=
  let fs := "containers/" +:+ name in
  let containerPoolVolumeMntPoint := getContainerMountPoint (pool_Name s) name in
  let containerUmountLockID := getContainerUmountLockID (pool_Name s) name in
  call MapLock_Lock ;;
  w <- call (OngoingOperationMap_get containerUmountLockID) ;;
  match w with
  | Some waitChannel =>
      call MapLock_Unlock ;;
      call (chan_recv waitChannel) ;;
      Ret (false, None)
  | None =>
      ch <- call make_chan ;;
      call (OngoingOperationMap_set containerUmountLockID ch) ;;
      call MapLock_Unlock ;;
      isMnt <- call (IsMountPoint containerPoolVolumeMntPoint) ;;
      r <- (if isMnt
            then imgerr <- call (zfsPoolVolumeUmount fs containerPoolVolumeMntPoint) ;;
                 Ret (imgerr, true)
            else Ret (None, false)) ;;
      let '(imgerr, ourUmount) := r in
      removeLockFromMap containerUmountLockID ;;
      match imgerr with
      | Some e => Ret (false, Some e)
      | None => Ret (ourUmount, None)
      end
  end.

(** [if cond { p }] *)
Definition when (cond : bool) (p : Prog unit) : Prog unit :=
  if cond then p else Ret tt.

(** ** Container create, restore check and delete (lines 526-579, 664-772) *)

Definition ContainerCanRestore (s : storageZfs) (c sourceContainer : container) : Prog goerr :=
  snaps <-! call (Snapshots c) ;;
  match last snaps with
  | None => Panic "index out of range"   (* snaps[len(snaps)-1] on an empty slice *)
  | Some latest =>
      if negb (String.eqb (Name latest) (Name sourceContainer)) then
        when (negb (String.eqb (cfg (pool_Config s) "volume.zfs.remove_snapshots") ""))
          (call (StoreVar zfsRemoveSnapshots
                   (cfg (pool_Config s) "volume.zfs.remove_snapshots"))) ;;
        when (negb (String.eqb (cfg (volume_Config s) "zfs.remove_snapshots") ""))
          (call (StoreVar zfsRemoveSnapshots
                   (cfg (volume_Config s) "zfs.remove_snapshots"))) ;;
        v <- call (ReadVar zfsRemoveSnapshots) ;;
        if negb (IsTrue v) then
          Ret (Some (Errorf "ZFS can only restore from the latest snapshot. Delete newer snapshots or copy the snapshot into a new container instead"))
        else Ret None
      else Ret None
  end.

(** The loop of [ContainerDelete] over the dataset's snapshots: the last
    answer of [zfsPoolVolumeSnapshotRemovable], stopping at the first
    snapshot that is not removable. *)
Fixpoint ContainerDelete_removable (fs : string) (snaps : list string) (removable : bool)
  : Prog (bool * goerr) :=
  match snaps with
  | [] => Ret (removable, None)
  | snap :: rest =>
      r <- call (zfsPoolVolumeSnapshotRemovable fs snap) ;;
      match snd r with
      | Some e => Ret (fst r, Some e)
      | None =>
          if negb (fst r) then Ret (fst r, None)   (* break *)
          else ContainerDelete_removable fs rest (fst r)
      end
  end.

Definition ContainerDelete (s : storageZfs) (c : container) : Prog goerr :=
  let containerName := Name c in
  let fs := "containers/" +:+ containerName in
  let containerPoolVolumeMntPoint := getContainerMountPoint (pool_Name s) containerName in
  exists_ <- call (zfsFilesystemEntityExists fs true) ;;
  try! (if exists_ then
          snaps <-! call (zfsPoolListSnapshots fs) ;;
          removable <-! ContainerDelete_removable fs snaps true ;;
          if removable then
            origin <-! call (zfsFilesystemEntityPropertyGet fs "origin" true) ;;
            let poolName := getOnDiskPoolName s in
            let origin := TrimPrefix origin (poolName +:+ "/") in
            try! call (zfsPoolVolumeDestroy fs) ;;
            try! call (zfsPoolVolumeCleanup origin) ;;
            Ret None
          else
            try! call (zfsPoolVolumeSet fs "mountpoint" "none") ;;
            u <- call uuid_NewRandom ;;
            try! call (zfsPoolVolumeRename fs ("deleted/containers/" +:+ u)) ;;
            Ret None
        else Ret None) ;;
  try! call (deleteContainerMountpoint containerPoolVolumeMntPoint (Path c)
               (GetStorageTypeName s)) ;;
  let snapshotZfsDataset := "snapshots/" +:+ containerName in
  call (zfsPoolVolumeDestroy snapshotZfsDataset) ;;
  (* Delete potential leftover snapshot mountpoints. *)
  let snapshotMntPoint := getSnapshotMountPoint (pool_Name s) containerName in
  e1 <- call (PathExists snapshotMntPoint) ;;
  try! (if e1 then call (os_RemoveAll snapshotMntPoint) else Ret None) ;;
  (* Delete potential leftover snapshot symlinks:
     ${LXD_DIR}/snapshots/<container_name> -> ${POOL}/snapshots/<container_name> *)
  let snapshotSymlink := VarPath ["snapshots"; containerName] in
  e2 <- call (PathExists snapshotSymlink) ;;
  try! (if e2 then call (os_Remove snapshotSymlink) else Ret None) ;;
  Ret None.

Definition ContainerCreate (s : storageZfs) (c : container) : Prog goerr :=
  let containerPath := Path c in
  let containerName := Name c in
  let fs := "containers/" +:+ containerName in
  let poolName := getOnDiskPoolName s in
  let dataset_ := poolName +:+ "/" +:+ fs in
  let containerPoolVolumeMntPoint := getContainerMountPoint (pool_Name s) containerName in
  (* Create volume. *)
  msg <-! call (zfsPoolVolumeCreate dataset_ ["mountpoint=none"; "canmount=noauto"]) ;;
  with_revert (ContainerDelete s c) (
    (* Set mountpoint. *)
    try! call (zfsPoolVolumeSet fs "mountpoint" containerPoolVolumeMntPoint) ;;
    ourMount <-! ContainerMount s c ;;
    defer_if ourMount (ContainerUmount s containerName containerPath) (
      try! call (createContainerMountpoint containerPoolVolumeMntPoint containerPath
                   (IsPrivileged c)) ;;
      try! call (TemplateApply c "create") ;;
      Ret None)).

(** ** Copy (lines 774-1142) *)

Definition copyWithoutSnapshotsSparse (s : storageZfs) (target source : container)
  : Prog goerr :=
  let sourceContainerName := Name source in
  let sourceContainerPath := Path source in
  let targetContainerName := Name target in
  let targetContainerPath := Path target in
  let targetContainerMountPoint :=
    getContainerMountPoint (pool_Name s) targetContainerName in
  let '(sourceName, sourceSnapOnlyName, isSnapshotName) :=
    containerGetParentAndSnapshotName sourceContainerName in
  let targetZfsDataset := "containers/" +:+ targetContainerName in
  let sourceZfsDatasetSnapshot0 := if isSnapshotName then sourceSnapOnlyName else "" in
  (* from [if sourceZfsDataset != ""] to the end of the function *)
  let rest (sourceZfsDataset sourceZfsDatasetSnapshot : string) : Prog goerr :=
    try! (if negb (String.eqb sourceZfsDataset "") then
            try! call (zfsPoolVolumeClone sourceZfsDataset sourceZfsDatasetSnapshot
                         targetZfsDataset targetContainerMountPoint) ;;
            with_revert (call (zfsPoolVolumeDestroy targetZfsDataset)) (
              ourMount <-! ContainerMount s target ;;
              defer_if ourMount (ContainerUmount s targetContainerName targetContainerPath) (
                try! call (createContainerMountpoint targetContainerMountPoint
                             targetContainerPath (IsPrivileged target)) ;;
                with_revert (call (deleteContainerMountpoint targetContainerMountPoint
                                     targetContainerPath (GetStorageTypeName s))) (
                  try! call (TemplateApply target "copy") ;;
                  Ret None)))
          else
            try! ContainerCreate s target ;;
            with_revert (ContainerDelete s target) (
              let bwlimit := cfg (pool_Config s) "rsync.bwlimit" in
              r <- call (rsyncLocalCopy sourceContainerPath targetContainerPath bwlimit) ;;
              match snd r with
              | Some _ => Ret (Some (Errorf ("rsync failed: " +:+ fst r)))
              | None =>
                  try! call (TemplateApply target "copy") ;;
                  Ret None
              end)) ;;
    Ret None in
  if String.eqb sourceZfsDatasetSnapshot0 "" then
    ex <- call (zfsFilesystemEntityExists ("containers/" +:+ sourceName) true) ;;
    if ex then
      u <- call uuid_NewRandom ;;
      let sourceZfsDatasetSnapshot := "copy-" +:+ u in
      let sourceZfsDataset := "containers/" +:+ sourceName in
      try! call (zfsPoolVolumeSnapshotCreate sourceZfsDataset sourceZfsDatasetSnapshot) ;;
      with_revert
        (call (zfsPoolVolumeSnapshotDestroy sourceZfsDataset sourceZfsDatasetSnapshot))
        (rest sourceZfsDataset sourceZfsDatasetSnapshot)
    else rest "" ""
  else
    ex <- call (zfsFilesystemEntityExists
                  ("containers/" +:+ sourceName +:+ "@snapshot-" +:+ sourceZfsDatasetSnapshot0)
                  true) ;;
    if ex then
      rest ("containers/" +:+ sourceName) ("snapshot-" +:+ sourceZfsDatasetSnapshot0)
    else rest "" sourceZfsDatasetSnapshot0.

(** [zfsRecvCmd.Stdin, _ = zfsSendCmd.StdoutPipe(); zfsRecvCmd.Start();
    zfsSendCmd.Run(); zfsRecvCmd.Wait()], each error returned. *)
Definition send_receive (zfsSendCmd zfsRecvCmd : Cmd) : Prog goerr :=
  call (cmd_StdoutPipe zfsSendCmd) ;;
  try! call (cmd_Start zfsRecvCmd) ;;
  try! call (cmd_Run zfsSendCmd) ;;
  try! call (cmd_Wait zfsRecvCmd) ;;
  Ret None.

Definition copyWithoutSnapshotFull (s : storageZfs) (target source : container)
  : Prog goerr :=
  let sourceIsSnapshot := IsSnapshot source in
  let poolName := getOnDiskPoolName s in
  let sourceName := Name source in
  let targetName := Name target in
  let targetDataset := poolName +:+ "/containers/" +:+ targetName in
  (* from [zfsSendCmd := ...] to the end of the function *)
  let rest (sourceDataset snapshotSuffix targetSnapshotDataset : string) : Prog goerr :=
    let zfsSendCmd := ["zfs"; "send"; sourceDataset] in
    let zfsRecvCmd := ["zfs"; "receive"; targetDataset] in
    try! send_receive zfsSendCmd zfsRecvCmd ;;
    msg <-! call (RunCommand ["zfs"; "rollback"; "-r"; "-R"; targetSnapshotDataset]) ;;
    let targetContainerMountPoint := getContainerMountPoint (pool_Name s) targetName in
    let targetfs := "containers/" +:+ targetName in
    try! call (zfsPoolVolumeSet targetfs "canmount" "noauto") ;;
    try! call (zfsPoolVolumeSet targetfs "mountpoint" targetContainerMountPoint) ;;
    try! call (zfsPoolVolumeSnapshotDestroy targetfs snapshotSuffix) ;;
    ourMount <-! ContainerMount s target ;;
    defer_if ourMount (ContainerUmount s targetName targetContainerMountPoint) (
      try! call (createContainerMountpoint targetContainerMountPoint (Path target)
                   (IsPrivileged target)) ;;
      Ret None) in
  if sourceIsSnapshot then
    let '(sourceParentName, sourceSnapOnlyName, _) :=
      containerGetParentAndSnapshotName (Name source) in
    let snapshotSuffix := "snapshot-" +:+ sourceSnapOnlyName in
    let sourceDataset :=
      poolName +:+ "/containers/" +:+ sourceParentName +:+ "@" +:+ snapshotSuffix in
    let targetSnapshotDataset :=
      poolName +:+ "/containers/" +:+ targetName +:+ "@snapshot-" +:+ sourceSnapOnlyName in
    rest sourceDataset snapshotSuffix targetSnapshotDataset
  else
    snapshotSuffix <- call uuid_NewRandom ;;
    let sourceDataset :=
      poolName +:+ "/containers/" +:+ sourceName +:+ "@" +:+ snapshotSuffix in
    let targetSnapshotDataset :=
      poolName +:+ "/containers/" +:+ targetName +:+ "@" +:+ snapshotSuffix in
    let fs := "containers/" +:+ sourceName in
    try! call (zfsPoolVolumeSnapshotCreate fs snapshotSuffix) ;;
    defer (call (zfsPoolVolumeSnapshotDestroy fs snapshotSuffix))
          (rest sourceDataset snapshotSuffix targetSnapshotDataset).

Definition copyWithSnapshots (s : storageZfs) (target source : container)
    (parentSnapshot : string) : Prog goerr :=
  let sourceName := Name source in
  let '(targetParentName, targetSnapOnlyName, _) :=
    containerGetParentAndSnapshotName (Name target) in
  let containersPath := getSnapshotMountPoint (pool_Name s) targetParentName in
  let snapshotMntPointSymlinkTarget :=
    VarPath ["storage-pools"; pool_Name s; "snapshots"; targetParentName] in
  let snapshotMntPointSymlink := VarPath ["snapshots"; targetParentName] in
  try! call (createSnapshotMountpoint containersPath snapshotMntPointSymlinkTarget
               snapshotMntPointSymlink) ;;
  let poolName := getOnDiskPoolName s in
  let '(sourceParentName, sourceSnapOnlyName, _) :=
    containerGetParentAndSnapshotName sourceName in
  let currentSnapshotDataset :=
    poolName +:+ "/containers/" +:+ sourceParentName +:+ "@snapshot-" +:+ sourceSnapOnlyName in
  let args :=
    if negb (String.eqb parentSnapshot "") then
      let '(parentName, parentSnaponlyName, _) :=
        containerGetParentAndSnapshotName parentSnapshot in
      let parentSnapshotDataset :=
        poolName +:+ "/containers/" +:+ parentName +:+ "@snapshot-" +:+ parentSnaponlyName in
      ["send"; currentSnapshotDataset; "-i"; parentSnapshotDataset]
    else ["send"; currentSnapshotDataset] in
  let zfsSendCmd := "zfs" :: args in
  let targetSnapshotDataset :=
    poolName +:+ "/containers/" +:+ targetParentName +:+ "@snapshot-" +:+ targetSnapOnlyName in
  let zfsRecvCmd := ["zfs"; "receive"; "-F"; targetSnapshotDataset] in
  try! send_receive zfsSendCmd zfsRecvCmd ;;
  Ret None.

(** The loop of [ContainerCopy] over the source's snapshots; [prev] is
    [snapshots[i-1].Name()] ([""] at [i = 0]); the result carries
    [prevSnapOnlyName] out of the loop. *)
Fixpoint ContainerCopy_snapshots (s : storageZfs) (target : container)
    (snapshots : list container) (prev prevSnapOnlyName : string)
  : Prog (string * goerr) :=
  match snapshots with
  | [] => Ret (prevSnapOnlyName, None)
  | snap :: rest =>
      r1 <- call (containerLoadByName (Name snap)) ;;
      match snd r1 with
      | Some e => Ret (prevSnapOnlyName, Some e)
      | None =>
          let sourceSnapshot := fst r1 in
          let '(_, snapOnlyName, _) := containerGetParentAndSnapshotName (Name snap) in
          let newSnapName := Name target +:+ "/" +:+ snapOnlyName in
          r2 <- call (containerLoadByName newSnapName) ;;
          match snd r2 with
          | Some e => Ret (snapOnlyName, Some e)
          | None =>
              let targetSnapshot := fst r2 in
              err <- copyWithSnapshots s targetSnapshot sourceSnapshot prev ;;
              match err with
              | Some e => Ret (snapOnlyName, Some e)
              | None => ContainerCopy_snapshots s target rest (Name snap) snapOnlyName
              end
          end
      end
  end.

Definition ContainerCopy (s : storageZfs) (target source : container)
    (containerOnly : bool) : Prog goerr :=
  ourStart <-! call (StorageStart source) ;;
  defer_if ourStart (call (StorageStop source)) (
    let sourcePool := StoragePool source in
    let targetPool := StoragePool target in
    if negb (String.eqb sourcePool targetPool) then
      Ret (Some (Errorf "copying containers between different storage pools is not implemented"))
    else
      snapshots <-! call (Snapshots source) ;;
      if containerOnly || (length snapshots =? 0)%nat then
        (* [err = s.copyWithoutSnapshot...(target, source)]: the error is
           assigned and not looked at again *)
        (if negb (String.eqb (cfg (pool_Config s) "zfs.clone_copy") "")
            && negb (IsTrue (cfg (pool_Config s) "zfs.clone_copy"))
         then copyWithoutSnapshotFull s target source
         else copyWithoutSnapshotsSparse s target source) ;;
        Ret None
      else
        let targetContainerName := Name target in
        let targetContainerPath := Path target in
        let targetContainerMountPoint :=
          getContainerMountPoint (pool_Name s) targetContainerName in
        try! call (createContainerMountpoint targetContainerMountPoint
                     targetContainerPath (IsPrivileged target)) ;;
        prevSnapOnlyName <-! ContainerCopy_snapshots s target snapshots "" "" ;;
        (* send actual container *)
        u <- call uuid_NewRandom ;;
        let tmpSnapshotName := "copy-send-" +:+ u in
        try! call (zfsPoolVolumeSnapshotCreate ("containers/" +:+ Name source)
                     tmpSnapshotName) ;;
        let poolName := getOnDiskPoolName s in
        let currentSnapshotDataset :=
          poolName +:+ "/containers/" +:+ Name source +:+ "@" +:+ tmpSnapshotName in
        let args :=
          if negb (String.eqb prevSnapOnlyName "") then
            let parentSnapshotDataset :=
              poolName +:+ "/containers/" +:+ Name source +:+ "@snapshot-"
                +:+ prevSnapOnlyName in
            ["send"; currentSnapshotDataset; "-i"; parentSnapshotDataset]
          else ["send"; currentSnapshotDataset] in
        let zfsSendCmd := "zfs" :: args in
        let targetSnapshotDataset :=
          poolName +:+ "/containers/" +:+ Name target +:+ "@" +:+ tmpSnapshotName in
        let zfsRecvCmd := ["zfs"; "receive"; "-F"; targetSnapshotDataset] in
        try! send_receive zfsSendCmd zfsRecvCmd ;;
        call (zfsPoolVolumeSnapshotDestroy ("containers/" +:+ Name source)
                tmpSnapshotName) ;;
        call (zfsPoolVolumeSnapshotDestroy ("containers/" +:+ Name target)
                tmpSnapshotName) ;;
        let fs := "containers/" +:+ Name target in
        try! call (zfsPoolVolumeSet fs "canmount" "noauto") ;;
        try! call (zfsPoolVolumeSet fs "mountpoint" targetContainerMountPoint) ;;
        Ret None).

(** ** Rename, restore, quota and usage (lines 1144-1340) *)

(** [ContainerRename]; its revert path calls [ContainerRename] again (with
    the old name), so the recursion is bounded by [fuel]: a run that needs
    more than [fuel] nested reverts ends in [Panic]. *)
Fixpoint ContainerRename (fuel : nat) (s : storageZfs) (c : container) (newName : string)
  : Prog goerr :=
  match fuel with
  | O => Panic "out of fuel"
  | S fuel' =>
      let oldName := Name c in
      (* Unmount the dataset. *)
      _u <-! ContainerUmount s oldName "" ;;
      (* Rename the dataset. *)
      let oldZfsDataset := "containers/" +:+ oldName in
      let newZfsDataset := "containers/" +:+ newName in
      try! call (zfsPoolVolumeRename oldZfsDataset newZfsDataset) ;;
      with_revert (ContainerRename fuel' s c oldName) (
        (* Set the new mountpoint for the dataset. *)
        let newContainerMntPoint := getContainerMountPoint (pool_Name s) newName in
        try! call (zfsPoolVolumeSet newZfsDataset "mountpoint" newContainerMntPoint) ;;
        (* Unmount the dataset. *)
        _u <-! ContainerUmount s newName "" ;;
        (* Create new mountpoint on the storage pool. *)
        let oldContainerMntPoint := getContainerMountPoint (pool_Name s) oldName in
        let oldContainerMntPointSymlink := Path c in
        let newContainerMntPointSymlink := VarPath ["containers"; newName] in
        try! call (renameContainerMountpoint oldContainerMntPoint
                     oldContainerMntPointSymlink newContainerMntPoint
                     newContainerMntPointSymlink) ;;
        (* Rename the snapshot mountpoint on the storage pool. *)
        let oldSnapshotMntPoint := getSnapshotMountPoint (pool_Name s) oldName in
        let newSnapshotMntPoint := getSnapshotMountPoint (pool_Name s) newName in
        e1 <- call (PathExists oldSnapshotMntPoint) ;;
        try! (if e1 then call (os_Rename oldSnapshotMntPoint newSnapshotMntPoint)
              else Ret None) ;;
        (* Remove old symlink. *)
        let oldSnapshotPath := VarPath ["snapshots"; oldName] in
        e2 <- call (PathExists oldSnapshotPath) ;;
        try! (if e2 then call (os_Remove oldSnapshotPath) else Ret None) ;;
        (* Create new symlink. *)
        let newSnapshotPath := VarPath ["snapshots"; newName] in
        e3 <- call (PathExists newSnapshotPath) ;;
        try! (if e3 then call (os_Symlink newSnapshotMntPoint newSnapshotPath)
              else Ret None) ;;
        Ret None)
  end.

(** The loop [for i := len(snaps) - 1; i != 0; i--] of [ContainerRestore],
    entered at index [i]. *)
Fixpoint ContainerRestore_loop (snaps : list container) (source : container) (i : nat)
  : Prog goerr :=
  match i with
  | O => Ret None
  | S j =>
      match snaps !! i with
      | None => Panic "index out of range"
      | Some snap =>
          if String.eqb (Name snap) (Name source) then Ret None   (* break *)
          else
            try! call (Delete snap) ;;
            ContainerRestore_loop snaps source j
      end
  end.

Definition ContainerRestore (s : storageZfs) (target source : container) : Prog goerr :=
  (* Start storage for source container *)
  ourSourceStart <-! call (StorageStart source) ;;
  defer_if ourSourceStart (call (StorageStop source)) (
    (* Start storage for target container *)
    ourTargetStart <-! call (StorageStart target) ;;
    defer_if ourTargetStart (call (StorageStop target)) (
      (* Remove any needed snapshot *)
      snaps <-! call (Snapshots target) ;;
      try! (match snaps with
            | [] => Panic "index out of range"   (* snaps[-1] *)
            | _ => ContainerRestore_loop snaps source (length snaps - 1)
            end) ;;
      (* Restore the snapshot *)
      let '(cName, snapOnlyName, _) := containerGetParentAndSnapshotName (Name source) in
      let snapName := "snapshot-" +:+ snapOnlyName in
      try! call (zfsPoolVolumeSnapshotRestore ("containers/" +:+ cName) snapName) ;;
      Ret None)).

(** The lines shared by [ContainerSetQuota] and [ContainerGetUsage]: the
    package-level [zfsUseRefquota] is overwritten by the pool's and then
    the volume's setting, each when it is not empty, and then read. *)
Definition resolve_use_refquota (s : storageZfs) : Prog string :=
  when (negb (String.eqb (cfg (pool_Config s) "volume.zfs.use_refquota") ""))
    (call (StoreVar zfsUseRefquota (cfg (pool_Config s) "volume.zfs.use_refquota"))) ;;
  when (negb (String.eqb (cfg (volume_Config s) "zfs.use_refquota") ""))
    (call (StoreVar zfsUseRefquota (cfg (volume_Config s) "zfs.use_refquota"))) ;;
  call (ReadVar zfsUseRefquota).

Definition ContainerSetQuota (s : storageZfs) (c : container) (size : Z) : Prog goerr :=
  let fs := "containers/" +:+ Name c in
  v <- resolve_use_refquota s ;;
  let property := if IsTrue v then "refquota" else "quota" in
  try! (if (size >? 0)%Z
        then call (zfsPoolVolumeSet fs property (Sprintf_d size))
        else call (zfsPoolVolumeSet fs property "none")) ;;
  Ret None.

Definition ContainerGetUsage (s : storageZfs) (c : container) : Prog (Z * goerr) :=
  let fs := "containers/" +:+ Name c in
  v <- resolve_use_refquota s ;;
  let property := if IsTrue v then "usedbydataset" else "used" in
  r <- call (zfsFilesystemEntityPropertyGet fs property true) ;;
  match snd r with
  | Some e => Ret ((-1)%Z, Some e)
  | None =>
      let '(valueInt, err) := ParseInt (fst r) in
      match err with
      | Some e => Ret ((-1)%Z, Some e)
      | None => Ret (valueInt, None)
      end
  end.

(** ** Snapshots (lines 1342-1461) *)

Definition ContainerSnapshotDelete (s : storageZfs) (snapshotContainer : container)
  : Prog goerr :=
  let '(sourceContainerName, sourceContainerSnapOnlyName, _) :=
    containerGetParentAndSnapshotName (Name snapshotContainer) in
  let snapName := "snapshot-" +:+ sourceContainerSnapOnlyName in
  ex <- call (zfsFilesystemEntityExists
                ("containers/" +:+ sourceContainerName +:+ "@" +:+ snapName) true) ;;
  try! (if ex then
          r <- call (zfsPoolVolumeSnapshotRemovable
                       ("containers/" +:+ sourceContainerName) snapName) ;;
          (* the error of the removable query is overwritten, not checked *)
          if fst r then
            try! call (zfsPoolVolumeSnapshotDestroy
                         ("containers/" +:+ sourceContainerName) snapName) ;;
            Ret None
          else
            u <- call uuid_NewRandom ;;
            try! call (zfsPoolVolumeSnapshotRename
                         ("containers/" +:+ sourceContainerName) snapName
                         ("copy-" +:+ u)) ;;
            Ret None
        else Ret None) ;;
  (* Delete the snapshot on its storage pool: ${POOL}/snapshots/<snapshot_name> *)
  let snapshotContainerName := Name snapshotContainer in
  let snapshotContainerMntPoint :=
    getSnapshotMountPoint (pool_Name s) snapshotContainerName in
  e1 <- call (PathExists snapshotContainerMntPoint) ;;
  try! (if e1 then call (os_RemoveAll snapshotContainerMntPoint) else Ret None) ;;
  (* Check if we can remove the snapshot symlink:
     ${LXD_DIR}/snapshots/<container_name> -> ${POOL}/snapshots/<container_name>
     by checking if the directory is empty. *)
  let snapshotContainerPath := getSnapshotMountPoint (pool_Name s) sourceContainerName in
  r <- call (PathIsEmpty snapshotContainerPath) ;;
  try! (if fst r then
          (* Remove the snapshot directory for the container:
             ${POOL}/snapshots/<source_container_name> *)
          try! call (os_Remove snapshotContainerPath) ;;
          let snapshotSymlink := VarPath ["snapshots"; sourceContainerName] in
          e2 <- call (PathExists snapshotSymlink) ;;
          try! (if e2 then call (os_Remove snapshotSymlink) else Ret None) ;;
          Ret None
        else Ret None) ;;
  (* Legacy *)
  let snapPath := VarPath ["snapshots/" +:+ sourceContainerName +:+ "/"
                             +:+ sourceContainerSnapOnlyName +:+ ".zfs"] in
  e3 <- call (PathExists snapPath) ;;
  try! (if e3 then call (os_Remove snapPath) else Ret None) ;;
  (* Legacy *)
  let parent := VarPath ["snapshots/" +:+ sourceContainerName] in
  r2 <- call (PathIsEmpty parent) ;;
  try! (if fst r2 then call (os_Remove parent) else Ret None) ;;
  Ret None.

Definition ContainerSnapshotCreate (s : storageZfs)
    (snapshotContainer sourceContainer : container) : Prog goerr :=
  let snapshotContainerName := Name snapshotContainer in
  let sourceContainerName := Name sourceContainer in
  let '(cName, snapshotSnapOnlyName, _) :=
    containerGetParentAndSnapshotName snapshotContainerName in
  let snapName := "snapshot-" +:+ snapshotSnapOnlyName in
  let sourceZfsDataset := "containers/" +:+ cName in
  try! call (zfsPoolVolumeSnapshotCreate sourceZfsDataset snapName) ;;
  with_revert (ContainerSnapshotDelete s snapshotContainer) (
    let snapshotMntPoint := getSnapshotMountPoint (pool_Name s) snapshotContainerName in
    e1 <- call (PathExists snapshotMntPoint) ;;
    try! (if negb e1 then call (os_MkdirAll snapshotMntPoint 448) else Ret None) ;;
    let snapshotMntPointSymlinkTarget :=
      VarPath ["storage-pools"; pool_Name s; "snapshots"; Name sourceContainer] in
    let snapshotMntPointSymlink := VarPath ["snapshots"; sourceContainerName] in
    e2 <- call (PathExists snapshotMntPointSymlink) ;;
    try! (if negb e2
          then call (os_Symlink snapshotMntPointSymlinkTarget snapshotMntPointSymlink)
          else Ret None) ;;
    Ret None).

(** ** Migration sink (lines 1946-2099) *)

(** The closure [zfsRecv] of [MigrationSink]. *)
Definition zfsRecv (poolName zfsName : string) : Prog goerr :=
  let zfsFsName := poolName +:+ "/" +:+ zfsName in
  let cmd := ["zfs"; "receive"; "-F"; "-u"; zfsFsName] in
  try! call (cmd_StdinPipe cmd) ;;
  try! call (cmd_StderrPipe cmd) ;;
  try! call (cmd_Start cmd) ;;
  call (WebsocketRecvStream cmd) ;;
  call (ReadAll_stderr cmd) ;;
  err <- call (cmd_Wait cmd) ;;
  Ret err.

(** The loop of the deferred closure of [MigrationSink] over the snapshots
    listed after the receive. *)
Fixpoint MigrationSink_cleanup (containerName : string) (snapshots : list Snapshot)
    (zfsSnapshots : list string) : Prog unit :=
  match zfsSnapshots with
  | [] => Ret tt
  | snap :: rest =>
      (* If we received a bunch of snapshots, remove the migration-send-*
         ones, if not, wipe any snapshot we got *)
      if negb (length snapshots =? 0)%nat && negb (HasPrefix snap "migration-send") then
        MigrationSink_cleanup containerName snapshots rest   (* continue *)
      else
        call (zfsPoolVolumeSnapshotDestroy ("containers/" +:+ containerName) snap) ;;
        MigrationSink_cleanup containerName snapshots rest
  end.

(** The deferred closure of [MigrationSink]: clean up our migration-send
    snapshots that we got from recv. *)
Definition MigrationSink_deferred (c : container) (snapshots : list Snapshot) : Prog unit :=
  r <- call (zfsPoolListSnapshots ("containers/" +:+ Name c)) ;;
  match snd r with
  | Some _ => Ret tt   (* failed listing snapshots post migration *)
  | None => MigrationSink_cleanup (Name c) snapshots (fst r)
  end.

(** The loop of [MigrationSink] over the expected snapshots. *)
Fixpoint MigrationSink_snapshots (poolName : string) (c : container)
    (parentStoragePool : string) (snapshots : list Snapshot) : Prog goerr :=
  match snapshots with
  | [] => Ret None
  | snap :: rest =>
      args <- call (snapshotProtobufToContainerArgs (Name c) snap) ;;
      (* Ensure that snapshot and parent container have the same storage
         pool in their local root disk device. *)
      args' <- match args_Devices args with
               | Some devices =>
                   r <- call (containerGetRootDiskDevice devices) ;;
                   let snapLocalRootDiskDeviceKey := fst (fst r) in
                   if negb (String.eqb snapLocalRootDiskDeviceKey "") then
                     match devices !! snapLocalRootDiskDeviceKey with
                     | Some dev =>
                         Ret {| args_Name := args_Name args;
                                args_Devices :=
                                  Some (<[snapLocalRootDiskDeviceKey :=
                                            <["pool" := parentStoragePool]> dev]> devices) |}
                     | None => Panic "assignment to entry in nil map"
                     end
                   else Ret args
               | None => Ret args
               end ;;
      try! call (containerCreateEmptySnapshot args') ;;
      let name := "containers/" +:+ Name c +:+ "@snapshot-" +:+ snap_Name snap in
      try! zfsRecv poolName name ;;
      let snapshotMntPoint :=
        getSnapshotMountPoint poolName (Name c +:+ "/" +:+ snap_Name snap) in
      e <- call (PathExists snapshotMntPoint) ;;
      try! (if negb e then call (os_MkdirAll snapshotMntPoint 448) else Ret None) ;;
      MigrationSink_snapshots poolName c parentStoragePool rest
  end.

Definition MigrationSink (s : storageZfs) (live : bool) (c : container)
    (snapshots : list Snapshot) (containerOnly : bool) : Prog goerr :=
  let poolName := getOnDiskPoolName s in
  (* Let's always unmount this fs (it's empty anyway) before we zfs recv. *)
  let zfsName := "containers/" +:+ Name c in
  let containerMntPoint := getContainerMountPoint (pool_Name s) (Name c) in
  isMnt <- call (IsMountPoint containerMntPoint) ;;
  try! (if isMnt then call (zfsPoolVolumeUmount zfsName containerMntPoint) else Ret None) ;;
  try! (if negb (length snapshots =? 0)%nat then
          let snapshotMntPointSymlinkTarget :=
            VarPath ["storage-pools"; pool_Name s; "snapshots"; volume_Name s] in
          let snapshotMntPointSymlink := VarPath ["snapshots"; Name c] in
          e <- call (PathExists snapshotMntPointSymlink) ;;
          if negb e
          then call (os_Symlink snapshotMntPointSymlinkTarget snapshotMntPointSymlink)
          else Ret None
        else Ret None) ;;
  (* At this point we have already figured out the parent container's
     root disk device so we can simply retrieve it from the expanded
     devices. *)
  let parentExpandedDevices := ExpandedDevices c in
  r <- call (containerGetRootDiskDevice parentExpandedDevices) ;;
  let parentLocalRootDiskDeviceKey := fst (fst r) in
  let parentLocalRootDiskDevice := snd (fst r) in
  let parentStoragePool :=
    if negb (String.eqb parentLocalRootDiskDeviceKey "")
    then cfg parentLocalRootDiskDevice "pool" else "" in
  (* A little neuroticism. *)
  if String.eqb parentStoragePool "" then
    Ret (Some (Errorf "detected that the container's root device is missing the pool property during BTRFS migration"))
  else
    try! MigrationSink_snapshots poolName c parentStoragePool snapshots ;;
    defer (MigrationSink_deferred c snapshots) (
      (* finally, do the real container *)
      try! zfsRecv poolName zfsName ;;
      try! (if live
            then (* and again for the post-running snapshot if this was a
                    live migration *)
                 zfsRecv poolName zfsName
            else Ret None) ;;
      (* Let's try to mount, but not complain about failure. *)
      call (zfsPoolVolumeMount zfsName) ;;
      Ret None).

(** ** Running a program *)

(** The values of the two package-level variables. *)
Record Globals : Type := {
  var_zfsUseRefquota : string;
  var_zfsRemoveSnapshots : string
}.

(** [var zfsUseRefquota = "false"; var zfsRemoveSnapshots = "false"] *)
Definition initial_globals : Globals :=
  {| var_zfsUseRefquota := "false"; var_zfsRemoveSnapshots := "false" |}.

Definition read_var (g : Globals) (v : GlobalVar) : string :=
  match v with
  | zfsUseRefquota => var_zfsUseRefquota g
  | zfsRemoveSnapshots => var_zfsRemoveSnapshots g
  end.

Definition write_var (g : Globals) (v : GlobalVar) (x : string) : Globals :=
  match v with
  | zfsUseRefquota =>
      {| var_zfsUseRefquota := x; var_zfsRemoveSnapshots := var_zfsRemoveSnapshots g |}
  | zfsRemoveSnapshots =>
      {| var_zfsUseRefquota := var_zfsUseRefquota g; var_zfsRemoveSnapshots := x |}
  end.

(** A handler answers the calls to code outside the file against a world
    [W] of its own. *)
Definition Handler (W : Type) : Type := forall X : Type, Call X -> W -> X * W.

(** One call: the variables of this file are read and written here, every
    other call goes to the handler. *)
Definition step {W X : Type} (h : Handler W) (c : Call X) (g : Globals) (w : W)
  : X * Globals * W :=
  match c in Call X0 return (X0 * W) -> X0 * Globals * W with
  | ReadVar v => fun _ => (read_var g v, g, w)
  | StoreVar v x => fun _ => (tt, write_var g v x, w)
  | _ => fun r => (fst r, g, snd r)
  end (h _ c w).

(** A call made and the answer it got. *)
Inductive Event : Type :=
| Ev (X : Type) (c : Call X) (x : X).

Inductive Outcome (A : Type) : Type :=
| Done (a : A)
| Panicked (msg : string).

Arguments Done {A} a.
Arguments Panicked {A} msg.

(** The result of a run: how it ended, the variables and the world it
    left, and the calls it made in order. *)
Record Result (W A : Type) : Type := {
  outcome : Outcome A;
  globals : Globals;
  world : W;
  trace : list Event
}.

(** The run [r], after the call [e]. *)
Definition add_event {W A : Type} (e : Event) (r : Result W A) : Result W A :=
  {| outcome := outcome r; globals := globals r; world := world r;
     trace := e :: trace r |}.

Fixpoint run {W A : Type} (h : Handler W) (p : Prog A) (g : Globals) (w : W)
  : Result W A :=
  match p with
  | Ret a => {| outcome := Done a; globals := g; world := w; trace := [] |}
  | Panic msg => {| outcome := Panicked msg; globals := g; world := w; trace := [] |}
  | Vis c k =>
      let '(x, g', w') := step h c g w in
      add_event (Ev c x) (run h (k x) g' w')
  end.

(** The run [r], followed by the run [f] starts from its result. *)
Definition and_then {W A B : Type} (r : Result W A)
    (f : A -> Globals -> W -> Result W B) : Result W B :=
  match outcome r with
  | Done a =>
      let r' := f a (globals r) (world r) in
      {| outcome := outcome r'; globals := globals r'; world := world r';
         trace := trace r ++ trace r' |}
  | Panicked msg =>
      {| outcome := Panicked msg; globals := globals r; world := world r;
         trace := trace r |}
  end.

(** ** A model of the collaborators

    The helpers the driver calls are not part of [storage_zfs.go].  The
    world below gives them the behaviour the specification describes: a
    namespace of datasets with properties and ordered snapshots, clones
    that pin their origin snapshot, a host tree of directories and
    symlinks, a table of mounts and the coordinator's map of completion
    channels.  The theorems about the driver's control flow hold for every
    handler; this one runs the driver on concrete inputs. *)

Inductive node : Type :=
| Dir
| Link (target : string)
| File.

Record zfs_dataset : Type := {
  zprops : config;          (* mountpoint, canmount, origin, quota, ... *)
  zsnaps : list string      (* snapshot names, oldest first *)
}.

Record World : Type := {
  datasets : gmap string zfs_dataset;   (* by full name, [<on_disk>/<fs>] *)
  files : gmap string node;             (* the host tree, by absolute path *)
  mounts : gset string;                 (* the mounted directories *)
  next_uuid : nat;
  lock_held : bool;                     (* lxdStorageMapLock *)
  opmap : gmap string chan;             (* lxdStorageOngoingOperationMap *)
  closed : gset chan;
  next_chan : chan;
  mount_fault : goerr;                  (* what mount(2) fails with, if it does *)
  mount_calls : nat;                    (* how often mount(2) was called *)
  incoming : list (list string)         (* snapshots carried by the streams to come *)
}.

Definition set_datasets (w : World) (d : gmap string zfs_dataset) : World :=
  {| datasets := d; files := files w; mounts := mounts w; next_uuid := next_uuid w;
     lock_held := lock_held w; opmap := opmap w; closed := closed w;
     next_chan := next_chan w; mount_fault := mount_fault w;
     mount_calls := mount_calls w; incoming := incoming w |}.

Definition set_files (w : World) (f : gmap string node) : World :=
  {| datasets := datasets w; files := f; mounts := mounts w; next_uuid := next_uuid w;
     lock_held := lock_held w; opmap := opmap w; closed := closed w;
     next_chan := next_chan w; mount_fault := mount_fault w;
     mount_calls := mount_calls w; incoming := incoming w |}.

Definition set_mounts (w : World) (m : gset string) : World :=
  {| datasets := datasets w; files := files w; mounts := m; next_uuid := next_uuid w;
     lock_held := lock_held w; opmap := opmap w; closed := closed w;
     next_chan := next_chan w; mount_fault := mount_fault w;
     mount_calls := mount_calls w; incoming := incoming w |}.

Definition set_lock (w : World) (b : bool) : World :=
  {| datasets := datasets w; files := files w; mounts := mounts w;
     next_uuid := next_uuid w; lock_held := b; opmap := opmap w; closed := closed w;
     next_chan := next_chan w; mount_fault := mount_fault w;
     mount_calls := mount_calls w; incoming := incoming w |}.

Definition set_opmap (w : World) (m : gmap string chan) : World :=
  {| datasets := datasets w; files := files w; mounts := mounts w;
     next_uuid := next_uuid w; lock_held := lock_held w; opmap := m; closed := closed w;
     next_chan := next_chan w; mount_fault := mount_fault w;
     mount_calls := mount_calls w; incoming := incoming w |}.

Definition set_closed (w : World) (c : gset chan) : World :=
  {| datasets := datasets w; files := files w; mounts := mounts w;
     next_uuid := next_uuid w; lock_held := lock_held w; opmap := opmap w; closed := c;
     next_chan := next_chan w; mount_fault := mount_fault w;
     mount_calls := mount_calls w; incoming := incoming w |}.

(** *** Paths *)

(** [q] lies strictly below the directory [p]. *)
Definition under (p q : string) : bool := String.prefix (p +:+ "/") q.

(** Every prefix of [path] that ends before a ["/"], and [path] itself:
    the directories [os.MkdirAll] makes. *)
Fixpoint ancestors_from (seen rest : string) : list string :=
  match rest with
  | EmptyString => [seen]
  | String a r =>
      if Ascii.eqb a "/"%char && negb (String.eqb seen "")
      then seen :: ancestors_from (seen +:+ String a EmptyString) r
      else ancestors_from (seen +:+ String a EmptyString) r
  end.

Definition ancestors (path : string) : list string := ancestors_from "" path.

Definition path_exists (w : World) (p : string) : bool :=
  bool_decide (is_Some (files w !! p)).

(** Follow one symlink, as opening a path does. *)
Definition resolve (w : World) (p : string) : string :=
  match files w !! p with
  | Some (Link t) => t
  | _ => p
  end.

Definition has_children (w : World) (p : string) : bool :=
  existsb (fun kv => under p (fst kv)) (map_to_list (files w)).

Definition fs_mkdir_all (w : World) (p : string) : goerr * World :=
  (None, set_files w (foldr (fun d m => match m !! d with
                                        | Some _ => m
                                        | None => <[d := Dir]> m
                                        end) (files w) (ancestors p))).

Definition fs_remove (w : World) (p : string) : goerr * World :=
  match files w !! p with
  | None => (Some (Errorf "remove: no such file or directory"), w)
  | Some Dir =>
      if has_children w p
      then (Some (Errorf "remove: directory not empty"), w)
      else (None, set_files w (delete p (files w)))
  | Some _ => (None, set_files w (delete p (files w)))
  end.

Definition fs_remove_all (w : World) (p : string) : goerr * World :=
  (None, set_files w
           (filter (fun kv => fst kv <> p /\ under p (fst kv) = false) (files w))).

Definition fs_rename (w : World) (old new : string) : goerr * World :=
  match files w !! old with
  | None => (Some (Errorf "rename: no such file or directory"), w)
  | Some _ =>
      if path_exists w new && has_children w new
      then (Some (Errorf "rename: directory not empty"), w)
      else
        let moved k :=
          if String.eqb k old then new
          else if under old k
               then new +:+ string_from (String.length old) k
               else k in
        (None, set_files w
                 (list_to_map (map (fun kv => (moved (fst kv), snd kv))
                                   (map_to_list (delete new (files w))))))
  end.

Definition fs_symlink (w : World) (target link : string) : goerr * World :=
  match files w !! link with
  | Some _ => (Some (Errorf "symlink: file exists"), w)
  | None => (None, set_files w (<[link := Link target]> (files w)))
  end.

(** [shared.PathIsEmpty]: open the path (following a symlink) and read one
    entry. *)
Definition fs_is_empty (w : World) (p : string) : bool * goerr :=
  let q := resolve w p in
  match files w !! q with
  | Some Dir => (negb (has_children w q), None)
  | Some _ => (false, Some (Errorf "readdir: not a directory"))
  | None => (false, Some (Errorf "open: no such file or directory"))
  end.

(** *** Datasets *)

Fixpoint split_at_char (c : ascii) (s : string) : option (string * string) :=
  match s with
  | EmptyString => None
  | String a r =>
      if Ascii.eqb a c then Some (EmptyString, r)
      else match split_at_char c r with
           | Some (p, q) => Some (String a p, q)
           | None => None
           end
  end.

Definition in_list (x : string) (l : list string) : bool := existsb (String.eqb x) l.

(** A dataset, or a snapshot [dataset@name], exists. *)
Definition entity_exists (w : World) (full : string) : bool :=
  match split_at_char "@" full with
  | Some (d, sn) =>
      match datasets w !! d with
      | Some ds => in_list sn (zsnaps ds)
      | None => false
      end
  | None => bool_decide (is_Some (datasets w !! full))
  end.

(** The clone edge: some dataset has the snapshot as its [origin]. *)
Definition has_clones (w : World) (d sn : string) : bool :=
  existsb (fun kv => String.eqb (cfg (zprops (snd kv)) "origin") (d +:+ "@" +:+ sn))
          (map_to_list (datasets w)).

Definition pinned (w : World) (d : string) : bool :=
  match datasets w !! d with
  | Some ds => existsb (has_clones w d) (zsnaps ds)
  | None => false
  end.

Definition zfs_property (w : World) (full key : string) : string * goerr :=
  match datasets w !! full with
  | Some ds =>
      (match zprops ds !! key with Some v => v | None => "-" end, None)
  | None => ("", Some (Errorf "dataset does not exist"))
  end.

Definition zfs_list_snapshots (w : World) (full : string) : list string * goerr :=
  match datasets w !! full with
  | Some ds => (zsnaps ds, None)
  | None => ([], Some (Errorf "dataset does not exist"))
  end.

(** Removable: no clone hangs off the snapshot. *)
Definition zfs_removable (w : World) (full name : string) : bool * goerr :=
  match datasets w !! full with
  | Some ds =>
      if String.eqb name "" then (negb (pinned w full), None)
      else if in_list name (zsnaps ds) then (negb (has_clones w full name), None)
      else (false, Some (Errorf "snapshot does not exist"))
  | None => (false, Some (Errorf "dataset does not exist"))
  end.

(** A property list [k=v] of [zfs create]. *)
Fixpoint parse_properties (l : list string) : config :=
  match l with
  | [] => ∅
  | kv :: rest =>
      match split_at_char "=" kv with
      | Some (k, v) => <[k := v]> (parse_properties rest)
      | None => parse_properties rest
      end
  end.

Definition zfs_create (w : World) (full : string) (properties : list string)
  : goerr * World :=
  match datasets w !! full with
  | Some _ => (Some (Errorf "dataset already exists"), w)
  | None =>
      (None, set_datasets w
               (<[full := {| zprops := parse_properties properties; zsnaps := [] |}]>
                  (datasets w)))
  end.

Definition zfs_set (w : World) (full key value : string) : goerr * World :=
  match datasets w !! full with
  | Some ds =>
      (None, set_datasets w
               (<[full := {| zprops := <[key := value]> (zprops ds);
                             zsnaps := zsnaps ds |}]> (datasets w)))
  | None => (Some (Errorf "dataset does not exist"), w)
  end.

Definition zfs_snapshot_create (w : World) (full name : string) : goerr * World :=
  match datasets w !! full with
  | Some ds =>
      if in_list name (zsnaps ds) then (Some (Errorf "snapshot already exists"), w)
      else (None, set_datasets w
                    (<[full := {| zprops := zprops ds; zsnaps := zsnaps ds ++ [name] |}]>
                       (datasets w)))
  | None => (Some (Errorf "dataset does not exist"), w)
  end.

Definition zfs_snapshot_destroy (w : World) (full name : string) : goerr * World :=
  match datasets w !! full with
  | Some ds =>
      if negb (in_list name (zsnaps ds)) then (Some (Errorf "snapshot does not exist"), w)
      else if has_clones w full name then (Some (Errorf "snapshot has dependent clones"), w)
      else (None, set_datasets w
                    (<[full := {| zprops := zprops ds;
                                  zsnaps := List.filter (fun x => negb (String.eqb x name))
                                                        (zsnaps ds) |}]>
                       (datasets w)))
  | None => (Some (Errorf "dataset does not exist"), w)
  end.

Definition zfs_snapshot_rename (w : World) (full old new : string) : goerr * World :=
  match datasets w !! full with
  | Some ds =>
      if negb (in_list old (zsnaps ds)) then (Some (Errorf "snapshot does not exist"), w)
      else if in_list new (zsnaps ds) then (Some (Errorf "snapshot already exists"), w)
      else
        let retarget (d : zfs_dataset) :=
          if String.eqb (cfg (zprops d) "origin") (full +:+ "@" +:+ old)
          then {| zprops := <["origin" := full +:+ "@" +:+ new]> (zprops d);
                  zsnaps := zsnaps d |}
          else d in
        (None, set_datasets w
                 (<[full := {| zprops := zprops ds;
                               zsnaps := map (fun x => if String.eqb x old then new else x)
                                             (zsnaps ds) |}]>
                    (retarget <$> datasets w)))
  | None => (Some (Errorf "dataset does not exist"), w)
  end.

(** Rollback without [-r]: only to the latest snapshot. *)
Definition zfs_snapshot_restore (w : World) (full name : string) : goerr * World :=
  match datasets w !! full with
  | Some ds =>
      match last (zsnaps ds) with
      | Some l => if String.eqb l name then (None, w)
                  else (Some (Errorf "more recent snapshots exist"), w)
      | None => (Some (Errorf "snapshot does not exist"), w)
      end
  | None => (Some (Errorf "dataset does not exist"), w)
  end.

Definition zfs_clone (w : World) (src name dest mountpoint : string) : goerr * World :=
  if negb (entity_exists w (src +:+ "@" +:+ name))
  then (Some (Errorf "snapshot does not exist"), w)
  else match datasets w !! dest with
       | Some _ => (Some (Errorf "dataset already exists"), w)
       | None =>
           (None, set_datasets w
                    (<[dest := {| zprops := {[ "origin" := src +:+ "@" +:+ name;
                                               "mountpoint" := mountpoint;
                                               "canmount" := "noauto" ]};
                                  zsnaps := [] |}]> (datasets w)))
       end.

(** Destroy a dataset with its snapshots (or one snapshot, for a name with
    [@]); refused while a clone pins it.  A mounted dataset is unmounted. *)
Definition zfs_destroy (w : World) (full : string) : goerr * World :=
  match split_at_char "@" full with
  | Some (d, sn) => zfs_snapshot_destroy w d sn
  | None =>
      match datasets w !! full with
      | Some ds =>
          if pinned w full then (Some (Errorf "filesystem has dependent clones"), w)
          else (None, set_mounts (set_datasets w (delete full (datasets w)))
                        (mounts w ∖ {[ cfg (zprops ds) "mountpoint" ]}))
      | None => (Some (Errorf "dataset does not exist"), w)
      end
  end.

Definition zfs_rename (w : World) (src dst : string) : goerr * World :=
  match datasets w !! src, datasets w !! dst with
  | Some ds, None =>
      let retarget (d : zfs_dataset) :=
        if HasPrefix (cfg (zprops d) "origin") (src +:+ "@")
        then {| zprops := <["origin" := dst +:+ string_from (String.length src)
                                                  (cfg (zprops d) "origin")]> (zprops d);
                zsnaps := zsnaps d |}
        else d in
      (None, set_datasets w (<[dst := ds]> (retarget <$> delete src (datasets w))))
  | None, _ => (Some (Errorf "dataset does not exist"), w)
  | _, Some _ => (Some (Errorf "dataset already exists"), w)
  end.

(** The garbage collection of a clone's origin: a tombstone (under
    [deleted/]) that nothing pins any more is destroyed, a snapshot first
    and then its dataset once it has no snapshot left, and so on along the
    origins; a [copy-] snapshot of a live container is simply destroyed. *)
Fixpoint zfs_cleanup (fuel : nat) (pool : string) (w : World) (path : string)
  : goerr * World :=
  match fuel with
  | O => (None, w)
  | S fuel' =>
      let full := pool +:+ "/" +:+ path in
      if HasPrefix path "deleted/" then
        match split_at_char "@" path with
        | Some (d, sn) =>
            if fst (zfs_removable w (pool +:+ "/" +:+ d) sn) then
              let '(e, w1) := zfs_snapshot_destroy w (pool +:+ "/" +:+ d) sn in
              match e with
              | Some _ => (e, w1)
              | None =>
                  match fst (zfs_list_snapshots w1 (pool +:+ "/" +:+ d)) with
                  | [] => zfs_cleanup fuel' pool w1 d
                  | _ => (None, w1)
                  end
              end
            else (None, w)
        | None =>
            if fst (zfs_removable w full "") then
              let origin := TrimPrefix (fst (zfs_property w full "origin")) (pool +:+ "/") in
              let '(e, w1) := zfs_destroy w full in
              match e with
              | Some _ => (e, w1)
              | None => if String.eqb origin "-" then (None, w1)
                        else zfs_cleanup fuel' pool w1 origin
              end
            else (None, w)
        end
      else if HasPrefix path "containers" then
        match split_at_char "@" path with
        | Some (d, sn) =>
            if HasPrefix sn "copy-" then zfs_snapshot_destroy w (pool +:+ "/" +:+ d) sn
            else (None, w)
        | None => (None, w)
        end
      else (None, w)
  end.

Definition zfs_mount (w : World) (full : string) : goerr * World :=
  match datasets w !! full with
  | Some ds =>
      let m := cfg (zprops ds) "mountpoint" in
      if String.eqb m "none" || String.eqb m "" || bool_decide (m ∈ mounts w)
      then (Some (Errorf "cannot mount"), w)
      else (None, set_mounts w ({[ m ]} ∪ mounts w))
  | None => (Some (Errorf "dataset does not exist"), w)
  end.

Definition zfs_umount (w : World) (mountpoint : string) : goerr * World :=
  if bool_decide (mountpoint ∈ mounts w)
  then (None, set_mounts w (mounts w ∖ {[ mountpoint ]}))
  else (Some (Errorf "not mounted"), w).

(** [mount(2)] of a dataset on a directory; it fails with [mount_fault]
    when the world has one. *)
Definition sys_mount (w : World) (src dst : string) : goerr * World :=
  let w := {| datasets := datasets w; files := files w; mounts := mounts w;
              next_uuid := next_uuid w; lock_held := lock_held w; opmap := opmap w;
              closed := closed w; next_chan := next_chan w;
              mount_fault := mount_fault w; mount_calls := S (mount_calls w);
              incoming := incoming w |} in
  match mount_fault w with
  | Some e => (Some e, w)
  | None =>
      if entity_exists w src
      then (None, set_mounts w ({[ dst ]} ∪ mounts w))
      else (Some (Errorf "mount: no such dataset"), w)
  end.

(** A [zfs receive] that ends: the next stream's snapshots arrive on the
    dataset, which is made if it is not there. *)
Definition zfs_receive (w : World) (target : string) : goerr * World :=
  let d := match split_at_char "@" target with Some (d, _) => d | None => target end in
  let arriving := match incoming w with s :: _ => s | [] => [] end in
  let old := match datasets w !! d with
             | Some ds => ds
             | None => {| zprops := ∅; zsnaps := [] |}
             end in
  let fresh := List.filter (fun x => negb (in_list x (zsnaps old))) arriving in
  let w1 := set_datasets w
              (<[d := {| zprops := zprops old; zsnaps := zsnaps old ++ fresh |}]>
                 (datasets w)) in
  (None, {| datasets := datasets w1; files := files w1; mounts := mounts w1;
            next_uuid := next_uuid w1; lock_held := lock_held w1; opmap := opmap w1;
            closed := closed w1; next_chan := next_chan w1;
            mount_fault := mount_fault w1; mount_calls := mount_calls w1;
            incoming := tail (incoming w1) |}).

(** *** The collaborators' answers *)

Definition uuid_of (n : nat) : string := "uuid" +:+ Sprintf_d (Z.of_nat n).

(** Modelled from the spec: [createContainerMountpoint] ([storage.go]):
    "creates the directory and the symlink. Idempotent"; the symlink is
    replaced only when it does not already point where required. *)
Definition create_container_mountpoint (w : World) (mountPoint symlink : string)
  : goerr * World :=
  let '(_, w1) := fs_mkdir_all w mountPoint in
  match files w1 !! symlink with
  | Some (Link t) =>
      if String.eqb t mountPoint then (None, w1)
      else (None, set_files w1 (<[symlink := Link mountPoint]> (files w1)))
  | Some _ => (Some (Errorf "symlink: file exists"), w1)
  | None => (None, set_files w1 (<[symlink := Link mountPoint]> (files w1)))
  end.

(** Modelled from the spec: [deleteContainerMountpoint] ([storage.go]):
    removes the symlink and the directory. *)
Definition delete_container_mountpoint (w : World) (mountPoint symlink : string)
  : goerr * World :=
  let '(e1, w1) := if path_exists w symlink then fs_remove w symlink else (None, w) in
  match e1 with
  | Some _ => (e1, w1)
  | None => if path_exists w1 mountPoint then fs_remove w1 mountPoint else (None, w1)
  end.

(** Modelled from the spec: [renameContainerMountpoint] ([storage.go]):
    renames the directory, removes the old symlink and makes the new one. *)
Definition rename_container_mountpoint (w : World)
    (oldMountPoint oldSymlink newMountPoint newSymlink : string) : goerr * World :=
  let '(e1, w1) :=
    if path_exists w oldMountPoint then fs_rename w oldMountPoint newMountPoint
    else (None, w) in
  match e1 with
  | Some _ => (e1, w1)
  | None =>
      let '(e2, w2) :=
        if path_exists w1 oldSymlink then fs_remove w1 oldSymlink else (None, w1) in
      match e2 with
      | Some _ => (e2, w2)
      | None => fs_symlink w2 newMountPoint newSymlink
      end
  end.

(** Modelled from the spec: [createSnapshotMountpoint] ([storage.go]):
    "creates aggregate directory and the symlink". *)
Definition create_snapshot_mountpoint (w : World) (dir target symlink : string)
  : goerr * World :=
  let '(_, w1) := fs_mkdir_all w dir in
  match files w1 !! symlink with
  | Some _ => (None, w1)
  | None => fs_symlink w1 target symlink
  end.

(** The snapshot records of a container: one per [snapshot-] snapshot of
    its dataset, oldest first. *)
Definition snapshot_records (pool : string) (w : World) (c : container) : list container :=
  match datasets w !! (pool +:+ "/containers/" +:+ Name c) with
  | Some ds =>
      map (fun sn =>
             {| Name := Name c +:+ "/" +:+ string_from 9 sn;
                Path := VarPath ["snapshots"; Name c; string_from 9 sn];
                IsPrivileged := IsPrivileged c; IsSnapshot := true;
                StoragePool := StoragePool c; ExpandedDevices := ExpandedDevices c |})
          (List.filter (fun sn => HasPrefix sn "snapshot-") (zsnaps ds))
  | None => []
  end.

(** [Delete] of a snapshot record: its snapshot and its mount directory go. *)
Definition delete_snapshot_record (pool : string) (w : World) (c : container)
  : goerr * World :=
  let '(parent, snap, _) := containerGetParentAndSnapshotName (Name c) in
  let '(e, w1) :=
    zfs_snapshot_destroy w (pool +:+ "/containers/" +:+ parent) ("snapshot-" +:+ snap) in
  match e with
  | Some _ => (e, w1)
  | None => fs_remove_all w1 (getSnapshotMountPoint pool (Name c))
  end.

Definition with_pool (pool path : string) (prefixPathWithPool : bool) : string :=
  if prefixPathWithPool then pool +:+ "/" +:+ path else path.

(** The handler of the model, for the driver [s].  In a sequential run
    nothing else holds the lock or an operation key, so [MapLock_Lock] and
    [chan_recv] return at once; the interleaving semantics below decides
    when they may. *)
Definition world_handler (s : storageZfs) : Handler World :=
  fun X c w =>
    let pool := getOnDiskPoolName s in
    match c in Call X0 return X0 * World with
    | ReadVar _ => ("", w)
    | StoreVar _ _ => (tt, w)
    | zfsFilesystemEntityExists path pre => (entity_exists w (with_pool pool path pre), w)
    | zfsFilesystemEntityPropertyGet path key pre =>
        (zfs_property w (with_pool pool path pre) key, w)
    | zfsPoolListSnapshots path => (zfs_list_snapshots w (pool +:+ "/" +:+ path), w)
    | zfsPoolVolumeSnapshotRemovable path name =>
        (zfs_removable w (pool +:+ "/" +:+ path) name, w)
    | zfsPoolVolumeCreate d props =>
        let '(e, w1) := zfs_create w d props in ("", e, w1)
    | zfsPoolVolumeClone src name dest mnt =>
        zfs_clone w (pool +:+ "/" +:+ src) name (pool +:+ "/" +:+ dest) mnt
    | zfsPoolVolumeDestroy path => zfs_destroy w (pool +:+ "/" +:+ path)
    | zfsPoolVolumeCleanup path => zfs_cleanup 8 pool w path
    | zfsPoolVolumeSet path key value => zfs_set w (pool +:+ "/" +:+ path) key value
    | zfsPoolVolumeRename src dst =>
        zfs_rename w (pool +:+ "/" +:+ src) (pool +:+ "/" +:+ dst)
    | zfsPoolVolumeMount path => zfs_mount w (pool +:+ "/" +:+ path)
    | zfsPoolVolumeUmount path mnt => zfs_umount w mnt
    | zfsPoolVolumeSnapshotCreate path name =>
        zfs_snapshot_create w (pool +:+ "/" +:+ path) name
    | zfsPoolVolumeSnapshotDestroy path name =>
        zfs_snapshot_destroy w (pool +:+ "/" +:+ path) name
    | zfsPoolVolumeSnapshotRestore path name =>
        zfs_snapshot_restore w (pool +:+ "/" +:+ path) name
    | zfsPoolVolumeSnapshotRename path old new =>
        zfs_snapshot_rename w (pool +:+ "/" +:+ path) old new
    | PathExists p => (path_exists w p, w)
    | PathIsEmpty p => (fs_is_empty w p, w)
    | IsMountPoint p => (bool_decide (p ∈ mounts w), w)
    | os_MkdirAll p _ => fs_mkdir_all w p
    | os_Remove p => fs_remove w p
    | os_RemoveAll p => fs_remove_all w p
    | os_Rename old new => fs_rename w old new
    | os_Symlink target link => fs_symlink w target link
    | tryMount src dst _ _ _ => sys_mount w src dst
    | createContainerMountpoint m l _ => create_container_mountpoint w m l
    | deleteContainerMountpoint m l _ => delete_container_mountpoint w m l
    | renameContainerMountpoint om ol nm nl => rename_container_mountpoint w om ol nm nl
    | createSnapshotMountpoint d t l => create_snapshot_mountpoint w d t l
    | cmd_StdinPipe _ => (None, w)
    | cmd_StdoutPipe _ => (None, w)
    | cmd_StderrPipe _ => (None, w)
    | cmd_Start _ => (None, w)
    | cmd_Run _ => (None, w)
    | cmd_Wait cmd =>
        match cmd with
        | "zfs" :: "receive" :: rest => zfs_receive w (default "" (last rest))
        | _ => (None, w)
        end
    | RunCommand _ => ("", None, w)
    | WebsocketRecvStream _ => (tt, w)
    | WebsocketSendStream _ => (tt, w)
    | ReadAll_stderr _ => ("", None, w)
    | rsyncLocalCopy _ _ _ => ("", None, w)
    | Snapshots c0 => (snapshot_records pool w c0, None, w)
    | Delete c0 => delete_snapshot_record pool w c0
    | StorageStart _ => (false, None, w)
    | StorageStop _ => (false, None, w)
    | TemplateApply _ _ => (None, w)
    | shiftRootfs _ => (None, w)
    | containerLoadByName name =>
        ({| Name := name; Path := VarPath ["containers"; name]; IsPrivileged := false;
            IsSnapshot := bool_decide (is_Some (split_at_slash name));
            StoragePool := pool_Name s; ExpandedDevices := ∅ |}, None, w)
    | containerGetRootDiskDevice devices =>
        match devices !! "root" with
        | Some d => ("root", d, None, w)
        | None => ("", ∅, Some (Errorf "No root device could be found."), w)
        end
    | snapshotProtobufToContainerArgs name snap =>
        ({| args_Name := name +:+ "/" +:+ snap_Name snap;
            args_Devices := snap_Devices snap |}, w)
    | containerCreateEmptySnapshot _ => (None, w)
    | uuid_NewRandom =>
        (uuid_of (next_uuid w),
         {| datasets := datasets w; files := files w; mounts := mounts w;
            next_uuid := S (next_uuid w); lock_held := lock_held w; opmap := opmap w;
            closed := closed w; next_chan := next_chan w;
            mount_fault := mount_fault w; mount_calls := mount_calls w;
            incoming := incoming w |})
    | MapLock_Lock => (tt, set_lock w true)
    | MapLock_Unlock => (tt, set_lock w false)
    | OngoingOperationMap_get key => (opmap w !! key, w)
    | OngoingOperationMap_set key ch => (tt, set_opmap w (<[key := ch]> (opmap w)))
    | OngoingOperationMap_delete key => (tt, set_opmap w (delete key (opmap w)))
    | make_chan =>
        (next_chan w,
         {| datasets := datasets w; files := files w; mounts := mounts w;
            next_uuid := next_uuid w; lock_held := lock_held w; opmap := opmap w;
            closed := closed w; next_chan := S (next_chan w);
            mount_fault := mount_fault w; mount_calls := mount_calls w;
            incoming := incoming w |})
    | chan_recv _ => (false, w)
    | chan_close ch => (tt, set_closed w ({[ ch ]} ∪ closed w))
    end.

(** An empty pool: no dataset, the daemon's directories, nothing mounted. *)
Definition empty_world : World :=
  {| datasets := ∅;
     files := {[ LXD_DIR := Dir ]};
     mounts := ∅; next_uuid := 0; lock_held := false; opmap := ∅; closed := ∅;
     next_chan := 0; mount_fault := None; mount_calls := 0; incoming := [] |}.

(** ** Observing a run *)

(** The dataset commands of the zfs helpers. *)
Inductive ZfsOp : Type :=
| OpCreate (dataset : string) (properties : list string)
| OpClone (source name dest mountpoint : string)
| OpDestroy (path : string)
| OpCleanup (path : string)
| OpSet (path key value : string)
| OpRename (source dest : string)
| OpMount (path : string)
| OpUmount (path mountpoint : string)
| OpSnapshotCreate (path name : string)
| OpSnapshotDestroy (path name : string)
| OpSnapshotRestore (path name : string)
| OpSnapshotRename (path oldName newName : string).

#[global] Instance ZfsOp_eq_dec : EqDecision ZfsOp.
Proof. solve_decision. Defined.

(** The dataset command an event is, with its answer. *)
Definition zfs_op (e : Event) : option (ZfsOp * goerr) :=
  match e with
  | Ev c x =>
      match c in Call X return X -> option (ZfsOp * goerr) with
      | zfsPoolVolumeCreate d props => fun r => Some (OpCreate d props, snd r)
      | zfsPoolVolumeClone a b c d => fun r => Some (OpClone a b c d, r)
      | zfsPoolVolumeDestroy p => fun r => Some (OpDestroy p, r)
      | zfsPoolVolumeCleanup p => fun r => Some (OpCleanup p, r)
      | zfsPoolVolumeSet p k v => fun r => Some (OpSet p k v, r)
      | zfsPoolVolumeRename a b => fun r => Some (OpRename a b, r)
      | zfsPoolVolumeMount p => fun r => Some (OpMount p, r)
      | zfsPoolVolumeUmount p m => fun r => Some (OpUmount p m, r)
      | zfsPoolVolumeSnapshotCreate p n => fun r => Some (OpSnapshotCreate p n, r)
      | zfsPoolVolumeSnapshotDestroy p n => fun r => Some (OpSnapshotDestroy p n, r)
      | zfsPoolVolumeSnapshotRestore p n => fun r => Some (OpSnapshotRestore p n, r)
      | zfsPoolVolumeSnapshotRename p a b => fun r => Some (OpSnapshotRename p a b, r)
      | _ => fun _ => None
      end x
  end.

(** The dataset commands a run issued, in order. *)
Definition zfs_ops (t : list Event) : list (ZfsOp * goerr) := omap zfs_op t.

(** The answers [mount(2)] gave ([tryMount]). *)
Definition mount_answers (t : list Event) : list goerr :=
  omap (fun e => match e with
                 | Ev c x =>
                     match c in Call X return X -> option goerr with
                     | tryMount _ _ _ _ _ => fun r => Some r
                     | _ => fun _ => None
                     end x
                 end) t.

(** The identifiers [uuid.NewRandom] gave. *)
Definition uuid_answers (t : list Event) : list string :=
  omap (fun e => match e with
                 | Ev c x =>
                     match c in Call X return X -> option string with
                     | uuid_NewRandom => fun r => Some r
                     | _ => fun _ => None
                     end x
                 end) t.

(** The answers of [zfsPoolListSnapshots]. *)
Definition list_answers (t : list Event) : list (list string * goerr) :=
  omap (fun e => match e with
                 | Ev c x =>
                     match c in Call X return X -> option (list string * goerr) with
                     | zfsPoolListSnapshots _ => fun r => Some r
                     | _ => fun _ => None
                     end x
                 end) t.

(** The answers of the container's [Snapshots()]. *)
Definition snapshots_answers (t : list Event) : list (list container * goerr) :=
  omap (fun e => match e with
                 | Ev c x =>
                     match c in Call X return X -> option (list container * goerr) with
                     | Snapshots _ => fun r => Some r
                     | _ => fun _ => None
                     end x
                 end) t.

(** The snapshot records a run deleted ([Delete()]), with the answers. *)
Definition delete_calls (t : list Event) : list (container * goerr) :=
  omap (fun e => match e with
                 | Ev c x =>
                     match c in Call X return X -> option (container * goerr) with
                     | Delete c0 => fun r => Some (c0, r)
                     | _ => fun _ => None
                     end x
                 end) t.

(** The event is a [StorageStart] or [StorageStop] of container [c0]. *)
Definition is_storage_start_stop (c0 : container) (e : Event) : bool :=
  match e with
  | Ev c _ =>
      match c with
      | StorageStart c1 | StorageStop c1 => String.eqb (Name c1) (Name c0)
      | _ => false
      end
  end.

(** The event reads or writes a package-level variable, or asks the
    container for its snapshots. *)
Definition is_var_or_snapshots (e : Event) : bool :=
  match e with
  | Ev c _ =>
      match c with
      | ReadVar _ | StoreVar _ _ | Snapshots _ => true
      | _ => false
      end
  end.

(** The keys [StoragePoolUpdate] refuses to change. *)
Definition rejected_keys : list string :=
  ["size"; "source"; "volume.size"; "volume.block.mount_options";
   "volume.block.filesystem"; "lvm.thinpool_name"; "lvm.vg_name"; "zfs.pool_name"].

(** An option of the shape [volume.*]. *)
Definition volume_shaped (key : string) : bool := HasPrefix key "volume.".

(** ** Concrete inputs *)

(** A driver for the pool [pool], with the pool and volume config given. *)
Definition zfs_driver (pool : string) (poolConfig volumeConfig : config) : storageZfs :=
  {| dataset := ""; pool_Name := pool; pool_Config := poolConfig;
     volume_Name := ""; volume_Config := volumeConfig; sTypeName := "zfs" |}.

(** The container [name] on the pool [pool]. *)
Definition a_container (pool name : string) : container :=
  {| Name := name; Path := VarPath ["containers"; name]; IsPrivileged := false;
     IsSnapshot := false; StoragePool := pool;
     ExpandedDevices := {[ "root" := {[ "pool" := pool ]} ]} |}.

(** The snapshot record [parent/snap] on the pool [pool]. *)
Definition a_snapshot (pool parent snap : string) : container :=
  {| Name := parent +:+ "/" +:+ snap; Path := VarPath ["snapshots"; parent; snap];
     IsPrivileged := false; IsSnapshot := true; StoragePool := pool;
     ExpandedDevices := {[ "root" := {[ "pool" := pool ]} ]} |}.

(** The world a program leaves when run in the model from [w], with the
    package-level variables as the file initialises them. *)
Definition after {A : Type} (s : storageZfs) (p : Prog A) (w : World) : World :=
  world (run (world_handler s) p initial_globals w).

Definition pool1 : storageZfs := zfs_driver "pool1" ∅ ∅.

(** [pool1] with the dataset of a created container [c1]. *)
Definition world_c1 : World :=
  after pool1 (ContainerCreate pool1 (a_container "pool1" "c1")) empty_world.

(** The same, where [mount(2)] answers [EBUSY]. *)
Definition world_c1_busy : World :=
  {| datasets := datasets world_c1; files := files world_c1; mounts := mounts world_c1;
     next_uuid := next_uuid world_c1; lock_held := lock_held world_c1;
     opmap := opmap world_c1; closed := closed world_c1; next_chan := next_chan world_c1;
     mount_fault := Some EBUSY; mount_calls := mount_calls world_c1;
     incoming := incoming world_c1 |}.

(** A call that only asks the world a question. *)
Definition is_query {X : Type} (c : Call X) : bool :=
  match c with
  | zfsFilesystemEntityExists _ _ | zfsFilesystemEntityPropertyGet _ _ _
  | zfsPoolListSnapshots _ | zfsPoolVolumeSnapshotRemovable _ _
  | PathExists _ | PathIsEmpty _ | IsMountPoint _ => true
  | _ => false
  end.

(** The handler answers questions without changing its world. *)
Definition queries_are_pure {W : Type} (h : Handler W) : Prop :=
  forall (X : Type) (c : Call X) (w : W), is_query c = true -> snd (h X c w) = w.

(** What the handler answers in the world [w]. *)
Definition answer_in {W X : Type} (h : Handler W) (w : W) (c : Call X) : X :=
  fst (h X c w).

(** The run [r], after the calls [t]. *)
Definition prepend {W A : Type} (t : list Event) (r : Result W A) : Result W A :=
  {| outcome := outcome r; globals := globals r; world := world r;
     trace := t ++ trace r |}.

(** [pool1] after [c1] got the snapshot [s1] and [c2] was copied from it
    as a clone: the snapshot [c1@snapshot-s1] is the origin of [c2]. *)
Definition world_c1_cloned : World :=
  after pool1 (ContainerCopy pool1 (a_container "pool1" "c2")
                 (a_snapshot "pool1" "c1" "s1") true)
    (after pool1 (ContainerSnapshotCreate pool1 (a_snapshot "pool1" "c1" "s1")
                    (a_container "pool1" "c1"))
       world_c1).

(** The elements of [l] before the first one named like [source]. *)
Fixpoint take_until (source : container) (l : list container) : list container :=
  match l with
  | [] => []
  | c :: rest =>
      if String.eqb (Name c) (Name source) then []
      else c :: take_until source rest
  end.

(** The snapshots [ContainerRestore] is to delete: from the newest down to
    index 1, those before the first one named like the source. *)
Definition newer_than (snaps : list container) (source : container) : list container :=
  take_until source (rev (tail snaps)).

(** What a restore does to the snapshots: deletes of records and the
    rollback, with the answers. *)
Inductive RestoreAct : Type :=
| ActDelete (c : container) (r : goerr)
| ActRollback (path name : string) (r : goerr).

Definition restore_act (e : Event) : option RestoreAct :=
  match e with
  | Ev c x =>
      match c in Call X return X -> option RestoreAct with
      | Delete c0 => fun r => Some (ActDelete c0 r)
      | zfsPoolVolumeSnapshotRestore p n => fun r => Some (ActRollback p n r)
      | _ => fun _ => None
      end x
  end.

Definition restore_acts (t : list Event) : list RestoreAct := omap restore_act t.

(** The event touches a package-level variable. *)
Definition is_var_access (e : Event) : bool :=
  match e with
  | Ev c _ =>
      match c with
      | ReadVar _ | StoreVar _ _ => true
      | _ => false
      end
  end.

(** What a run of [ContainerRestore] must look like once [Snapshots()]
    answered with a list that is not empty: the variables of the file are
    untouched, and either every snapshot newer than the source was deleted,
    newest first, and then the rollback to [snapshot-<sN>] was issued, its
    answer being the result; or a delete failed, its error is the result,
    and nothing was rolled back. *)
Definition restore_spec (g : Globals) (source : container) (cN sN : string)
    (W : Type) (r : Result W goerr) : Prop :=
  forall snaps, snapshots_answers (trace r) = [(snaps, None)] -> snaps <> [] ->
  globals r = g /\
  ((exists rr,
      restore_acts (trace r)
      = map (fun c => ActDelete c None) (newer_than snaps source)
          ++ [ActRollback ("containers/" +:+ cN) ("snapshot-" +:+ sN) rr] /\
      outcome r = Done rr) \/
   (exists k c e,
      newer_than snaps source !! k = Some c /\
      restore_acts (trace r)
      = map (fun c => ActDelete c None) (firstn k (newer_than snaps source))
          ++ [ActDelete c (Some e)] /\
      outcome r = Done (Some e))).

(** [pool1] where [c1] has the snapshots [s1], [s2] and [s3]. *)
Definition world_c1_snaps : World :=
  after pool1 (ContainerSnapshotCreate pool1 (a_snapshot "pool1" "c1" "s3")
                 (a_container "pool1" "c1"))
    (after pool1 (ContainerSnapshotCreate pool1 (a_snapshot "pool1" "c1" "s2")
                    (a_container "pool1" "c1"))
       (after pool1 (ContainerSnapshotCreate pool1 (a_snapshot "pool1" "c1" "s1")
                       (a_container "pool1" "c1"))
          world_c1)).

(** A driver for [pool1] whose pool config sets
    [volume.zfs.remove_snapshots] and [volume.zfs.use_refquota]. *)
Definition pool1_configured : storageZfs :=
  zfs_driver "pool1" {[ "volume.zfs.remove_snapshots" := "true";
                        "volume.zfs.use_refquota" := "true" ]} ∅.

(** Two runs made the same calls, got the same answers, ended alike and
    left the same world. *)
Definition same_result {W A : Type} (r1 r2 : Result W A) : Prop :=
  outcome r1 = outcome r2 /\ world r1 = world r2 /\ trace r1 = trace r2.

(** The program never makes a call that [bad] marks. *)
Fixpoint never_calls {A : Type} (bad : forall X : Type, Call X -> bool) (p : Prog A)
  : Prop :=
  match p with
  | Ret _ | Panic _ => True
  | Vis c k => bad _ c = false /\ forall x, never_calls bad (k x)
  end.

Definition event_is (bad : forall X : Type, Call X -> bool) (e : Event) : bool :=
  match e with Ev c _ => bad _ c end.

(** The calls of the sink's cleanup: listing the snapshots of a dataset
    and destroying a snapshot. *)
Definition is_cleanup_call (X : Type) (c : Call X) : bool :=
  match c with
  | zfsPoolListSnapshots _ | zfsPoolVolumeSnapshotDestroy _ _ => true
  | _ => false
  end.

(** The snapshots a run destroyed ([zfsPoolVolumeSnapshotDestroy]), as
    (dataset, snapshot), in order. *)
Definition destroyed_snapshots (t : list Event) : list (string * string) :=
  omap (fun e => match e with
                 | Ev c x =>
                     match c in Call X return X -> option (string * string) with
                     | zfsPoolVolumeSnapshotDestroy p n => fun _ => Some (p, n)
                     | _ => fun _ => None
                     end x
                 end) t.

(** The snapshots the sink's cleanup is to destroy, given what the listing
    after the receive answered: nothing when the listing failed; else the
    [migration-send] ones, or all of them when no snapshot was expected. *)
Definition sink_to_destroy (snapshots : list Snapshot) (listed : list string * goerr)
  : list string :=
  match snd listed with
  | Some _ => []
  | None =>
      List.filter (fun snap => (length snapshots =? 0)%nat || HasPrefix snap "migration-send")
                  (fst listed)
  end.

(** What a run of [MigrationSink] that returned [nil] looks like: the
    snapshots of [containers/<name>] were listed once, after every other
    call, and the snapshots destroyed are those of [sink_to_destroy], all
    destroyed after the listing. *)
Definition sink_spec (c : container) (snapshots : list Snapshot)
    (W : Type) (r : Result W goerr) : Prop :=
  outcome r = Done None ->
  exists pre listed post,
    trace r = pre ++ Ev (zfsPoolListSnapshots ("containers/" +:+ Name c)) listed :: post /\
    existsb (event_is is_cleanup_call) pre = false /\
    list_answers (trace r) = [listed] /\
    destroyed_snapshots (trace r)
    = map (fun snap => ("containers/" +:+ Name c, snap)) (sink_to_destroy snapshots listed).

(** A sink for the container [c5]: the first stream to come carries the
    snapshot [s1], the second the container with the sender's
    [migration-send] snapshot. *)
Definition world_sink : World :=
  {| datasets := ∅;
     files := {[ LXD_DIR := Dir ]};
     mounts := ∅; next_uuid := 0; lock_held := false; opmap := ∅; closed := ∅;
     next_chan := 0; mount_fault := None; mount_calls := 0;
     incoming := [["snapshot-s1"]; ["migration-send-7"]] |}.

(** [pool1] where [c1] has the one snapshot [s1]: its aggregate snapshot
    directory and symlink exist. *)
Definition world_c1_s1 : World :=
  after pool1 (ContainerSnapshotCreate pool1 (a_snapshot "pool1" "c1" "s1")
                 (a_container "pool1" "c1"))
    world_c1.

(** ... after [c1] was renamed to the fresh name [c9] ... *)
Definition world_c1_s1_renamed : World :=
  after pool1 (ContainerRename 2 pool1 (a_container "pool1" "c1") "c9") world_c1_s1.

(** ... and after [c9] was renamed back to [c1]. *)
Definition world_c1_s1_round_trip : World :=
  after pool1 (ContainerRename 2 pool1 (a_container "pool1" "c9") "c1")
    world_c1_s1_renamed.

(** The same round trip for the container without snapshots, as create
    left it. *)
Definition world_c1_round_trip : World :=
  after pool1 (ContainerRename 2 pool1 (a_container "pool1" "c9") "c1")
    (after pool1 (ContainerRename 2 pool1 (a_container "pool1" "c1") "c9") world_c1).

(** The container has a snapshot: its dataset holds a [snapshot-] one. *)
Definition has_snapshot (w : World) (pool name : string) : bool :=
  match snapshot_records pool w (a_container pool name) with
  | [] => false
  | _ => true
  end.

(** The aggregate snapshot symlink [<daemon-var>/snapshots/<name>] exists. *)
Definition has_snapshot_symlink (w : World) (name : string) : bool :=
  path_exists w (VarPath ["snapshots"; name]).

(** ** Concurrent callers

    Several goroutines run driver methods against one world.  A call of a
    thread is taken in one step; [lxdStorageMapLock.Lock()] can be taken
    only while the mutex is free, and the receive [<-waitChannel] only once
    the channel is closed.  Every other call can always be taken. *)

Definition enabled {X : Type} (w : World) (c : Call X) : bool :=
  match c with
  | MapLock_Lock => negb (lock_held w)
  | chan_recv ch => bool_decide (ch ∈ closed w)
  | _ => true
  end.

(** The package-level variables, the world and the goroutines, each with
    what it has left to do. *)
Record Pool (A : Type) : Type := {
  pool_globals : Globals;
  pool_world : World;
  threads : list (Prog A)
}.

(** Thread [i] takes its next call; [None] when there is no such thread,
    when it has returned or panicked, or when its call is blocked. *)
Definition sched_step {A : Type} (h : Handler World) (i : nat) (st : Pool A)
  : option (Pool A) :=
  match threads st !! i with
  | Some (Vis c k) =>
      if enabled (pool_world st) c then
        let '(x, g', w') := step h c (pool_globals st) (pool_world st) in
        Some {| pool_globals := g'; pool_world := w';
                threads := <[i := k x]> (threads st) |}
      else None
  | _ => None
  end.

(** An interleaving is the list of the threads that move, in order. *)
Fixpoint run_schedule {A : Type} (h : Handler World) (sched : list nat) (st : Pool A)
  : option (Pool A) :=
  match sched with
  | [] => Some st
  | i :: rest =>
      match sched_step h i st with
      | Some st' => run_schedule h rest st'
      | None => None
      end
  end.

(** [n] goroutines that all call [p]. *)
Definition callers {A : Type} (n : nat) (p : Prog A) (g : Globals) (w : World) : Pool A :=
  {| pool_globals := g; pool_world := w; threads := replicate n p |}.

(** The result of a thread that has returned. *)
Definition returned {A : Type} (p : Prog A) : option A :=
  match p with
  | Ret a => Some a
  | _ => None
  end.

(** Every thread has returned. *)
Definition all_returned {A : Type} (st : Pool A) : bool :=
  forallb (fun p => match returned p with Some _ => true | None => false end)
    (threads st).

(** *** The program points of [ContainerMount]

    Where a caller of [ContainerMount] can stand between two calls, with
    the channel it waits on or has registered and the result its body has
    produced. *)
Inductive MountPc : Type :=
| AtLock                                    (* before lxdStorageMapLock.Lock() *)
| AtLookup                                  (* before the map lookup *)
| WaitUnlock (waitChannel : chan)           (* found an operation: before Unlock() *)
| WaitRecv (waitChannel : chan)             (* before <-waitChannel *)
| WaitDone                                  (* returned false, nil as a waiter *)
| AtMakeChan                                (* found none: before make(chan bool) *)
| AtSet (ch : chan)                         (* before the map store *)
| AtUnlock (ch : chan)                      (* before Unlock() *)
| AtPathExists (ch : chan)
| AtCreate (ch : chan)                      (* before createContainerMountpoint *)
| AtIsMountPoint (ch : chan)
| AtMount (ch : chan)                       (* before tryMount *)
| RelLock (r : bool * goerr) (ch : chan)    (* removeLockFromMap: before Lock() *)
| RelLookup (r : bool * goerr) (ch : chan)
| RelClose (r : bool * goerr) (waitChannel : chan)
| RelDelete (r : bool * goerr) (waitChannel : chan)
| RelUnlock (r : bool * goerr)
| OwnerDone (r : bool * goerr).             (* returned r after the deferred call *)

Section MountPoints.
Variables (s : storageZfs) (c : container).

Definition mount_lock_id : string := getContainerMountLockID (pool_Name s) (Name c).
Definition mount_point : string := getContainerMountPoint (pool_Name s) (Name c).
Definition mount_source : string :=
  getOnDiskPoolName s +:+ "/" +:+ "containers/" +:+ Name c.

(** The rest of the deferred [removeLockFromMap], then [return r]. *)
Definition release_from_lookup (r : bool * goerr) : Prog (bool * goerr) :=
  (w <- call (OngoingOperationMap_get mount_lock_id) ;;
   match w with
   | Some waitChannel =>
       call (chan_close waitChannel) ;;
       call (OngoingOperationMap_delete mount_lock_id)
   | None => Ret tt
   end ;;
   call MapLock_Unlock) ;;
  Ret r.

Definition release_from_close (r : bool * goerr) (waitChannel : chan)
  : Prog (bool * goerr) :=
  ((call (chan_close waitChannel) ;;
    call (OngoingOperationMap_delete mount_lock_id)) ;;
   call MapLock_Unlock) ;;
  Ret r.

Definition release_from_delete (r : bool * goerr) : Prog (bool * goerr) :=
  (call (OngoingOperationMap_delete mount_lock_id) ;;
   call MapLock_Unlock) ;;
  Ret r.

(** The body under the [defer], and what is left of it from its later
    calls on. *)
Definition body_from_mount : Prog (bool * goerr) :=
  mounterr <- call (tryMount mount_source mount_point "zfs" 0
                      ("rw,zfsutil,mntpoint=" +:+ mount_point)) ;;
  match mounterr with
  | Some e => if negb (bool_decide (e = EBUSY)) then Ret (false, Some e)
              else Ret (false, Some e)
  | None => Ret (true, None)
  end.

Definition body_from_IsMountPoint : Prog (bool * goerr) :=
  isMnt <- call (IsMountPoint mount_point) ;;
  if negb isMnt then body_from_mount else Ret (false, None).

Definition body_from_create : Prog (bool * goerr) :=
  err <- call (createContainerMountpoint mount_point (Path c) (IsPrivileged c)) ;;
  match err with
  | Some e => Ret (false, Some e)
  | None => body_from_IsMountPoint
  end.

Definition body_from_PathExists : Prog (bool * goerr) :=
  exists_ <- call (PathExists mount_point) ;;
  err <- (if negb exists_
          then call (createContainerMountpoint mount_point (Path c) (IsPrivileged c))
          else Ret None) ;;
  match err with
  | Some e => Ret (false, Some e)
  | None => body_from_IsMountPoint
  end.

(** What a caller at a program point has left to do. *)
Definition at_pc (pc : MountPc) : Prog (bool * goerr) :=
  match pc with
  | AtLock => ContainerMount s c
  | AtLookup =>
      w <- call (OngoingOperationMap_get mount_lock_id) ;;
      match w with
      | Some waitChannel =>
          call MapLock_Unlock ;; call (chan_recv waitChannel) ;; Ret (false, None)
      | None =>
          ch <- call make_chan ;;
          call (OngoingOperationMap_set mount_lock_id ch) ;;
          call MapLock_Unlock ;;
          defer (removeLockFromMap mount_lock_id) body_from_PathExists
      end
  | WaitUnlock waitChannel =>
      call MapLock_Unlock ;; call (chan_recv waitChannel) ;; Ret (false, None)
  | WaitRecv waitChannel => call (chan_recv waitChannel) ;; Ret (false, None)
  | WaitDone => Ret (false, None)
  | AtMakeChan =>
      ch <- call make_chan ;;
      call (OngoingOperationMap_set mount_lock_id ch) ;;
      call MapLock_Unlock ;;
      defer (removeLockFromMap mount_lock_id) body_from_PathExists
  | AtSet ch =>
      call (OngoingOperationMap_set mount_lock_id ch) ;;
      call MapLock_Unlock ;;
      defer (removeLockFromMap mount_lock_id) body_from_PathExists
  | AtUnlock _ =>
      call MapLock_Unlock ;;
      defer (removeLockFromMap mount_lock_id) body_from_PathExists
  | AtPathExists _ => defer (removeLockFromMap mount_lock_id) body_from_PathExists
  | AtCreate _ => defer (removeLockFromMap mount_lock_id) body_from_create
  | AtIsMountPoint _ => defer (removeLockFromMap mount_lock_id) body_from_IsMountPoint
  | AtMount _ => defer (removeLockFromMap mount_lock_id) body_from_mount
  | RelLock r _ => removeLockFromMap mount_lock_id ;; Ret r
  | RelLookup r _ => release_from_lookup r
  | RelClose r waitChannel => release_from_close r waitChannel
  | RelDelete r _ => release_from_delete r
  | RelUnlock r => call MapLock_Unlock ;; Ret r
  | OwnerDone r => Ret r
  end.

(** A call taken against the model, when it can be taken. *)
Definition take {X : Type} (c0 : Call X) (w : World) : option (X * World) :=
  if enabled w c0 then Some (world_handler s c0 w) else None.

(** One step of a caller of [ContainerMount], by program point. *)
Definition pc_step (w : World) (pc : MountPc) : option (World * MountPc) :=
  match pc with
  | AtLock => '(_, w') ← take MapLock_Lock w; Some (w', AtLookup)
  | AtLookup =>
      '(found, w') ← take (OngoingOperationMap_get mount_lock_id) w;
      Some (w', match found with
                | Some waitChannel => WaitUnlock waitChannel
                | None => AtMakeChan
                end)
  | WaitUnlock ch => '(_, w') ← take MapLock_Unlock w; Some (w', WaitRecv ch)
  | WaitRecv ch => '(_, w') ← take (chan_recv ch) w; Some (w', WaitDone)
  | WaitDone => None
  | AtMakeChan => '(ch, w') ← take make_chan w; Some (w', AtSet ch)
  | AtSet ch =>
      '(_, w') ← take (OngoingOperationMap_set mount_lock_id ch) w; Some (w', AtUnlock ch)
  | AtUnlock ch => '(_, w') ← take MapLock_Unlock w; Some (w', AtPathExists ch)
  | AtPathExists ch =>
      '(exists_, w') ← take (PathExists mount_point) w;
      Some (w', if negb exists_ then AtCreate ch else AtIsMountPoint ch)
  | AtCreate ch =>
      '(err, w') ← take (createContainerMountpoint mount_point (Path c) (IsPrivileged c)) w;
      Some (w', match err with
                | Some e => RelLock (false, Some e) ch
                | None => AtIsMountPoint ch
                end)
  | AtIsMountPoint ch =>
      '(isMnt, w') ← take (IsMountPoint mount_point) w;
      Some (w', if negb isMnt then AtMount ch else RelLock (false, None) ch)
  | AtMount ch =>
      '(mounterr, w') ← take (tryMount mount_source mount_point "zfs" 0
                                ("rw,zfsutil,mntpoint=" +:+ mount_point)) w;
      Some (w', match mounterr with
                | Some e => RelLock (false, Some e) ch
                | None => RelLock (true, None) ch
                end)
  | RelLock r ch => '(_, w') ← take MapLock_Lock w; Some (w', RelLookup r ch)
  | RelLookup r ch =>
      '(found, w') ← take (OngoingOperationMap_get mount_lock_id) w;
      Some (w', match found with
                | Some waitChannel => RelClose r waitChannel
                | None => RelUnlock r
                end)
  | RelClose r ch => '(_, w') ← take (chan_close ch) w; Some (w', RelDelete r ch)
  | RelDelete r ch =>
      '(_, w') ← take (OngoingOperationMap_delete mount_lock_id) w; Some (w', RelUnlock r)
  | RelUnlock r => '(_, w') ← take MapLock_Unlock w; Some (w', OwnerDone r)
  | OwnerDone _ => None
  end.

End MountPoints.

(** *** What the callers of [ContainerMount] keep true

    The checks below relate the program points of the callers to the
    mutex, the operation map and the mount table. *)

(** The caller is between [lxdStorageMapLock.Lock()] and [Unlock()]. *)
Definition holds_mutex (pc : MountPc) : bool :=
  match pc with
  | AtLookup | WaitUnlock _ | AtMakeChan | AtSet _ | AtUnlock _
  | RelLookup _ _ | RelClose _ _ | RelDelete _ _ | RelUnlock _ => true
  | _ => false
  end.

(** The caller's channel is the entry of the key in the operation map. *)
Definition registered (pc : MountPc) : option chan :=
  match pc with
  | AtUnlock ch | AtPathExists ch | AtCreate ch | AtIsMountPoint ch | AtMount ch
  | RelLock _ ch | RelLookup _ ch | RelClose _ ch | RelDelete _ ch => Some ch
  | _ => None
  end.

(** The caller found no entry and has not stored its own yet. *)
Definition before_set (pc : MountPc) : bool :=
  match pc with
  | AtMakeChan | AtSet _ => true
  | _ => false
  end.

(** The caller is about to call [tryMount]. *)
Definition at_mount (pc : MountPc) : bool :=
  match pc with
  | AtMount _ => true
  | _ => false
  end.

(** The result of the caller's body, once it has one. *)
Definition body_result (pc : MountPc) : option (bool * goerr) :=
  match pc with
  | RelLock r _ | RelLookup r _ | RelClose r _ | RelDelete r _ | RelUnlock r
  | OwnerDone r => Some r
  | _ => None
  end.

Definition returns_true (pc : MountPc) : bool :=
  match body_result pc with
  | Some (true, _) => true
  | _ => false
  end.

Definition body_succeeded (pc : MountPc) : bool :=
  match body_result pc with
  | Some (_, None) => true
  | _ => false
  end.

(** The caller took the waiting branch, or the working one. *)
Definition is_waiter (pc : MountPc) : bool :=
  match pc with
  | WaitUnlock _ | WaitRecv _ | WaitDone => true
  | _ => false
  end.

Definition is_owner (pc : MountPc) : bool :=
  match pc with
  | AtLock | AtLookup | WaitUnlock _ | WaitRecv _ | WaitDone => false
  | _ => true
  end.

Section MountInvariant.
Variables (s : storageZfs) (c : container).

Definition is_mounted (w : World) : bool := bool_decide (mount_point s c ∈ mounts w).

(** What the mount needs to succeed, and how the mount count and the mount
    table go together; [w0] is the world the callers started in. *)
Definition world_ok (w0 w : World) : Prop :=
  mount_fault w = None /\
  entity_exists w (mount_source s c) = true /\
  (mount_calls w = mount_calls w0 \/
   (mount_calls w = S (mount_calls w0) /\ is_mounted w = true)) /\
  (is_mounted w0 = true -> is_mounted w = true /\ mount_calls w = mount_calls w0) /\
  (is_mounted w = true -> is_mounted w0 = true \/ mount_calls w = S (mount_calls w0)).

(** One caller against the world. *)
Definition caller_ok (w0 w : World) (pc : MountPc) : Prop :=
  (holds_mutex pc = true -> lock_held w = true) /\
  (forall ch, registered pc = Some ch -> opmap w !! mount_lock_id s c = Some ch) /\
  (before_set pc = true -> opmap w !! mount_lock_id s c = None) /\
  (at_mount pc = true -> is_mounted w = false) /\
  (returns_true pc = true -> mount_calls w = S (mount_calls w0)) /\
  (body_succeeded pc = true -> is_mounted w = true).

(** Two different callers. *)
Definition callers_apart (pc1 pc2 : MountPc) : Prop :=
  (holds_mutex pc1 = true -> holds_mutex pc2 = true -> False) /\
  (registered pc1 <> None -> registered pc2 <> None -> False) /\
  (returns_true pc1 = true -> returns_true pc2 = true -> False).

Definition mount_invariant (w0 w : World) (pcs : list MountPc) : Prop :=
  world_ok w0 w /\
  (forall i pc, pcs !! i = Some pc -> caller_ok w0 w pc) /\
  (forall i j pc1 pc2, i <> j -> pcs !! i = Some pc1 -> pcs !! j = Some pc2 ->
                       callers_apart pc1 pc2) /\
  (forall ch, opmap w !! mount_lock_id s c = Some ch ->
              exists i pc, pcs !! i = Some pc /\ registered pc = Some ch) /\
  ((exists i pc, pcs !! i = Some pc /\ is_waiter pc = true) ->
   exists j pc, pcs !! j = Some pc /\ is_owner pc = true) /\
  (mount_calls w = S (mount_calls w0) ->
   exists i pc, pcs !! i = Some pc /\ returns_true pc = true).

End MountInvariant.

(** Three callers, interleaved: the first registers its operation, the
    other two find it and wait, the first mounts and releases them. *)
Definition schedule3 : list nat :=
  replicate 5 0 ++ replicate 3 1 ++ replicate 3 2 ++ replicate 8 0 ++ [1; 2].

(** [world_c1] after one [ContainerMount] of [c1]: the dataset is mounted. *)
Definition world_c1_mounted : World :=
  after pool1 (ContainerMount pool1 (a_container "pool1" "c1")) world_c1.

(** [world_c1] while some goroutine has a mount of [c1] in flight. *)
Definition world_c1_in_flight : World :=
  set_opmap world_c1 {[ mount_lock_id pool1 (a_container "pool1" "c1") := 7 ]}.

(** How often [mount(2)] was called, and what each thread returned. *)
Definition mount_summary (st : option (Pool (bool * goerr)))
  : option (nat * list (option (bool * goerr))) :=
  option_map (fun st => (mount_calls (pool_world st), map returned (threads st))) st.

(** ** Custom volumes and snapshot start (lines 186-242, 287-328, 391-408, 520-524, 1527-1563) *)

(** Modelled from the spec: the unmount key of a custom volume, like
    [getCustomMountLockID] ([storage.go]). *)
Definition getCustomUmountLockID (poolName volumeName : string) : string :=
  "umount/custom/" +:+ poolName +:+ "/" +:+ volumeName.



Definition StoragePoolVolumeUmount (s : storageZfs) : Prog (bool * goerr) :=
  let fs := "custom/" +:+ volume_Name s in
  let customPoolVolumeMntPoint :=
    getStoragePoolVolumeMountPoint (pool_Name s) (volume_Name s) in
  let customUmountLockID := getCustomUmountLockID (pool_Name s) (volume_Name s) in
  call MapLock_Lock ;;
  w <- call (OngoingOperationMap_get customUmountLockID) ;;
  match w with
  | Some waitChannel =>
      call MapLock_Unlock ;;
      call (chan_recv waitChannel) ;;
      (* Give the benefit of the doubt and assume that the other
         thread actually succeeded in unmounting the storage volume. *)
      Ret (false, None)
  | None =>
      ch <- call make_chan ;;
      call (OngoingOperationMap_set customUmountLockID ch) ;;
      call MapLock_Unlock ;;
      isMnt <- call (IsMountPoint customPoolVolumeMntPoint) ;;
      r <- (if isMnt
            then customerr <- call (zfsPoolVolumeUmount fs customPoolVolumeMntPoint) ;;
                 Ret (customerr, true)
            else Ret (None, false)) ;;
      let '(customerr, ourUmount) := r in
      removeLockFromMap customUmountLockID ;;
      match customerr with
      | Some e => Ret (false, Some e)
      | None => Ret (ourUmount, None)
      end
  end.

Definition StoragePoolVolumeUpdate (changedConfig : list string) : goerr :=
  if StringInSlice "block.mount_options" changedConfig then
    Some (Errorf "the block.mount_options property cannot be changed")
  else if StringInSlice "block.filesystem" changedConfig then
    Some (Errorf "the block.filesystem property cannot be changed")
  else if StringInSlice "size" changedConfig then
    Some (Errorf "the size property cannot be changed")
  else None.

Definition ContainerStorageReady (s : storageZfs) (name : string) : Prog bool :=
  let poolName := getOnDiskPoolName s in
  let fs := poolName +:+ "/containers/" +:+ name in
  call (zfsFilesystemEntityExists fs false).

Definition ContainerSnapshotStart (s : storageZfs) (c : container) : Prog (bool * goerr) :=
  let '(cName, sName, _) := containerGetParentAndSnapshotName (Name c) in
  let sourceFs := "containers/" +:+ cName in
  let sourceSnap := "snapshot-" +:+ sName in
  let destFs := "snapshots/" +:+ cName +:+ "/" +:+ sName in
  let snapshotMntPoint := getSnapshotMountPoint (pool_Name s) (Name c) in
  err <- call (zfsPoolVolumeClone sourceFs sourceSnap destFs snapshotMntPoint) ;;
  match err with
  | Some e => Ret (false, Some e)
  | None =>
      err <- call (zfsPoolVolumeMount destFs) ;;
      match err with
      | Some e => Ret (false, Some e)
      | None => Ret (true, None)
      end
  end.

Definition ContainerSnapshotStop (s : storageZfs) (c : container) : Prog (bool * goerr) :=
  let '(cName, sName, _) := containerGetParentAndSnapshotName (Name c) in
  let destFs := "snapshots/" +:+ cName +:+ "/" +:+ sName in
  err <- call (zfsPoolVolumeDestroy destFs) ;;
  match err with
  | Some e => Ret (false, Some e)
  | None => Ret (true, None)
  end.

(** ** Observing the coordinator *)

(** What a call has to do with the mutex [lxdStorageMapLock]: it takes it,
    releases it, works on what the mutex guards (the operation map and its
    channels), or is anything else. *)
Inductive MutexUse : Type := Locks | Unlocks | Guarded | Unguarded.

Definition mutex_use {X : Type} (c : Call X) : MutexUse :=
  match c with
  | MapLock_Lock => Locks
  | MapLock_Unlock => Unlocks
  | OngoingOperationMap_get _ | OngoingOperationMap_set _ _
  | OngoingOperationMap_delete _ | make_chan | chan_close _ => Guarded
  | _ => Unguarded
  end.

(** The calls of a run respect the mutex, starting with it [held] or not:
    it is taken only when free and released only when held, the guarded
    calls are made while it is held, every other call while it is not, and
    it is free at the end. *)
Fixpoint mutex_discipline (held : bool) (t : list Event) : bool :=
  match t with
  | [] => negb held
  | Ev c _ :: rest =>
      match mutex_use c with
      | Locks => negb held && mutex_discipline true rest
      | Unlocks => held && mutex_discipline false rest
      | Guarded => held && mutex_discipline held rest
      | Unguarded => negb held && mutex_discipline held rest
      end
  end.

(** The operations on the map of ongoing operations and on its channels. *)
Inductive MapEvent : Type :=
| MapGet (key : string) (found : option chan)
| MapSet (key : string) (ch : chan)
| MapDelete (key : string)
| ChanMake (ch : chan)
| ChanClose (ch : chan)
| ChanRecv (ch : chan).

Definition map_event (e : Event) : option MapEvent :=
  match e with
  | Ev c x =>
      match c in Call X return X -> option MapEvent with
      | OngoingOperationMap_get k => fun r => Some (MapGet k r)
      | OngoingOperationMap_set k ch => fun _ => Some (MapSet k ch)
      | OngoingOperationMap_delete k => fun _ => Some (MapDelete k)
      | make_chan => fun r => Some (ChanMake r)
      | chan_close ch => fun _ => Some (ChanClose ch)
      | chan_recv ch => fun _ => Some (ChanRecv ch)
      | _ => fun _ => None
      end x
  end.

Definition map_events (t : list Event) : list MapEvent := omap map_event t.

(** What [removeLockFromMap] does to the map when its lookup finds
    [found]. *)
Definition release_events (key : string) (found : option chan) : list MapEvent :=
  MapGet key found ::
  match found with
  | Some waitChannel => [ChanClose waitChannel; MapDelete key]
  | None => []
  end.

(** The map operations of one call of a mount or unmount entry point on
    [key]: a waiter's, or an owner's. *)
Definition mount_protocol (key : string) (evs : list MapEvent) : Prop :=
  (exists waitChannel, evs = [MapGet key (Some waitChannel); ChanRecv waitChannel]) \/
  (exists ch found,
     evs = [MapGet key None; ChanMake ch; MapSet key ch] ++ release_events key found).

(** The answers of [zfsPoolVolumeSnapshotRemovable]. *)
Definition removable_answers (t : list Event) : list (bool * goerr) :=
  omap (fun e => match e with
                 | Ev c x =>
                     match c in Call X return X -> option (bool * goerr) with
                     | zfsPoolVolumeSnapshotRemovable _ _ => fun r => Some r
                     | _ => fun _ => None
                     end x
                 end) t.

(** The keys [StoragePoolVolumeUpdate] refuses to change. *)
Definition volume_rejected_keys : list string :=
  ["block.mount_options"; "block.filesystem"; "size"].

(** The calls the observations [zfs_ops], [uuid_answers] and
    [removable_answers] look at. *)
Definition is_pool_call (X : Type) (c : Call X) : bool :=
  match c with
  | zfsPoolVolumeCreate _ _ | zfsPoolVolumeClone _ _ _ _ | zfsPoolVolumeDestroy _
  | zfsPoolVolumeCleanup _ | zfsPoolVolumeSet _ _ _ | zfsPoolVolumeRename _ _
  | zfsPoolVolumeMount _ | zfsPoolVolumeUmount _ _ | zfsPoolVolumeSnapshotCreate _ _
  | zfsPoolVolumeSnapshotDestroy _ _ | zfsPoolVolumeSnapshotRestore _ _
  | zfsPoolVolumeSnapshotRename _ _ _ | zfsPoolVolumeSnapshotRemovable _ _
  | uuid_NewRandom => true
  | _ => false
  end.

(** The properties asked of [zfsFilesystemEntityPropertyGet]. *)
Definition property_queries (t : list Event) : list (string * string) :=
  omap (fun e => match e with
                 | Ev c _ =>
                     match c with
                     | zfsFilesystemEntityPropertyGet path key _ => Some (path, key)
                     | _ => None
                     end
                 end) t.

(** The program ends in a [return], whatever its calls answer: no path
    leads to a panic. *)
Fixpoint returns {A : Type} (p : Prog A) : Prop :=
  match p with
  | Ret _ => True
  | Panic _ => False
  | Vis c k => forall x, returns (k x)
  end.

(** Some dataset command of the run was answered with an error. *)
Definition some_command_failed (t : list Event) : bool :=
  existsb (fun o => is_err (snd o)) (zfs_ops t).

(** A run that got an empty list from [Snapshots()] ended in the panic of
    an index out of range. *)
Definition panics_on_empty (W : Type) (r : Result W goerr) : Prop :=
  snapshots_answers (trace r) = [([], None)] ->
  outcome r = Panicked "index out of range".

(** ** Migration source (lines 1769-1944) *)

(** [zfsMigrationSourceDriver], without its back pointer to the driver. *)
Record zfsMigrationSourceDriver : Type := {
  drv_container : container;
  drv_snapshots : list container;
  drv_zfsSnapshotNames : list string;
  drv_runningSnapName : string;
  drv_stoppedSnapName : string
}.

Definition set_runningSnapName (d : zfsMigrationSourceDriver) (name : string)
  : zfsMigrationSourceDriver :=
  {| drv_container := drv_container d; drv_snapshots := drv_snapshots d;
     drv_zfsSnapshotNames := drv_zfsSnapshotNames d;
     drv_runningSnapName := name; drv_stoppedSnapName := drv_stoppedSnapName d |}.

Definition set_stoppedSnapName (d : zfsMigrationSourceDriver) (name : string)
  : zfsMigrationSourceDriver :=
  {| drv_container := drv_container d; drv_snapshots := drv_snapshots d;
     drv_zfsSnapshotNames := drv_zfsSnapshotNames d;
     drv_runningSnapName := drv_runningSnapName d; drv_stoppedSnapName := name |}.

(** The loop of [MigrationSource] over the listed snapshots. *)
Fixpoint MigrationSource_loop (ct : container) (snapshots : list string)
    (driver : zfsMigrationSourceDriver)
  : Prog (option zfsMigrationSourceDriver * goerr) :=
  match snapshots with
  | [] => Ret (Some driver, None)
  | snap :: rest =>
      if negb (HasPrefix snap "snapshot-") then MigrationSource_loop ct rest driver
      else
        let lxdName := Name ct +:+ SnapshotDelimiter +:+ string_from 9 snap in
        r <- call (containerLoadByName lxdName) ;;
        match snd r with
        | Some e => Ret (None, Some e)
        | None =>
            MigrationSource_loop ct rest
              {| drv_container := drv_container driver;
                 drv_snapshots := drv_snapshots driver ++ [fst r];
                 drv_zfsSnapshotNames := drv_zfsSnapshotNames driver ++ [snap];
                 drv_runningSnapName := drv_runningSnapName driver;
                 drv_stoppedSnapName := drv_stoppedSnapName driver |}
        end
  end.

Definition MigrationSource (s : storageZfs) (ct : container) (containerOnly : bool)
  : Prog (option zfsMigrationSourceDriver * goerr) :=
  let driver := {| drv_container := ct; drv_snapshots := []; drv_zfsSnapshotNames := [];
                   drv_runningSnapName := ""; drv_stoppedSnapName := "" |} in
  (* If the container is a snapshot, let's just send that *)
  if IsSnapshot ct then Ret (Some driver, None)
  else if containerOnly then Ret (Some driver, None)
  else
    r <- call (zfsPoolListSnapshots ("containers/" +:+ Name ct)) ;;
    match snd r with
    | Some e => Ret (None, Some e)
    | None => MigrationSource_loop ct (fst r) driver
    end.

(** The [zfs send] command of [send]. *)
Definition send_cmd (s : storageZfs) (d : zfsMigrationSourceDriver)
    (zfsName zfsParent : string) : Cmd :=
  let sourceParentName :=
    fst (fst (containerGetParentAndSnapshotName (Name (drv_container d)))) in
  let poolName := getOnDiskPoolName s in
  let args := ["send"; poolName +:+ "/containers/" +:+ sourceParentName +:+ "@" +:+ zfsName] in
  let args :=
    if negb (String.eqb zfsParent "")
    then args ++ ["-i"; poolName +:+ "/containers/" +:+ Name (drv_container d)
                          +:+ "@" +:+ zfsParent]
    else args in
  "zfs" :: args.

Definition send (s : storageZfs) (d : zfsMigrationSourceDriver)
    (zfsName zfsParent : string) : Prog goerr :=
  let cmd := send_cmd s d zfsName zfsParent in
  try! call (cmd_StdoutPipe cmd) ;;
  try! call (cmd_StderrPipe cmd) ;;
  try! call (cmd_Start cmd) ;;
  call (WebsocketSendStream cmd) ;;
  call (ReadAll_stderr cmd) ;;
  err <- call (cmd_Wait cmd) ;;
  Ret err.

(** The loop of [SendWhileRunning] over [zfsSnapshotNames], entered with the
    snapshot sent before: its result is [lastSnap]. *)
Fixpoint SendWhileRunning_loop (s : storageZfs) (d : zfsMigrationSourceDriver)
    (prev : string) (names : list string) : Prog (string * goerr) :=
  match names with
  | [] => Ret (prev, None)
  | snap :: rest =>
      err <- send s d snap prev ;;
      match err with
      | Some e => Ret (snap, Some e)
      | None => SendWhileRunning_loop s d snap rest
      end
  end.

(** [SendWhileRunning]; the driver it returns carries the
    [runningSnapName] the method has stored. *)
Definition SendWhileRunning (s : storageZfs) (d : zfsMigrationSourceDriver)
    (containerOnly : bool) : Prog (zfsMigrationSourceDriver * goerr) :=
  if IsSnapshot (drv_container d) then
    let '(_, snapOnlyName, _) := containerGetParentAndSnapshotName (Name (drv_container d)) in
    let snapshotName := "snapshot-" +:+ snapOnlyName in
    err <- send s d snapshotName "" ;;
    Ret (d, err)
  else
    r <- (if negb containerOnly
          then SendWhileRunning_loop s d "" (drv_zfsSnapshotNames d)
          else Ret ("", None)) ;;
    match snd r with
    | Some e => Ret (d, Some e)
    | None =>
        let lastSnap := fst r in
        u <- call uuid_NewRandom ;;
        let d := set_runningSnapName d ("migration-send-" +:+ u) in
        err <- call (zfsPoolVolumeSnapshotCreate
                       ("containers/" +:+ Name (drv_container d)) (drv_runningSnapName d)) ;;
        match err with
        | Some e => Ret (d, Some e)
        | None =>
            err <- send s d (drv_runningSnapName d) lastSnap ;;
            match err with
            | Some e => Ret (d, Some e)
            | None => Ret (d, None)
            end
        end
    end.

Definition SendAfterCheckpoint (s : storageZfs) (d : zfsMigrationSourceDriver)
  : Prog (zfsMigrationSourceDriver * goerr) :=
  u <- call uuid_NewRandom ;;
  let d := set_stoppedSnapName d ("migration-send-" +:+ u) in
  err <- call (zfsPoolVolumeSnapshotCreate
                 ("containers/" +:+ Name (drv_container d)) (drv_stoppedSnapName d)) ;;
  match err with
  | Some e => Ret (d, Some e)
  | None =>
      err <- send s d (drv_stoppedSnapName d) (drv_runningSnapName d) ;;
      match err with
      | Some e => Ret (d, Some e)
      | None => Ret (d, None)
      end
  end.

Definition Cleanup (s : storageZfs) (d : zfsMigrationSourceDriver) : Prog unit :=
  (if negb (String.eqb (drv_stoppedSnapName d) "")
   then call (zfsPoolVolumeSnapshotDestroy ("containers/" +:+ Name (drv_container d))
                (drv_stoppedSnapName d)) ;; Ret tt
   else Ret tt) ;;
  (if negb (String.eqb (drv_runningSnapName d) "")
   then call (zfsPoolVolumeSnapshotDestroy ("containers/" +:+ Name (drv_container d))
                (drv_runningSnapName d)) ;; Ret tt
   else Ret tt).

(** The containers asked of [containerLoadByName], with the answers. *)
Definition load_calls (t : list Event) : list (string * (container * goerr)) :=
  omap (fun e => match e with
                 | Ev c x =>
                     match c in Call X return X -> option (string * (container * goerr)) with
                     | containerLoadByName name => fun r => Some (name, r)
                     | _ => fun _ => None
                     end x
                 end) t.

(** The commands a run started ([cmd.Start()]), with the answers. *)
Definition started_cmds (t : list Event) : list (Cmd * goerr) :=
  omap (fun e => match e with
                 | Ev c x =>
                     match c in Call X return X -> option (Cmd * goerr) with
                     | cmd_Start cmd => fun r => Some (cmd, r)
                     | _ => fun _ => None
                     end x
                 end) t.

(** The sends of the snapshots [names], oldest first, each an increment on
    the one before it ([prev] for the first). *)
Fixpoint incremental_sends (s : storageZfs) (d : zfsMigrationSourceDriver)
    (prev : string) (names : list string) : list Cmd :=
  match names with
  | [] => []
  | snap :: rest => send_cmd s d snap prev :: incremental_sends s d snap rest
  end.

(** The snapshots a run created ([zfsPoolVolumeSnapshotCreate]), by dataset
    and name. *)
Definition created_snapshots (t : list Event) : list (string * string) :=
  omap (fun e => match e with
                 | Ev c x =>
                     match c in Call X return X -> option (string * string) with
                     | zfsPoolVolumeSnapshotCreate p n => fun _ => Some (p, n)
                     | _ => fun _ => None
                     end x
                 end) t.

(** The container name [MigrationSource] loads for a listed snapshot. *)
Definition snapshot_lxd_name (ct : container) (snap : string) : string :=
  Name ct +:+ SnapshotDelimiter +:+ string_from 9 snap.

(** What [Cleanup] destroys: the stopped and the running snapshot, each when
    its name is set. *)
Definition cleanup_targets (d : zfsMigrationSourceDriver) : list (string * string) :=
  (if negb (String.eqb (drv_stoppedSnapName d) "")
   then [("containers/" +:+ Name (drv_container d), drv_stoppedSnapName d)] else []) ++
  (if negb (String.eqb (drv_runningSnapName d) "")
   then [("containers/" +:+ Name (drv_container d), drv_runningSnapName d)] else []).

(** The source driver [MigrationSource] makes for [c1] with the snapshots
    [s1], [s2] and [s3]. *)
Definition driver_c1_snaps : zfsMigrationSourceDriver :=
  {| drv_container := a_container "pool1" "c1";
     drv_snapshots := [a_snapshot "pool1" "c1" "s1"; a_snapshot "pool1" "c1" "s2";
                       a_snapshot "pool1" "c1" "s3"];
     drv_zfsSnapshotNames := ["snapshot-s1"; "snapshot-s2"; "snapshot-s3"];
     drv_runningSnapName := ""; drv_stoppedSnapName := "" |}.

(** ** Renaming a snapshot (lines 1463-1525) *)

(** [ContainerSnapshotRename]; its revert path calls
    [ContainerSnapshotRename] again, with the snapshot record it was given
    and that record's name, so the recursion is bounded by [fuel] as for
    [ContainerRename]. *)
Fixpoint ContainerSnapshotRename (fuel : nat) (s : storageZfs)
    (snapshotContainer : container) (newName : string) : Prog goerr :=
  match fuel with
  | O => Panic "out of fuel"
  | S fuel' =>
      let oldName := Name snapshotContainer in
      let '(oldcName, oldSnapOnlyName, _) :=
        containerGetParentAndSnapshotName (Name snapshotContainer) in
      let oldZfsDatasetName := "snapshot-" +:+ oldSnapOnlyName in
      let '(_, newSnapOnlyName, _) := containerGetParentAndSnapshotName newName in
      let newZfsDatasetName := "snapshot-" +:+ newSnapOnlyName in
      try! (if negb (String.eqb oldZfsDatasetName newZfsDatasetName)
            then call (zfsPoolVolumeSnapshotRename ("containers/" +:+ oldcName)
                         oldZfsDatasetName newZfsDatasetName)
            else Ret None) ;;
      with_revert (ContainerSnapshotRename fuel' s snapshotContainer oldName) (
        let oldStyleSnapshotMntPoint :=
          VarPath ["snapshots/" +:+ oldcName +:+ "/" +:+ oldSnapOnlyName +:+ ".zfs"] in
        e1 <- call (PathExists oldStyleSnapshotMntPoint) ;;
        try! (if e1 then call (os_Remove oldStyleSnapshotMntPoint) else Ret None) ;;
        let oldSnapshotMntPoint := getSnapshotMountPoint (pool_Name s) oldName in
        e2 <- call (PathExists oldSnapshotMntPoint) ;;
        try! (if e2 then call (os_Remove oldSnapshotMntPoint) else Ret None) ;;
        let newSnapshotMntPoint := getSnapshotMountPoint (pool_Name s) newName in
        e3 <- call (PathExists newSnapshotMntPoint) ;;
        try! (if negb e3 then call (os_MkdirAll newSnapshotMntPoint 448) else Ret None) ;;
        let snapshotMntPointSymlinkTarget :=
          VarPath ["storage-pools"; pool_Name s; "snapshots"; oldcName] in
        let snapshotMntPointSymlink := VarPath ["snapshots"; oldcName] in
        e4 <- call (PathExists snapshotMntPointSymlink) ;;
        try! (if negb e4
              then call (os_Symlink snapshotMntPointSymlinkTarget snapshotMntPointSymlink)
              else Ret None) ;;
        Ret None)
  end.

(** The [zfs rename] of the snapshot that [ContainerSnapshotRename] is to
    issue for the record [c] and the name [newName]: none when the snapshot
    part of the two names is the same. *)
Definition snapshot_rename_op (c : container) (newName : string) : option ZfsOp :=
  let '(oldcName, oldSnapOnlyName, _) := containerGetParentAndSnapshotName (Name c) in
  let '(_, newSnapOnlyName, _) := containerGetParentAndSnapshotName newName in
  if String.eqb ("snapshot-" +:+ oldSnapOnlyName) ("snapshot-" +:+ newSnapOnlyName)
  then None
  else Some (OpSnapshotRename ("containers/" +:+ oldcName)
               ("snapshot-" +:+ oldSnapOnlyName) ("snapshot-" +:+ newSnapOnlyName)).

(** A host where the path [p] exists and cannot be removed (a mount point
    in use: [EBUSY]); everything else is as in the model. *)
Definition busy_path_handler (s : storageZfs) (p : string) : Handler World :=
  fun X c w =>
    match c in Call X0 return X0 * World with
    | PathExists q =>
        if String.eqb q p then (true, w) else world_handler s (PathExists q) w
    | os_Remove q =>
        if String.eqb q p then (Some EBUSY, w) else world_handler s (os_Remove q) w
    | c' => world_handler s c' w
    end.

(** The [zfs rename] commands of datasets in a run, as (source, dest). *)
Definition dataset_renames (t : list Event) : list (string * string) :=
  omap (fun e => match e with
                 | Ev c _ =>
                     match c with
                     | zfsPoolVolumeRename a b => Some (a, b)
                     | _ => None
                     end
                 end) t.

Definition is_dataset_rename (X : Type) (c : Call X) : bool :=
  match c with
  | zfsPoolVolumeRename _ _ => true
  | _ => false
  end.

(** A [zfs rename] of a dataset other than [fs] onto itself. *)
Definition is_other_rename (fs : string) (X : Type) (c : Call X) : bool :=
  match c with
  | zfsPoolVolumeRename a b => negb (String.eqb a fs && String.eqb b fs)
  | _ => false
  end.

(** *** What keeps the callers of [ContainerMount] going

    The part of the protocol that decides whether a caller can move: the
    mutex, the operation map and the channels. *)

(** The channel the caller is to receive from. *)
Definition waits_on (pc : MountPc) : option chan :=
  match pc with
  | WaitUnlock ch | WaitRecv ch => Some ch
  | _ => None
  end.

(** The caller has closed its channel and not yet deleted the entry. *)
Definition has_closed (pc : MountPc) : option chan :=
  match pc with
  | RelDelete _ ch => Some ch
  | _ => None
  end.

(** The caller has returned. *)
Definition is_done (pc : MountPc) : bool :=
  match pc with
  | WaitDone | OwnerDone _ => true
  | _ => false
  end.

(** The calls a caller at the program point has left, at most. *)
Definition steps_left (pc : MountPc) : nat :=
  match pc with
  | AtLock => 14
  | AtLookup => 13
  | AtMakeChan => 12
  | AtSet _ => 11
  | AtUnlock _ => 10
  | AtPathExists _ => 9
  | AtCreate _ => 8
  | AtIsMountPoint _ => 7
  | AtMount _ => 6
  | RelLock _ _ => 5
  | RelLookup _ _ => 4
  | RelClose _ _ => 3
  | RelDelete _ _ => 2
  | RelUnlock _ => 1
  | OwnerDone _ => 0
  | WaitUnlock _ => 2
  | WaitRecv _ => 1
  | WaitDone => 0
  end.

Section MountLiveness.
Variables (s : storageZfs) (c : container).

(** One caller against the world: a waiter's channel is closed, or it is
    still the entry of the key. *)
Definition caller_live (w : World) (pc : MountPc) : Prop :=
  (holds_mutex pc = true -> lock_held w = true) /\
  (forall ch, registered pc = Some ch -> opmap w !! mount_lock_id s c = Some ch) /\
  (before_set pc = true -> opmap w !! mount_lock_id s c = None) /\
  (forall ch, has_closed pc = Some ch -> ch ∈ closed w) /\
  (forall ch, waits_on pc = Some ch ->
              ch ∈ closed w \/ opmap w !! mount_lock_id s c = Some ch).

(** Two different callers: one of them at most holds the mutex, one at
    most has its channel in the map. *)
Definition live_apart (pc1 pc2 : MountPc) : Prop :=
  (holds_mutex pc1 = true -> holds_mutex pc2 = true -> False) /\
  (registered pc1 <> None -> registered pc2 <> None -> False).

(** The mutex is held by a caller, and the entry of the key is the channel
    of a caller. *)
Definition live_invariant (w : World) (pcs : list MountPc) : Prop :=
  (forall i pc, pcs !! i = Some pc -> caller_live w pc) /\
  (forall i j pc1 pc2, i <> j -> pcs !! i = Some pc1 -> pcs !! j = Some pc2 ->
                       live_apart pc1 pc2) /\
  (lock_held w = true -> exists i pc, pcs !! i = Some pc /\ holds_mutex pc = true) /\
  (forall ch, opmap w !! mount_lock_id s c = Some ch ->
              exists i pc, pcs !! i = Some pc /\ registered pc = Some ch).

End MountLiveness.

(** Some thread of the pool can take its next call. *)
Definition can_move {A : Type} (h : Handler World) (st : Pool A) : Prop :=
  exists i st', sched_step h i st = Some st'.

(** * Properties of the driver *)

(** ** Pool update *)

Lemma StringInSlice_In (key : string) (l : list string) :
  StringInSlice key l = true <-> In key l.
Proof.
  unfold StringInSlice. rewrite existsb_exists. split.
  - intros (x & Hin & Heq). apply String.eqb_eq in Heq. now subst.
  - intros Hin. exists key. split; [assumption | apply String.eqb_refl].
Qed.

Lemma StringInSlice_false (key : string) (l : list string) :
  StringInSlice key l = false <-> ~ In key l.
Proof.
  rewrite <- StringInSlice_In. destruct (StringInSlice key l); intuition congruence.
Qed.

Lemma StoragePoolUpdate_ok_iff (changedConfig : list string) :
  StoragePoolUpdate changedConfig = None <->
  forall k, In k rejected_keys -> ~ In k changedConfig.
Proof.
  unfold StoragePoolUpdate, rejected_keys. split.
  - intros H k Hk.
    repeat match type of H with
           | (if ?b then _ else _) = None =>
               let E := fresh "E" in destruct b eqn:E; [discriminate H |]
           end.
    simpl in Hk.
    repeat (destruct Hk as [<- | Hk]; [now apply StringInSlice_false |]).
    destruct Hk.
  - intros H.
    repeat match goal with
           | |- (if StringInSlice ?k ?l then _ else _) = None =>
               let E := fresh "E" in
               destruct (StringInSlice k l) eqn:E;
               [ exfalso; apply StringInSlice_In in E; revert E; apply H; simpl; tauto |]
           end.
    reflexivity.
Qed.

(** C9, as amended: [StoragePoolUpdate] returns an error whenever the
    changed-config list holds [size], [source], [zfs.pool_name],
    [volume.size], [volume.block.mount_options] or
    [volume.block.filesystem] (or one of the two [lvm.*] keys), succeeds
    on every list that holds none of them, and so when the only change is
    [rsync.bwlimit] or a [volume.zfs.*] option. *)
Theorem StoragePoolUpdate_rejects_listed_keys (changedConfig : list string) :
  (forall k, In k rejected_keys -> In k changedConfig ->
             exists msg, StoragePoolUpdate changedConfig = Some (Errorf msg)) /\
  ((forall k, In k changedConfig -> ~ In k rejected_keys) ->
   StoragePoolUpdate changedConfig = None) /\
  StoragePoolUpdate ["rsync.bwlimit"] = None.
Proof.
  split; [| split].
  - intros k Hk Hin.
    destruct (StoragePoolUpdate changedConfig) as [e |] eqn:E.
    + revert E. unfold StoragePoolUpdate.
      repeat match goal with
             | |- (if ?b then _ else _) = _ -> _ =>
                 destruct b; [intros [= <-]; eexists; reflexivity |]
             end.
      discriminate.
    + exfalso. exact (proj1 (StoragePoolUpdate_ok_iff changedConfig) E k Hk Hin).
  - intros H. apply StoragePoolUpdate_ok_iff. intros k Hk Hin. exact (H k Hin Hk).
  - reflexivity.
Qed.

Lemma StoragePoolUpdate_rejects_listed_keys_witness :
  (exists msg, StoragePoolUpdate ["rsync.bwlimit"; "volume.size"] = Some (Errorf msg)) /\
  StoragePoolUpdate ["rsync.bwlimit"; "volume.zfs.remove_snapshots"] = None.
Proof.
  pose proof (StoragePoolUpdate_rejects_listed_keys ["rsync.bwlimit"; "volume.size"])
    as (H1 & _ & _).
  pose proof (StoragePoolUpdate_rejects_listed_keys
                ["rsync.bwlimit"; "volume.zfs.remove_snapshots"]) as (_ & H2 & _).
  split.
  - apply (H1 "volume.size"); simpl; tauto.
  - apply H2. intros k [<- | [<- | []]]; simpl; intuition discriminate.
Defined.

(** C9, as stated, fails: [volume.zfs.use_refquota] has the shape
    [volume.*], and a change of it alone is accepted. *)
Lemma StoragePoolUpdate_accepts_volume_zfs_option :
  volume_shaped "volume.zfs.use_refquota" = true /\
  In "volume.zfs.use_refquota" ["volume.zfs.use_refquota"] /\
  StoragePoolUpdate ["volume.zfs.use_refquota"] = None.
Proof. repeat split; simpl; auto. Qed.

(** ** Symbolic execution of a run *)

(** Name the next answer of the handler [h]: the innermost call whose
    world is not itself an answer. *)
Ltac answer h :=
  match goal with
  | |- context [h ?X ?c ?w] =>
      lazymatch w with context [h _ _ _] => fail | _ => idtac end;
      let x := fresh "x" in
      let w' := fresh "w" in
      destruct (h X c w) as [x w'] eqn:?; cbn [fst snd] in *
  end.

(** Split the answer the program branches on. *)
Ltac branch :=
  match goal with
  | x : option _ |- _ => destruct x
  | x : bool |- _ => destruct x
  | x : (_ * _)%type |- _ => destruct x
  end.

Ltac decide_test :=
  match goal with
  | |- context [bool_decide ?P] => destruct (bool_decide_reflect P)
  end.

Ltac symex h := repeat (first [answer h | decide_test]; repeat branch; cbn in * ).

(** ** Mount busy *)

(** C3: what the code does when the mount attempt fails with [EBUSY]: the
    call returns [ourMount = false] together with the error [EBUSY], not
    with [nil]. *)
Theorem ContainerMount_returns_EBUSY (W : Type) (h : Handler W) (s : storageZfs)
    (c : container) (g : Globals) (w : W) :
  In (Some EBUSY) (mount_answers (trace (run h (ContainerMount s c) g w))) ->
  outcome (run h (ContainerMount s c) g w) = Done (false, Some EBUSY).
Proof.
  unfold ContainerMount. cbn. symex h.
  all: try (intros []; fail).
  all: intros [Heq | []]; try discriminate Heq; injection Heq as ->; reflexivity.
Qed.

Lemma ContainerMount_returns_EBUSY_witness :
  mount_answers (trace (run (world_handler pool1)
                          (ContainerMount pool1 (a_container "pool1" "c1"))
                          initial_globals world_c1_busy)) = [Some EBUSY] /\
  outcome (run (world_handler pool1) (ContainerMount pool1 (a_container "pool1" "c1"))
             initial_globals world_c1_busy) = Done (false, Some EBUSY).
Proof.
  split; [vm_compute; reflexivity |].
  apply ContainerMount_returns_EBUSY. vm_compute. left. reflexivity.
Defined.

(** ** Copy across pools *)

(** C8: when the pools of source and target differ, [ContainerCopy]
    returns an error -- the explicit "not implemented" one whenever the
    source's storage started -- and the only calls it makes are the start
    and stop of the source's storage: no dataset command, no subprocess,
    no mount point is touched. *)
Theorem ContainerCopy_cross_pool_is_an_error (W : Type) (h : Handler W)
    (s : storageZfs) (target source : container) (containerOnly : bool)
    (g : Globals) (w : W) :
  StoragePool source <> StoragePool target ->
  (exists e, outcome (run h (ContainerCopy s target source containerOnly) g w)
             = Done (Some e)) /\
  (snd (fst (h _ (StorageStart source) w)) = None ->
   outcome (run h (ContainerCopy s target source containerOnly) g w)
   = Done (Some (Errorf "copying containers between different storage pools is not implemented"))) /\
  forallb (is_storage_start_stop source)
          (trace (run h (ContainerCopy s target source containerOnly) g w)) = true /\
  zfs_ops (trace (run h (ContainerCopy s target source containerOnly) g w)) = [].
Proof.
  intros Hne. apply String.eqb_neq in Hne.
  unfold ContainerCopy. cbv zeta. rewrite Hne. cbn.
  symex h; rewrite ?String.eqb_refl; repeat split; eauto; discriminate.
Qed.

Lemma ContainerCopy_cross_pool_is_an_error_witness :
  outcome (run (world_handler pool1)
             (ContainerCopy pool1 (a_container "pool2" "c2") (a_container "pool1" "c1")
                false)
             initial_globals world_c1)
  = Done (Some (Errorf "copying containers between different storage pools is not implemented")).
Proof.
  destruct (@ContainerCopy_cross_pool_is_an_error _ (world_handler pool1) pool1
              (a_container "pool2" "c2") (a_container "pool1" "c1") false
              initial_globals world_c1) as (_ & Herr & _).
  - discriminate.
  - apply Herr. reflexivity.
Defined.

(** ** Compositional execution *)

Lemma run_bind (W A B : Type) (h : Handler W) (p : Prog A) (f : A -> Prog B)
    (g : Globals) (w : W) :
  run h (bind p f) g w = and_then (run h p g w) (fun a g' w' => run h (f a) g' w').
Proof.
  revert g w. induction p as [a | X c k IH | msg]; intros g w; cbn.
  - unfold and_then; cbn. destruct (run h (f a) g w); reflexivity.
  - destruct (step h c g w) as [[x g'] w']. rewrite IH.
    unfold and_then, add_event; cbn.
    destruct (outcome (run h (k x) g' w')); reflexivity.
  - reflexivity.
Qed.

Lemma run_query (W X A : Type) (h : Handler W) (c : Call X) (k : X -> Prog A)
    (g : Globals) (w : W) :
  queries_are_pure h -> is_query c = true ->
  run h (Vis c k) g w
  = add_event (Ev c (answer_in h w c)) (run h (k (answer_in h w c)) g w).
Proof.
  intros Hp Hq. unfold answer_in. pose proof (Hp X c w Hq) as Hw.
  destruct c; try discriminate Hq; cbn; rewrite Hw; reflexivity.
Qed.

Lemma and_then_Done (W A B : Type) (a : A) (g : Globals) (w : W) (t : list Event)
    (f : A -> Globals -> W -> Result W B) :
  and_then {| outcome := Done a; globals := g; world := w; trace := t |} f
  = prepend t (f a g w).
Proof. reflexivity. Qed.

Lemma omap_cons_eq {A B : Type} (f : A -> option B) (x : A) (l : list A) :
  omap f (x :: l) = match f x with Some y => y :: omap f l | None => omap f l end.
Proof. reflexivity. Qed.

Lemma world_handler_pure (s : storageZfs) : queries_are_pure (world_handler s).
Proof. intros X c w Hq. destruct c; try discriminate Hq; reflexivity. Qed.

(** ** Container delete *)

(** The loop over the snapshots: with every query answered, it ends with
    the conjunction of the answers, changes nothing and issues no dataset
    command. *)
Lemma ContainerDelete_removable_run (W : Type) (h : Handler W) (fs : string)
    (snaps : list string) (b : bool) (g : Globals) (w : W) :
  queries_are_pure h ->
  (forall snap, In snap snaps ->
     snd (answer_in h w (zfsPoolVolumeSnapshotRemovable fs snap)) = None) ->
  exists t,
    run h (ContainerDelete_removable fs snaps b) g w =
    {| outcome :=
         Done (match snaps with
               | [] => b
               | _ => forallb (fun snap =>
                                 fst (answer_in h w (zfsPoolVolumeSnapshotRemovable fs snap)))
                              snaps
               end, None);
       globals := g; world := w; trace := t |} /\
    zfs_ops t = [] /\ uuid_answers t = [].
Proof.
  intros Hp. revert b. induction snaps as [| snap rest IH]; intros b Herr.
  - exists []. cbn. auto.
  - cbn [ContainerDelete_removable bind call]. rewrite run_query by auto.
    pose proof (Herr snap (or_introl eq_refl)) as He.
    destruct (answer_in h w (zfsPoolVolumeSnapshotRemovable fs snap)) as [rm e] eqn:E.
    cbn in He. subst e. cbn [fst snd negb].
    destruct rm; cbn [negb].
    + destruct (IH true (fun s Hs => Herr s (or_intror Hs))) as (t & Hr & Hz & Hu).
      rewrite Hr. eexists. split; [| split].
      * unfold add_event; cbn. rewrite E. cbn. f_equal. destruct rest; reflexivity.
      * unfold zfs_ops in *. rewrite omap_cons_eq. exact Hz.
      * unfold uuid_answers in *. rewrite omap_cons_eq. exact Hu.
    + eexists. split; [| split].
      * unfold add_event; cbn. rewrite E. reflexivity.
      * reflexivity.
      * reflexivity.
Qed.

(** C1: for a container whose dataset [containers/<name>] exists (and
    whose dataset queries are answered), [ContainerDelete] looks at every
    snapshot.  When all are removable, the first dataset command it issues
    is the destroy of the dataset and, once that succeeded, the next is the
    cleanup of the clone origin read before; the dataset is neither
    re-pointed nor renamed.  When some snapshot is not removable, the first
    command sets [mountpoint=none] on the dataset and, once that succeeded,
    the next renames it to [deleted/containers/<uuid>]; the dataset is not
    destroyed. *)
Theorem ContainerDelete_destroys_or_tombstones (W : Type) (h : Handler W)
    (s : storageZfs) (c : container) (g : Globals) (w : W) (snaps : list string) :
  let fs := "containers/" +:+ Name c in
  let r := run h (ContainerDelete s c) g w in
  let removable snap := fst (answer_in h w (zfsPoolVolumeSnapshotRemovable fs snap)) in
  queries_are_pure h ->
  answer_in h w (zfsFilesystemEntityExists fs true) = true ->
  answer_in h w (zfsPoolListSnapshots fs) = (snaps, None) ->
  (forall snap, In snap snaps ->
     snd (answer_in h w (zfsPoolVolumeSnapshotRemovable fs snap)) = None) ->
  (forallb removable snaps = true ->
   forall origin,
     answer_in h w (zfsFilesystemEntityPropertyGet fs "origin" true) = (origin, None) ->
     exists rd rest,
       zfs_ops (trace r) = (OpDestroy fs, rd) :: rest /\
       (rd = None ->
        exists rc rest',
          rest = (OpCleanup (TrimPrefix origin (getOnDiskPoolName s +:+ "/")), rc)
                 :: rest') /\
       (forall k v x, ~ In (OpSet fs k v, x) (zfs_ops (trace r))) /\
       (forall dst x, ~ In (OpRename fs dst, x) (zfs_ops (trace r)))) /\
  (forallb removable snaps = false ->
   exists rs rest,
     zfs_ops (trace r) = (OpSet fs "mountpoint" "none", rs) :: rest /\
     (rs = None ->
      exists u rr rest',
        uuid_answers (trace r) = [u] /\
        rest = (OpRename fs ("deleted/containers/" +:+ u), rr) :: rest') /\
     (forall x, ~ In (OpDestroy fs, x) (zfs_ops (trace r)))).
Proof.
  intros fs r removable Hp Hex Hls Herr. subst r.
  unfold ContainerDelete. cbv zeta. fold fs.
  cbn [bind call]. rewrite run_query by auto. rewrite Hex.
  cbn [bind call]. rewrite run_query by auto. rewrite Hls.
  cbn [bind call fst snd]. rewrite !run_bind.
  destruct (@ContainerDelete_removable_run _ h fs snaps true g w Hp Herr)
    as (t & Hr & Hz & Hu).
  rewrite Hr. rewrite and_then_Done.
  assert (Hall : match snaps with
                 | [] => true
                 | _ => forallb removable snaps
                 end = forallb removable snaps)
    by (destruct snaps; reflexivity).
  fold removable. rewrite Hall. clear Hall. cbn [fst snd].
  destruct (forallb removable snaps); split; try discriminate; intros _.
  - intros origin Ho. cbn [bind call]. rewrite run_query by auto. rewrite Ho.
    cbn [bind call fst snd]. unfold and_then, add_event, prepend. cbn.
    unfold zfs_ops in Hz.
    symex h; rewrite ?omap_app, Hz; cbn.
    all: do 2 eexists; split; [reflexivity |].
    all: split; [intros Hd; try discriminate Hd; eauto |].
    all: split; intros; intros HIn; cbn in HIn; intuition discriminate.
  - cbn [bind call]. unfold and_then, add_event, prepend. cbn.
    unfold zfs_ops in Hz. unfold uuid_answers in *.
    symex h; rewrite ?omap_app, ?Hz, ?Hu; cbn.
    all: do 2 eexists; split; [reflexivity |].
    all: split; [intros Hd; try discriminate Hd; eauto |].
    all: intros; intros HIn; cbn in HIn; subst fs; intuition discriminate.
Qed.

Lemma ContainerDelete_destroys_or_tombstones_witness :
  (exists rest,
     zfs_ops (trace (run (world_handler pool1) (ContainerDelete pool1 (a_container "pool1" "c2"))
                       initial_globals world_c1_cloned))
     = (OpDestroy "containers/c2", None)
         :: (OpCleanup "containers/c1@snapshot-s1", None) :: rest) /\
  (exists rest,
     zfs_ops (trace (run (world_handler pool1) (ContainerDelete pool1 (a_container "pool1" "c1"))
                       initial_globals world_c1_cloned))
     = (OpSet "containers/c1" "mountpoint" "none", None)
         :: (OpRename "containers/c1" "deleted/containers/uuid0", None) :: rest).
Proof.
  split.
  - destruct (@ContainerDelete_destroys_or_tombstones _ (world_handler pool1) pool1
                (a_container "pool1" "c2") initial_globals world_c1_cloned []
                (world_handler_pure pool1))
      as [Hdestroy _].
    + vm_compute; reflexivity.
    + vm_compute; reflexivity.
    + intros snap [].
    + destruct (Hdestroy eq_refl "pool1/containers/c1@snapshot-s1")
        as (rd & rest & Hops & Hnext & _).
      * vm_compute; reflexivity.
      * assert (Hrd : rd = None).
        { revert Hops. vm_compute. intros [= <- _]. reflexivity. }
        destruct (Hnext Hrd) as (rc & rest' & ->). subst rd.
        assert (Hrc : rc = None).
        { revert Hops. vm_compute. intros [= <- _]. reflexivity. }
        subst rc. exists rest'. exact Hops.
  - destruct (@ContainerDelete_destroys_or_tombstones _ (world_handler pool1) pool1
                (a_container "pool1" "c1") initial_globals world_c1_cloned
                ["snapshot-s1"] (world_handler_pure pool1))
      as [_ Htomb].
    + vm_compute; reflexivity.
    + vm_compute; reflexivity.
    + intros snap [<- | []]. vm_compute; reflexivity.
    + destruct Htomb as (rs & rest & Hops & Hnext & _).
      * vm_compute; reflexivity.
      * assert (Hrs : rs = None).
        { revert Hops. vm_compute. intros [= <- _]. reflexivity. }
        destruct (Hnext Hrs) as (u & rr & rest' & Hu & ->). subst rs.
        assert (Huu : u = "uuid0").
        { revert Hu. vm_compute. intros [= <-]. reflexivity. }
        subst u.
        assert (Hrr : rr = None).
        { revert Hops. vm_compute. intros [= <- _]. reflexivity. }
        subst rr. exists rest'. exact Hops.
Defined.

(** ** Container restore *)

Lemma tail_lookup {A} (l : list A) j : tail l !! j = l !! S j.
Proof. destruct l; reflexivity. Qed.

Lemma firstn_S_snoc {A} (l : list A) j x :
  l !! j = Some x -> firstn (S j) l = firstn j l ++ [x].
Proof.
  revert j. induction l as [| a l IH]; intros [| j] H; try discriminate.
  - injection H as ->. reflexivity.
  - cbn in H. cbn [firstn]. rewrite (IH _ H). reflexivity.
Qed.

Lemma ContainerRestore_loop_acts (W : Type) (h : Handler W) (snaps : list container)
    (source : container) (i : nat) (g : Globals) (w : W) :
  i < length snaps ->
  let r := run h (ContainerRestore_loop snaps source i) g w in
  let newer := take_until source (rev (firstn i (tail snaps))) in
  globals r = g /\ snapshots_answers (trace r) = [] /\
  ((outcome r = Done None /\
    restore_acts (trace r) = map (fun c => ActDelete c None) newer) \/
   (exists k c e,
      newer !! k = Some c /\ outcome r = Done (Some e) /\
      restore_acts (trace r)
      = map (fun c => ActDelete c None) (firstn k newer) ++ [ActDelete c (Some e)])).
Proof.
  revert g w. induction i as [| j IH]; intros g w Hlt.
  - cbn. auto.
  - cbn [ContainerRestore_loop].
    destruct (snaps !! S j) as [snap |] eqn:Hs.
    2:{ apply lookup_ge_None in Hs. lia. }
    rewrite (@firstn_S_snoc _ (tail snaps) j snap) by (rewrite tail_lookup; exact Hs).
    rewrite rev_app_distr. cbn [rev app take_until].
    destruct (String.eqb (Name snap) (Name source)) eqn:Heq.
    + cbn. auto.
    + cbn [bind call]. cbn [run]. 
      destruct (step h (Delete snap) g w) as [[x g'] w'] eqn:Hstep.
      assert (g' = g) by (cbn in Hstep; congruence). subst g'.
      unfold add_event. cbn [outcome globals world trace].
      destruct x as [e |].
      * cbn. split; [reflexivity |]. split; [reflexivity |]. right.
        exists 0, snap, e. cbn. auto.
      * destruct (IH g w' ltac:(lia)) as (Hg & Hsn & Hacts).
        split; [exact Hg |]. split; [exact Hsn |].
        unfold restore_acts in *. cbn [omap list_omap restore_act].
        destruct Hacts as [(Ho & Ha) | (k & c & e & Hk & Ho & Ha)].
        -- left. split; [exact Ho |]. unfold restore_acts in Ha. 
           cbn. f_equal. exact Ha.
        -- right. exists (S k), c, e. cbn. split; [exact Hk |]. split; [exact Ho |].
           f_equal. exact Ha.
Qed.


(** From the answer of [Snapshots()] on: the loop and the rollback. *)
Lemma ContainerRestore_inner_run (W : Type) (h : Handler W) (snaps : list container)
    (source : container) (cN sN : string) (g : Globals) (w : W) :
  snaps <> [] ->
  let r := run h (try! (match snaps with
                        | [] => Panic "index out of range"
                        | _ => ContainerRestore_loop snaps source (length snaps - 1)
                        end) ;;
                  try! call (zfsPoolVolumeSnapshotRestore ("containers/" +:+ cN)
                               ("snapshot-" +:+ sN)) ;;
                  Ret None) g w in
  globals r = g /\ snapshots_answers (trace r) = [] /\
  ((exists rr,
      restore_acts (trace r)
      = map (fun c => ActDelete c None) (newer_than snaps source)
          ++ [ActRollback ("containers/" +:+ cN) ("snapshot-" +:+ sN) rr] /\
      outcome r = Done rr) \/
   (exists k c e,
      newer_than snaps source !! k = Some c /\
      restore_acts (trace r)
      = map (fun c => ActDelete c None) (firstn k (newer_than snaps source))
          ++ [ActDelete c (Some e)] /\
      outcome r = Done (Some e))).
Proof.
  intros Hne r. subst r.
  assert (Hloop := @ContainerRestore_loop_acts _ h snaps source (length snaps - 1) g w).
  destruct snaps as [| c0 l]; [congruence |].
  specialize (Hloop ltac:(cbn; lia)).
  rewrite run_bind.
  assert (Hnewer : take_until source (rev (firstn (length (c0 :: l) - 1) (tail (c0 :: l))))
                   = newer_than (c0 :: l) source).
  { unfold newer_than. replace (length (c0 :: l) - 1) with (length l) by (cbn; lia).
    cbn [tail]. rewrite firstn_all. reflexivity. }
  cbv zeta in Hloop. rewrite Hnewer in Hloop. clear Hnewer.
  destruct (run h (ContainerRestore_loop (c0 :: l) source (length (c0 :: l) - 1)) g w)
    as [o g' w' t].
  cbn [outcome globals world trace] in Hloop.
  destruct Hloop as (-> & Hsn & [(-> & Ha) | (k & c & e & Hk & -> & Ha)]).
  - unfold and_then. cbn [outcome globals world trace].
    cbn [run bind call]. destruct (step h _ g w') as [[rr g''] w''] eqn:Hstep.
    assert (g'' = g) by (cbn in Hstep; congruence). subst g''.
    unfold add_event. cbn [outcome globals world trace].
    assert (Htr : forall tl, restore_acts (t ++ Ev (zfsPoolVolumeSnapshotRestore ("containers/" +:+ cN) ("snapshot-" +:+ sN)) rr :: tl)
                  = map (fun c => ActDelete c None) (newer_than (c0 :: l) source)
                      ++ ActRollback ("containers/" +:+ cN) ("snapshot-" +:+ sN) rr :: restore_acts tl).
    { intros tl. unfold restore_acts in *. rewrite omap_app, Ha. reflexivity. }
    assert (Hsa : forall tl, snapshots_answers (t ++ Ev (zfsPoolVolumeSnapshotRestore ("containers/" +:+ cN) ("snapshot-" +:+ sN)) rr :: tl)
                  = snapshots_answers tl).
    { intros tl. unfold snapshots_answers in *. rewrite omap_app, Hsn. reflexivity. }
    destruct rr as [e |]; cbn [run outcome globals world trace]; rewrite Htr, Hsa.
    + split; [reflexivity |]. split; [reflexivity |]. left. eexists. split; reflexivity.
    + split; [reflexivity |]. split; [reflexivity |]. left. eexists. split; reflexivity.
  - unfold and_then. cbn [outcome globals world trace run].
    rewrite app_nil_r. split; [reflexivity |]. split; [exact Hsn |].
    right. exists k, c, e. auto.
Qed.


(** A deferred [StorageStop] adds one call after the body: it changes
    neither the result, nor the variables, nor the snapshot actions. *)
Lemma defer_StorageStop_run (W A : Type) (h : Handler W) (c : container)
    (body : Prog A) (g : Globals) (w : W) :
  let r := run h body g w in
  let r' := run h (defer (call (StorageStop c)) body) g w in
  snapshots_answers (trace r') = snapshots_answers (trace r) /\
  restore_acts (trace r') = restore_acts (trace r) /\
  globals r' = globals r /\
  outcome r' = outcome r.
Proof.
  intros r r'. subst r r'. unfold defer. rewrite run_bind.
  destruct (run h body g w) as [o g' w' t]. unfold and_then.
  cbn [outcome globals world trace].
  destruct o as [a | msg]; [| auto].
  cbn [bind call run]. destruct (step h (StorageStop c) g' w') as [[x g''] w''] eqn:Hs.
  assert (g'' = g') by (cbn in Hs; congruence). subst g''.
  unfold add_event. cbn [outcome globals world trace run].
  unfold snapshots_answers, restore_acts. rewrite !omap_app. cbn.
  rewrite !app_nil_r. auto.
Qed.



Lemma restore_spec_defer (W : Type) (h : Handler W) g0 source cN sN (b : bool)
    (c : container) (body : Prog goerr) (g : Globals) (w : W) :
  restore_spec g0 source cN sN (run h body g w) ->
  restore_spec g0 source cN sN (run h (defer_if b (call (StorageStop c)) body) g w).
Proof.
  destruct b; [| auto]. unfold defer_if, restore_spec.
  destruct (@defer_StorageStop_run _ _ h c body g w) as (-> & -> & -> & ->). auto.
Qed.

Lemma restore_spec_StorageStart (W : Type) (h : Handler W) g0 source cN sN
    (c : container) (k : bool * goerr -> Prog goerr) (g : Globals) (w : W) :
  (forall x w', restore_spec g0 source cN sN (run h (k x) g w')) ->
  restore_spec g0 source cN sN (run h (Vis (StorageStart c) k) g w).
Proof.
  intros Hk. cbn [run]. destruct (step h (StorageStart c) g w) as [[x g'] w'] eqn:Hs.
  assert (g' = g) by (cbn in Hs; congruence). subst g'.
  exact (Hk x w').
Qed.

Lemma ContainerRestore_run_spec (W : Type) (h : Handler W) (s : storageZfs)
    (target source : container) (g : Globals) (w : W) :
  restore_spec g source
    (fst (fst (containerGetParentAndSnapshotName (Name source))))
    (snd (fst (containerGetParentAndSnapshotName (Name source))))
    (run h (ContainerRestore s target source) g w).
Proof.
  unfold ContainerRestore.
  destruct (containerGetParentAndSnapshotName (Name source)) as [[cN sN] b] eqn:Hsplit.
  cbn [fst snd]. cbn [bind call].
  apply restore_spec_StorageStart. intros [b1 [e1 |]] w1; cbn [fst snd].
  { intros snaps Hsa. discriminate Hsa. }
  apply restore_spec_defer. cbn [bind call].
  apply restore_spec_StorageStart. intros [b2 [e2 |]] w2; cbn [fst snd].
  { intros snaps Hsa. discriminate Hsa. }
  apply restore_spec_defer. cbn [bind call]. cbn [run].
  destruct (step h (Snapshots target) g w2) as [[[l e3] g'] w3] eqn:Hs.
  assert (g' = g) by (cbn in Hs; congruence). subst g'.
  cbn [fst snd]. intros snaps Hsa Hne.
  destruct e3 as [e3 |]; [discriminate Hsa |].
  destruct (@ContainerRestore_inner_run _ h l source cN sN g w3) as (Hg & Hsn & Hacts).
  { intros ->. cbn in Hsa. congruence. }
  unfold add_event. cbn [outcome globals world trace].
  unfold snapshots_answers in Hsa. cbn [trace add_event] in Hsa.
  rewrite omap_cons_eq in Hsa. cbn in Hsa. unfold snapshots_answers in Hsn.
  unfold restore_acts at 1 2. rewrite !omap_cons_eq. cbn [restore_act].
  change (omap restore_act) with restore_acts.
  assert (l = snaps) by (cbn in Hsn; rewrite Hsn in Hsa; congruence). subst l.
  split; [exact Hg | exact Hacts].
Qed.

(** [ContainerCanRestore] asks the container for its snapshots and reads
    and writes [zfsRemoveSnapshots]; it makes no other call. *)
Lemma ContainerCanRestore_calls (W : Type) (h : Handler W) (s : storageZfs)
    (c source : container) (g : Globals) (w : W) :
  forallb is_var_or_snapshots (trace (run h (ContainerCanRestore s c source) g w)) = true /\
  var_zfsUseRefquota (globals (run h (ContainerCanRestore s c source) g w))
  = var_zfsUseRefquota g.
Proof.
  unfold ContainerCanRestore, when. cbn.
  destruct (h _ (Snapshots c) w) as [[l [e |]] w1]; cbn; [auto |].
  destruct (last l) as [latest |]; cbn; [| auto].
  destruct (String.eqb (Name latest) (Name source)); cbn; [auto |].
  destruct (String.eqb (cfg (pool_Config s) "volume.zfs.remove_snapshots") "");
    destruct (String.eqb (cfg (volume_Config s) "zfs.remove_snapshots") ""); cbn.
  all: match goal with
       | |- context [IsTrue ?v] => destruct (IsTrue v)
       end; cbn; auto.
Qed.

(** C10, as amended: once the target's [Snapshots()] answered with a list
    that is not empty, [ContainerRestore] deletes the snapshots newer than
    the source, from the newest down, stopping at the source and never
    looking at index 0, and only then issues the rollback (a failed delete
    ends the restore with that error and no rollback).  It touches no
    package-level variable and does not depend on the driver's config at
    all.  [ContainerCanRestore], which that config gates, issues no
    dataset or host command: it asks for the snapshots and reads and
    overwrites the variable [zfsRemoveSnapshots], leaving the other
    variable alone. *)
Theorem ContainerRestore_deletes_newer_before_rollback (W : Type) (h : Handler W)
    (s : storageZfs) (target source : container) (g : Globals) (w : W)
    (snaps : list container) :
  let r := run h (ContainerRestore s target source) g w in
  let cName := fst (fst (containerGetParentAndSnapshotName (Name source))) in
  let snapOnlyName := snd (fst (containerGetParentAndSnapshotName (Name source))) in
  (snapshots_answers (trace r) = [(snaps, None)] -> snaps <> [] ->
   globals r = g /\
   ((exists rr,
       restore_acts (trace r)
       = map (fun c => ActDelete c None) (newer_than snaps source)
           ++ [ActRollback ("containers/" +:+ cName) ("snapshot-" +:+ snapOnlyName) rr] /\
       outcome r = Done rr) \/
    (exists k c e,
       newer_than snaps source !! k = Some c /\
       restore_acts (trace r)
       = map (fun c => ActDelete c None) (firstn k (newer_than snaps source))
           ++ [ActDelete c (Some e)] /\
       outcome r = Done (Some e)))) /\
  (forall s', ContainerRestore s' target source = ContainerRestore s target source) /\
  (forall c src,
     forallb is_var_or_snapshots (trace (run h (ContainerCanRestore s c src) g w)) = true /\
     var_zfsUseRefquota (globals (run h (ContainerCanRestore s c src) g w))
     = var_zfsUseRefquota g).
Proof.
  intros r cName snapOnlyName. split; [| split].
  - exact (@ContainerRestore_run_spec _ h s target source g w snaps).
  - reflexivity.
  - intros c src. apply ContainerCanRestore_calls.
Qed.

Lemma ContainerRestore_deletes_newer_before_rollback_witness :
  restore_acts (trace (run (world_handler pool1)
                         (ContainerRestore pool1 (a_container "pool1" "c1")
                            (a_snapshot "pool1" "c1" "s1"))
                         initial_globals world_c1_snaps))
  = [ActDelete (a_snapshot "pool1" "c1" "s3") None;
     ActDelete (a_snapshot "pool1" "c1" "s2") None;
     ActRollback "containers/c1" "snapshot-s1" None].
Proof.
  destruct (@ContainerRestore_deletes_newer_before_rollback _ (world_handler pool1) pool1
              (a_container "pool1" "c1") (a_snapshot "pool1" "c1" "s1")
              initial_globals world_c1_snaps
              [a_snapshot "pool1" "c1" "s1"; a_snapshot "pool1" "c1" "s2";
               a_snapshot "pool1" "c1" "s3"]) as (Hrestore & _ & _).
  destruct Hrestore as (_ & [(rr & Hacts & Ho) | (k & c & e & _ & _ & Ho)]).
  - vm_compute; reflexivity.
  - discriminate.
  - assert (Hrr : rr = None) by (revert Ho; vm_compute; intros [= <-]; reflexivity).
    subst rr. rewrite Hacts. vm_compute. reflexivity.
  - exfalso. revert Ho. vm_compute. discriminate.
Defined.

(** C10, as stated, fails in its last clause: [ContainerCanRestore] does
    mutate state, the package-level variable [zfsRemoveSnapshots]. *)
Lemma ContainerCanRestore_overwrites_zfsRemoveSnapshots :
  var_zfsRemoveSnapshots initial_globals = "false" /\
  var_zfsRemoveSnapshots
    (globals (run (world_handler pool1_configured)
                (ContainerCanRestore pool1_configured (a_container "pool1" "c1")
                   (a_snapshot "pool1" "c1" "s1"))
                initial_globals world_c1_snaps)) = "true".
Proof. split; vm_compute; reflexivity. Qed.

(** ** The package-level variables *)

(** C4, as amended: the results of [ContainerSetQuota], [ContainerGetUsage]
    and [ContainerCanRestore] depend on the arguments, the config and the
    value the package-level variable holds when the call is made.  Two
    runs in the same world with the same arguments and config agree
    whenever the pool or the volume config sets the option (the variable
    is then overwritten before it is read) or the variable holds the same
    value in both. *)
Theorem results_agree_when_configured_or_same_variable (W : Type) (h : Handler W)
    (s : storageZfs) (c source : container) (size : Z) (w : W) (g1 g2 : Globals) :
  (cfg (pool_Config s) "volume.zfs.use_refquota" <> ""
   \/ cfg (volume_Config s) "zfs.use_refquota" <> ""
   \/ var_zfsUseRefquota g1 = var_zfsUseRefquota g2 ->
   same_result (run h (ContainerSetQuota s c size) g1 w)
               (run h (ContainerSetQuota s c size) g2 w) /\
   same_result (run h (ContainerGetUsage s c) g1 w)
               (run h (ContainerGetUsage s c) g2 w)) /\
  (cfg (pool_Config s) "volume.zfs.remove_snapshots" <> ""
   \/ cfg (volume_Config s) "zfs.remove_snapshots" <> ""
   \/ var_zfsRemoveSnapshots g1 = var_zfsRemoveSnapshots g2 ->
   same_result (run h (ContainerCanRestore s c source) g1 w)
               (run h (ContainerCanRestore s c source) g2 w)).
Proof.
  split.
  - intros Hcfg.
    assert (Hv : read_var
                   (globals (run h (resolve_use_refquota s) g1 w)) zfsUseRefquota
                 = read_var
                     (globals (run h (resolve_use_refquota s) g2 w)) zfsUseRefquota
                 /\ world (run h (resolve_use_refquota s) g1 w) = w
                 /\ world (run h (resolve_use_refquota s) g2 w) = w
                 /\ trace (run h (resolve_use_refquota s) g1 w)
                    = trace (run h (resolve_use_refquota s) g2 w)
                 /\ outcome (run h (resolve_use_refquota s) g1 w)
                    = Done (read_var (globals (run h (resolve_use_refquota s) g1 w))
                              zfsUseRefquota)
                 /\ outcome (run h (resolve_use_refquota s) g2 w)
                    = Done (read_var (globals (run h (resolve_use_refquota s) g2 w))
                              zfsUseRefquota)).
    { unfold resolve_use_refquota, when. cbn.
      destruct (String.eqb (cfg (pool_Config s) "volume.zfs.use_refquota") "") eqn:E1;
        destruct (String.eqb (cfg (volume_Config s) "zfs.use_refquota") "") eqn:E2;
        cbn; repeat split; try reflexivity.
      all: apply String.eqb_eq in E1, E2.
      all: destruct Hcfg as [Hc | [Hc | Hc]]; try contradiction; cbn; congruence. }
    destruct Hv as (Hv & Hw1 & Hw2 & Ht & Ho1 & Ho2).
    unfold same_result, ContainerSetQuota, ContainerGetUsage. rewrite !run_bind.
    destruct (run h (resolve_use_refquota s) g1 w) as [o1 gl1 w1 t1].
    destruct (run h (resolve_use_refquota s) g2 w) as [o2 gl2 w2 t2].
    cbn [outcome globals world trace] in *. subst o1 o2 w1 w2 t2. rewrite Hv.
    unfold and_then. cbn [outcome globals world trace].
    destruct (IsTrue (read_var gl2 zfsUseRefquota)); destruct (size >? 0)%Z; cbn.
    all: symex h.
    all: repeat match goal with
                | |- context [ParseInt ?x] => destruct (ParseInt x) as [? [? |]]
                end; cbn; auto.
  - intros Hcfg. unfold same_result, ContainerCanRestore, when. cbn.
    destruct (h _ (Snapshots c) w) as [[l [e |]] w1]; cbn; [auto |].
    destruct (last l) as [latest |]; cbn; [| auto].
    destruct (String.eqb (Name latest) (Name source)); cbn; [auto |].
    destruct (String.eqb (cfg (pool_Config s) "volume.zfs.remove_snapshots") "") eqn:E1;
      destruct (String.eqb (cfg (volume_Config s) "zfs.remove_snapshots") "") eqn:E2;
      cbn.
    1: { apply String.eqb_eq in E1, E2.
         destruct Hcfg as [Hc | [Hc | Hc]]; try contradiction. rewrite Hc.
         destruct (IsTrue (var_zfsRemoveSnapshots g2)); cbn; auto. }
    all: match goal with
         | |- context [IsTrue ?v] => destruct (IsTrue v)
         end; cbn; auto.
Qed.

Lemma results_agree_when_configured_or_same_variable_witness :
  same_result
    (run (world_handler pool1_configured)
       (ContainerSetQuota pool1_configured (a_container "pool1" "c1") 1024)
       initial_globals world_c1)
    (run (world_handler pool1_configured)
       (ContainerSetQuota pool1_configured (a_container "pool1" "c1") 1024)
       {| var_zfsUseRefquota := "no"; var_zfsRemoveSnapshots := "yes" |} world_c1) /\
  same_result
    (run (world_handler pool1)
       (ContainerCanRestore pool1 (a_container "pool1" "c1") (a_snapshot "pool1" "c1" "s1"))
       initial_globals world_c1_snaps)
    (run (world_handler pool1)
       (ContainerCanRestore pool1 (a_container "pool1" "c1") (a_snapshot "pool1" "c1" "s1"))
       {| var_zfsUseRefquota := "true"; var_zfsRemoveSnapshots := "false" |}
       world_c1_snaps).
Proof.
  split.
  - destruct (@results_agree_when_configured_or_same_variable _
                (world_handler pool1_configured) pool1_configured
                (a_container "pool1" "c1") (a_container "pool1" "c1") 1024 world_c1
                initial_globals
                {| var_zfsUseRefquota := "no"; var_zfsRemoveSnapshots := "yes" |})
      as [Hquota _].
    destruct Hquota as [Hset _]; [| exact Hset].
    left. vm_compute. discriminate.
  - destruct (@results_agree_when_configured_or_same_variable _
                (world_handler pool1) pool1
                (a_container "pool1" "c1") (a_snapshot "pool1" "c1" "s1") 0 world_c1_snaps
                initial_globals
                {| var_zfsUseRefquota := "true"; var_zfsRemoveSnapshots := "false" |})
      as [_ Hrestore].
    apply Hrestore. right. right. reflexivity.
Defined.

(** C4, as stated, fails: with the same arguments, the same (empty) config
    and the same world, [ContainerSetQuota] sets [quota] when the variable
    is as the file initialises it, and [refquota] after an earlier call
    made with a config that sets [volume.zfs.use_refquota]. *)
Lemma cached_zfsUseRefquota_changes_the_result :
  zfs_ops (trace (run (world_handler pool1)
                    (ContainerSetQuota pool1 (a_container "pool1" "c1") 1024)
                    initial_globals world_c1))
  = [(OpSet "containers/c1" "quota" "1024", None)] /\
  zfs_ops (trace (run (world_handler pool1)
                    (ContainerSetQuota pool1 (a_container "pool1" "c1") 1024)
                    (globals (run (world_handler pool1_configured)
                                (ContainerGetUsage pool1_configured
                                   (a_container "pool1" "c0"))
                                initial_globals world_c1))
                    world_c1))
  = [(OpSet "containers/c1" "refquota" "1024", None)].
Proof. split; vm_compute; reflexivity. Qed.

(** ** Migration sink *)

Lemma never_calls_bind (A B : Type) (bad : forall X : Type, Call X -> bool)
    (p : Prog A) (f : A -> Prog B) :
  never_calls bad p -> (forall a, never_calls bad (f a)) -> never_calls bad (bind p f).
Proof.
  intros Hp Hf. induction p as [a | X c k IH | msg]; cbn in *; auto.
  destruct Hp as [Hc Hk]. split; auto.
Qed.

Lemma never_calls_trace (W A : Type) (bad : forall X : Type, Call X -> bool)
    (h : Handler W) (p : Prog A) (g : Globals) (w : W) :
  never_calls bad p -> existsb (event_is bad) (trace (run h p g w)) = false.
Proof.
  revert g w. induction p as [a | X c k IH | msg]; intros g w Hp; cbn in *; auto.
  destruct Hp as [Hc Hk]. destruct (step h c g w) as [[x g'] w'].
  cbn. rewrite Hc. cbn. apply IH, Hk.
Qed.

Ltac never_calls_tac :=
  repeat (cbn [never_calls bind call is_cleanup_call];
          match goal with
          | |- never_calls _ (bind _ _) => apply never_calls_bind
          | |- never_calls _ (match ?x with _ => _ end) => destruct x
          | |- _ /\ _ => split
          | |- forall _, _ => intro
          | |- True => exact I
          | |- _ = _ => reflexivity
          end).

Lemma zfsRecv_never_cleans (poolName zfsName : string) :
  never_calls is_cleanup_call (zfsRecv poolName zfsName).
Proof. unfold zfsRecv. never_calls_tac. Qed.

Lemma MigrationSink_snapshots_never_cleans (poolName : string) (c : container)
    (parentStoragePool : string) (snapshots : list Snapshot) :
  never_calls is_cleanup_call (MigrationSink_snapshots poolName c parentStoragePool snapshots).
Proof.
  induction snapshots as [| snap rest IH]; [exact I |].
  cbn [MigrationSink_snapshots]. never_calls_tac; try apply zfsRecv_never_cleans; try exact IH.
Qed.

(** No cleanup call: nothing listed, nothing destroyed. *)
Lemma no_cleanup_observed (t : list Event) :
  existsb (event_is is_cleanup_call) t = false ->
  list_answers t = [] /\ destroyed_snapshots t = [].
Proof.
  induction t as [| [X c x] t IH]; [auto |].
  cbn [existsb event_is]. intros H. apply orb_false_iff in H as [Hc Ht].
  destruct (IH Ht) as [Hl Hd]. unfold list_answers, destroyed_snapshots in *.
  rewrite !omap_cons_eq. destruct c; try discriminate Hc; auto.
Qed.

Lemma sink_spec_bind (W A : Type) (h : Handler W) (c : container)
    (snapshots : list Snapshot) (p : Prog A) (k : A -> Prog goerr)
    (g : Globals) (w : W) :
  never_calls is_cleanup_call p ->
  (forall a g' w', sink_spec c snapshots (run h (k a) g' w')) ->
  sink_spec c snapshots (run h (bind p k) g w).
Proof.
  intros Hp Hk. rewrite run_bind. unfold and_then.
  pose proof (@never_calls_trace _ _ _ h p g w Hp) as Hpre.
  destruct (no_cleanup_observed Hpre) as [Hl Hd].
  destruct (run h p g w) as [o g' w' t]. cbn [outcome globals world trace] in *.
  destruct o as [a | msg]; [| intros Ho; discriminate Ho].
  intros Ho. cbn [outcome] in Ho.
  destruct (Hk a g' w' Ho) as (pre & listed & post & Ht & Hpre' & Hla & Hds).
  exists (t ++ pre), listed, post. cbn [trace].
  split; [rewrite Ht, app_assoc; reflexivity |].
  split; [rewrite existsb_app, Hpre, Hpre'; reflexivity |].
  unfold list_answers, destroyed_snapshots in *. rewrite !omap_app, Hl, Hd, Hla, Hds. auto.
Qed.

Lemma sink_spec_error (W : Type) (c : container) (snapshots : list Snapshot)
    (h : Handler W) (e : error) (g : Globals) (w : W) :
  sink_spec c snapshots (run h (Ret (Some e)) g w).
Proof. intros Ho. discriminate Ho. Qed.

(** The loop of the cleanup destroys the snapshots it is to destroy, and
    makes no other call. *)
Lemma MigrationSink_cleanup_run (W : Type) (h : Handler W) (name : string)
    (snapshots : list Snapshot) (zfsSnapshots : list string) (g : Globals) (w : W) :
  let r := run h (MigrationSink_cleanup name snapshots zfsSnapshots) g w in
  outcome r = Done tt /\
  list_answers (trace r) = [] /\
  destroyed_snapshots (trace r)
  = map (fun snap => ("containers/" +:+ name, snap))
        (sink_to_destroy snapshots (zfsSnapshots, None)).
Proof.
  revert g w. induction zfsSnapshots as [| snap rest IH]; intros g w; [cbn; auto |].
  cbn [MigrationSink_cleanup]. unfold sink_to_destroy in *. cbn [fst snd List.filter] in *.
  destruct (length snapshots =? 0)%nat; cbn [negb andb orb].
  - cbn [bind call run]. destruct (step h _ g w) as [[x g'] w'].
    destruct (IH g' w') as (Ho & Hl & Hd). unfold add_event. cbn [outcome trace].
    unfold list_answers, destroyed_snapshots in *. rewrite !omap_cons_eq. cbn.
    rewrite Hl, Hd. auto.
  - destruct (HasPrefix snap "migration-send"); cbn [negb].
    + cbn [bind call run]. destruct (step h _ g w) as [[x g'] w'].
      destruct (IH g' w') as (Ho & Hl & Hd). unfold add_event. cbn [outcome trace].
      unfold list_answers, destroyed_snapshots in *. rewrite !omap_cons_eq. cbn.
      rewrite Hl, Hd. auto.
    + apply IH.
Qed.

Lemma MigrationSink_deferred_spec (W : Type) (h : Handler W) (c : container)
    (snapshots : list Snapshot) (result : goerr) (g : Globals) (w : W) :
  sink_spec c snapshots
    (run h (MigrationSink_deferred c snapshots ;; Ret result) g w).
Proof.
  intros Ho. unfold MigrationSink_deferred in *. cbn [bind call run] in *.
  destruct (step h (zfsPoolListSnapshots ("containers/" +:+ Name c)) g w)
    as [[[l e] g'] w'] eqn:Hs.
  cbn [fst snd] in *.
  exists [], (l, e). unfold add_event in *. cbn [outcome trace app existsb] in *.
  destruct e as [e |].
  - exists []. cbn. auto.
  - rewrite run_bind in *. 
    destruct (@MigrationSink_cleanup_run _ h (Name c) snapshots l g' w') as (Hoc & Hl & Hd).
    destruct (run h (MigrationSink_cleanup (Name c) snapshots l) g' w') as [o g'' w'' t].
    cbn [outcome trace] in *. subst o. unfold and_then in *. cbn [outcome trace globals world run] in *.
    exists (t ++ []). split; [reflexivity |]. split; [reflexivity |].
    unfold list_answers, destroyed_snapshots in *. rewrite !omap_cons_eq, !omap_app.
    cbn. rewrite Hl, Hd, !app_nil_r. auto.
Qed.

Ltac sink_step :=
  first
    [ apply sink_spec_error
    | apply MigrationSink_deferred_spec
    | apply sink_spec_bind;
      [ never_calls_tac; try apply zfsRecv_never_cleans;
        try apply MigrationSink_snapshots_never_cleans
      | intros ? ? ? ]
    | match goal with
      | |- sink_spec _ _ (run _ (match ?x with _ => _ end) _ _) => destruct x
      end ].

Lemma MigrationSink_run_spec (W : Type) (h : Handler W) (s : storageZfs) (live : bool)
    (c : container) (snapshots : list Snapshot) (containerOnly : bool)
    (g : Globals) (w : W) :
  sink_spec c snapshots (run h (MigrationSink s live c snapshots containerOnly) g w).
Proof.
  unfold MigrationSink, defer. cbv zeta.
  repeat sink_step.
Qed.

(** C7: when [MigrationSink] returns [nil], the snapshots of
    [containers/<name>] were listed once, after every other call of the
    sink (so after the receives), and the snapshots destroyed are, in the
    order listed, every listed snapshot whose name begins with
    [migration-send], or every listed snapshot when no snapshot was
    expected.  (The snapshots on the dataset are those the listing
    answers; a listing that fails destroys nothing.) *)
Theorem MigrationSink_destroys_migration_send_snapshots (W : Type) (h : Handler W)
    (s : storageZfs) (live : bool) (c : container) (snapshots : list Snapshot)
    (containerOnly : bool) (g : Globals) (w : W) :
  let r := run h (MigrationSink s live c snapshots containerOnly) g w in
  let fs := "containers/" +:+ Name c in
  outcome r = Done None ->
  exists pre listed post,
    trace r = pre ++ Ev (zfsPoolListSnapshots fs) listed :: post /\
    existsb (event_is is_cleanup_call) pre = false /\
    list_answers (trace r) = [listed] /\
    destroyed_snapshots (trace r)
    = map (fun snap => (fs, snap)) (sink_to_destroy snapshots listed) /\
    (snd listed = None ->
     forall snap, In snap (fst listed) ->
       HasPrefix snap "migration-send" = true \/ snapshots = [] ->
       In (fs, snap) (destroyed_snapshots (trace r))).
Proof.
  intros r fs Ho.
  destruct (@MigrationSink_run_spec _ h s live c snapshots containerOnly g w Ho)
    as (pre & listed & post & Ht & Hpre & Hla & Hds).
  exists pre, listed, post. fold r in Ht, Hla, Hds. fold fs in Ht, Hds.
  repeat (split; [assumption |]).
  intros Hok snap Hin Hsel. rewrite Hds. apply in_map.
  unfold sink_to_destroy. rewrite Hok. apply filter_In. split; [exact Hin |].
  destruct Hsel as [-> | ->]; [apply orb_true_r | reflexivity].
Qed.

Lemma MigrationSink_destroys_migration_send_snapshots_witness :
  destroyed_snapshots
    (trace (run (world_handler pool1)
              (MigrationSink pool1 false (a_container "pool1" "c5")
                 [{| snap_Name := "s1"; snap_Devices := None |}] false)
              initial_globals world_sink))
  = [("containers/c5", "migration-send-7")].
Proof.
  destruct (@MigrationSink_destroys_migration_send_snapshots _ (world_handler pool1)
              pool1 false (a_container "pool1" "c5")
              [{| snap_Name := "s1"; snap_Devices := None |}] false
              initial_globals world_sink)
    as (pre & listed & post & _ & _ & Hla & Hds & _).
  - vm_compute. reflexivity.
  - assert (Hl : listed = (["snapshot-s1"; "migration-send-7"], None))
      by (revert Hla; vm_compute; intros [= <-]; reflexivity).
    subst listed. rewrite Hds. vm_compute. reflexivity.
Defined.

(** ** Rename *)

(** C5, at the failing input: the container [c1] with one snapshot is
    renamed to the fresh name [c9] and back.  Both renames return [nil];
    the datasets with their properties, the mounts, the container's
    directory and symlink and the aggregate snapshot directory are as
    before the first rename, but the aggregate snapshot symlink
    [<daemon-var>/snapshots/c1], which existed, is gone.  For a container
    without snapshots, as create left it, the round trip restores
    everything. *)
Theorem ContainerRename_round_trip_drops_snapshot_symlink :
  outcome (run (world_handler pool1) (ContainerRename 2 pool1 (a_container "pool1" "c1") "c9")
             initial_globals world_c1_s1) = Done None /\
  outcome (run (world_handler pool1) (ContainerRename 2 pool1 (a_container "pool1" "c9") "c1")
             initial_globals world_c1_s1_renamed) = Done None /\
  datasets world_c1_s1_round_trip = datasets world_c1_s1 /\
  mounts world_c1_s1_round_trip = mounts world_c1_s1 /\
  files world_c1_s1 !! VarPath ["snapshots"; "c1"]
  = Some (Link (getSnapshotMountPoint "pool1" "c1")) /\
  files world_c1_s1_round_trip !! VarPath ["snapshots"; "c1"] = None /\
  files world_c1_s1_round_trip = delete (VarPath ["snapshots"; "c1"]) (files world_c1_s1) /\
  datasets world_c1_round_trip = datasets world_c1 /\
  files world_c1_round_trip = files world_c1 /\
  mounts world_c1_round_trip = mounts world_c1.
Proof.
  repeat match goal with |- _ /\ _ => split end; vm_compute; reflexivity.
Qed.

(** C6, at the failing input: after the container [c1] with the snapshot
    [s1] is renamed to [c9], the container [c9] has a snapshot and no
    aggregate snapshot symlink (the old one is removed and the new one is
    not made).  Before the rename the symlink was there with the
    snapshot, and deleting the last snapshot removes it. *)
Theorem ContainerRename_breaks_snapshot_symlink_invariant :
  has_snapshot world_c1_s1 "pool1" "c1" = true /\
  has_snapshot_symlink world_c1_s1 "c1" = true /\
  has_snapshot world_c1_s1_renamed "pool1" "c9" = true /\
  has_snapshot_symlink world_c1_s1_renamed "c9" = false /\
  has_snapshot (after pool1 (ContainerSnapshotDelete pool1 (a_snapshot "pool1" "c1" "s1"))
                  world_c1_s1) "pool1" "c1" = false /\
  has_snapshot_symlink
    (after pool1 (ContainerSnapshotDelete pool1 (a_snapshot "pool1" "c1" "s1"))
       world_c1_s1) "c1" = false.
Proof.
  repeat match goal with |- _ /\ _ => split end; vm_compute; reflexivity.
Qed.

(** ** Concurrent mounts *)

Section ConcurrentMount.
Variables (s : storageZfs) (c : container).

(* One case split on an answer of the model. *)
Ltac sim_case :=
  match goal with
  | |- context [lock_held ?w] => destruct (lock_held w)
  | |- context [bool_decide (?a ∈ ?X)] => destruct (bool_decide (a ∈ X))
  | |- context [path_exists ?w ?k] => destruct (path_exists w k)
  | |- context [opmap ?w !! ?k] => destruct (opmap w !! k)
  | |- context [create_container_mountpoint ?w ?a ?b] =>
      destruct (create_container_mountpoint w a b) as [[?|] ?]
  | |- context [sys_mount ?w ?a ?b] => destruct (sys_mount w a b) as [[?|] ?]
  | |- context [bool_decide (?e = EBUSY)] => destruct (bool_decide (e = EBUSY))
  end.

(** A step of thread [i] of the pool is the step of its program point. *)
Lemma sched_step_at_pc (i : nat) (g : Globals) (w : World) (pcs : list MountPc) (pc : MountPc) :
  pcs !! i = Some pc ->
  sched_step (world_handler s) i
    {| pool_globals := g; pool_world := w; threads := at_pc s c <$> pcs |} =
  (fun '(w', pc') => {| pool_globals := g; pool_world := w';
                        threads := at_pc s c <$> <[i := pc']> pcs |}) <$> pc_step s c w pc.
Proof.
  intros Hpc. unfold sched_step. cbn [threads pool_world pool_globals].
  rewrite list_lookup_fmap, Hpc. cbn [fmap option_fmap option_map].
  destruct pc; cbn -[create_container_mountpoint sys_mount path_exists];
    unfold take; cbn -[create_container_mountpoint sys_mount path_exists].
  all: repeat (sim_case; cbn -[create_container_mountpoint sys_mount path_exists]).
  all: rewrite ?list_fmap_insert; try reflexivity.
Qed.

Lemma sys_mount_ok (w : World) (src dst : string) :
  mount_fault w = None -> entity_exists w src = true ->
  exists w', sys_mount w src dst = (None, w') /\
    lock_held w' = lock_held w /\ opmap w' = opmap w /\
    mounts w' = {[ dst ]} ∪ mounts w /\ mount_calls w' = S (mount_calls w) /\
    mount_fault w' = None /\ datasets w' = datasets w.
Proof.
  intros Hf He. unfold sys_mount. cbn. rewrite Hf.
  unfold entity_exists in *. cbn.
  destruct (split_at_char "@" src) as [[d sn]|]; rewrite He; eexists;
    (split; [reflexivity |]); cbn; auto 10.
Qed.

Lemma create_container_mountpoint_frame (w : World) (a b : string) :
  let w' := snd (create_container_mountpoint w a b) in
  lock_held w' = lock_held w /\ opmap w' = opmap w /\ mounts w' = mounts w /\
  mount_calls w' = mount_calls w /\ mount_fault w' = mount_fault w /\
  datasets w' = datasets w.
Proof.
  unfold create_container_mountpoint, fs_mkdir_all. cbn.
  repeat case_match; cbn; auto 10.
Qed.

Lemma entity_exists_datasets (w w' : World) (x : string) :
  datasets w' = datasets w -> entity_exists w' x = entity_exists w x.
Proof. unfold entity_exists. intros ->. reflexivity. Qed.

Lemma is_mounted_after (w w' : World) :
  mounts w' = {[ mount_point s c ]} ∪ mounts w -> is_mounted s c w' = true.
Proof.
  intros H. unfold is_mounted. rewrite H. apply bool_decide_eq_true.
  apply elem_of_union. left. apply elem_of_singleton. reflexivity.
Qed.

Lemma is_mounted_same (w w' : World) :
  mounts w' = mounts w -> is_mounted s c w' = is_mounted s c w.
Proof. unfold is_mounted. intros ->. reflexivity. Qed.

Ltac use_facts :=
  repeat match goal with
    | H : _ /\ _ |- _ => destruct H
    | H : true = true -> _ |- _ => specialize (H eq_refl)
    | H : false = true -> _ |- _ => clear H
    | H : forall ch, None = Some ch -> _ |- _ => clear H
    | H : forall ch, Some ?a = Some ch -> _ |- _ => specialize (H a eq_refl)
    | H : Some _ <> None -> _ |- _ => specialize (H ltac:(discriminate))
    | H : None <> None -> _ |- _ => clear H
    end.

Ltac close_goal :=
  repeat match goal with
    | |- _ /\ _ => split
    | |- forall _, _ => intro
    end;
  first [ discriminate | assumption | contradiction | congruence | lia ].

Ltac step_case H :=
  match type of H with
  | context [negb (lock_held ?w)] => destruct (lock_held w) eqn:?
  | context [bool_decide (?a ∈ closed ?X)] => destruct (bool_decide (a ∈ closed X)) eqn:?
  | context [bool_decide (?a ∈ mounts ?X)] =>
      change (bool_decide (a ∈ mounts X)) with (is_mounted s c X) in H;
      destruct (is_mounted s c X) eqn:?
  | context [path_exists ?w ?k] => destruct (path_exists w k) eqn:?
  | context [opmap ?w !! ?k] => destruct (opmap w !! k) eqn:?
  end.

(* The step [Hstep] of a caller at [pc], by cases of [pc] and of the
   answers it gets. *)
Ltac step_inversion Hf He Hstep :=
  cbn -[create_container_mountpoint sys_mount path_exists] in Hstep;
  unfold take in Hstep;
  cbn -[create_container_mountpoint sys_mount path_exists] in Hstep;
  try discriminate Hstep;
  try (let w1 := fresh "w1" in
       destruct (sys_mount_ok (mount_point s c) Hf He)
         as (w1 & Hsys & Hl1 & Ho1 & Hmt1 & Hmc1 & Hf1 & Hd1);
       rewrite Hsys in Hstep; apply is_mounted_after in Hmt1;
       apply (entity_exists_datasets (mount_source s c)) in Hd1);
  try (match type of Hstep with
       | context [create_container_mountpoint ?w ?a ?b] =>
           destruct (create_container_mountpoint_frame w a b)
             as (Hl1 & Ho1 & Hmt1 & Hmc1 & Hf1 & Hd1);
           destruct (create_container_mountpoint w a b) as [[?|] w1];
           cbn [snd] in *; apply is_mounted_same in Hmt1;
           apply (entity_exists_datasets (mount_source s c)) in Hd1
       end);
  repeat (step_case Hstep;
          cbn -[create_container_mountpoint sys_mount path_exists] in Hstep);
  try discriminate Hstep;
  injection Hstep as <- <-.

Ltac world_rewrite :=
  try (erewrite entity_exists_datasets by (cbn; reflexivity));
  unfold is_mounted in *; cbn in *;
  rewrite ?lookup_insert_eq, ?lookup_delete_eq;
  repeat match goal with
    | H : entity_exists ?w1 _ = _ |- context [entity_exists ?w1 _] => rewrite H
    | H : lock_held ?w1 = _ |- context [lock_held ?w1] => rewrite H
    | H : opmap ?w1 = _ |- context [opmap ?w1] => rewrite H
    | H : mount_calls ?w1 = _ |- context [mount_calls ?w1] => rewrite H
    | H : mount_fault ?w1 = _ |- context [mount_fault ?w1] => rewrite H
    | H : bool_decide (_ ∈ mounts ?w1) = _ |- context [bool_decide (_ ∈ mounts ?w1)] =>
        rewrite H
    end.

Ltac split_results :=
  repeat match goal with r : (bool * goerr)%type |- _ => destruct r as [[] [?|]] end;
  cbn in *.

Lemma pc_step_local (w0 w w' : World) (pc pc' : MountPc) :
  world_ok s c w0 w -> caller_ok s c w0 w pc -> pc_step s c w pc = Some (w', pc') ->
  world_ok s c w0 w' /\ caller_ok s c w0 w' pc' /\
  (forall pcj, caller_ok s c w0 w pcj -> callers_apart pc pcj ->
               caller_ok s c w0 w' pcj /\ callers_apart pc' pcj).
Proof.
  intros (Hf & He & Hc & Hm0 & Hm1) Hpc Hstep.
  destruct pc; step_inversion Hf He Hstep.
  all: unfold world_ok, caller_ok, callers_apart in *; world_rewrite.
  all: (split; [ | split; [ | intros pcj Hj Hap; destruct pcj; cbn in * ] ]).
  all: try (use_facts; close_goal; fail).
  all: try (use_facts; intuition (congruence || lia); fail).
  all: try (split_results; use_facts; close_goal; fail).
Qed.

Lemma pc_step_facts (w0 w w' : World) (pc pc' : MountPc) :
  world_ok s c w0 w -> caller_ok s c w0 w pc -> pc_step s c w pc = Some (w', pc') ->
  (forall ch, opmap w' !! mount_lock_id s c = Some ch ->
     registered pc' = Some ch \/
     (opmap w !! mount_lock_id s c = Some ch /\ registered pc <> Some ch)) /\
  (is_owner pc = true -> is_owner pc' = true) /\
  (is_waiter pc' = true -> is_waiter pc = true \/ opmap w !! mount_lock_id s c <> None) /\
  (mount_calls w' = S (mount_calls w0) ->
     returns_true pc' = true \/
     (mount_calls w = S (mount_calls w0) /\ returns_true pc = false)).
Proof.
  intros (Hf & He & Hc & Hm0 & Hm1) Hpc Hstep.
  destruct pc; step_inversion Hf He Hstep.
  all: unfold caller_ok in *; world_rewrite.
  all: try (use_facts; repeat split; intros;
            first [ discriminate | tauto | (left; congruence)
                  | (right; split; congruence) | (right; congruence) ]; fail).
  all: split_results.
  all: try (use_facts; repeat split; intros;
            first [ discriminate | tauto | (left; congruence)
                  | (right; split; congruence) | (right; congruence) ]; fail).
Qed.

Lemma callers_apart_sym (pc1 pc2 : MountPc) : callers_apart pc1 pc2 -> callers_apart pc2 pc1.
Proof. unfold callers_apart. tauto. Qed.

Lemma registered_is_owner (pc : MountPc) (ch : chan) :
  registered pc = Some ch -> is_owner pc = true.
Proof. destruct pc; cbn; congruence. Qed.

Lemma mount_invariant_step (w0 w w' : World) (pcs : list MountPc) (i : nat)
    (pc pc' : MountPc) :
  mount_invariant s c w0 w pcs -> pcs !! i = Some pc ->
  pc_step s c w pc = Some (w', pc') ->
  mount_invariant s c w0 w' (<[i := pc']> pcs).
Proof.
  intros (Hw & H1 & H2 & E1 & E2 & E3) Hi Hstep.
  assert (Hlt : i < length pcs) by (eapply lookup_lt_Some; eassumption).
  destruct (pc_step_local Hw (H1 _ _ Hi) Hstep) as (Hw' & Hown & Hothers).
  destruct (pc_step_facts Hw (H1 _ _ Hi) Hstep) as (F1 & F2 & F3 & F4).
  assert (Hnew : <[i := pc']> pcs !! i = Some pc')
    by (apply list_lookup_insert_eq; assumption).
  split; [exact Hw' |].
  split.
  { intros j pcj Hj. apply list_lookup_insert_Some in Hj as [(-> & <- & _) | (Hne & Hj)].
    - exact Hown.
    - apply (proj1 (Hothers pcj (H1 _ _ Hj) (H2 _ _ _ _ Hne Hi Hj))). }
  split.
  { intros j k pc1 pc2 Hjk Hj Hk.
    apply list_lookup_insert_Some in Hj as [(-> & <- & _) | (Hne1 & Hj)];
      apply list_lookup_insert_Some in Hk as [(-> & <- & _) | (Hne2 & Hk)].
    - contradiction.
    - apply (proj2 (Hothers pc2 (H1 _ _ Hk) (H2 _ _ _ _ Hne2 Hi Hk))).
    - apply callers_apart_sym.
      apply (proj2 (Hothers pc1 (H1 _ _ Hj) (H2 _ _ _ _ Hne1 Hi Hj))).
    - apply (H2 _ _ _ _ Hjk Hj Hk). }
  split.
  { intros ch Hch. destruct (F1 ch Hch) as [Hreg | (Hold & Hnot)].
    - exists i, pc'. auto.
    - destruct (E1 ch Hold) as (j & pcj & Hj & Hreg).
      destruct (decide (i = j)) as [-> | Hne].
      + rewrite Hi in Hj. injection Hj as ->. contradiction.
      + exists j, pcj. split; [| exact Hreg].
        rewrite list_lookup_insert_ne by exact Hne. exact Hj. }
  split.
  { intros (k & pck & Hk & Hwait).
    assert (Hold : exists j pcj, pcs !! j = Some pcj /\ is_owner pcj = true).
    { apply list_lookup_insert_Some in Hk as [(-> & <- & _) | (Hne & Hk)].
      - destruct (F3 Hwait) as [Hwas | Hmap].
        + apply E2. exists k, pc. auto.
        + destruct (opmap w !! mount_lock_id s c) as [ch|] eqn:Hm; [| contradiction].
          destruct (E1 ch eq_refl) as (j & pcj & Hj & Hreg).
          exists j, pcj. split; [exact Hj |]. eapply registered_is_owner; eassumption.
      - apply E2. exists k, pck. auto. }
    destruct Hold as (j & pcj & Hj & Hown').
    destruct (decide (i = j)) as [-> | Hne].
    - rewrite Hi in Hj. injection Hj as ->. exists j, pc'. auto.
    - exists j, pcj. split; [| exact Hown'].
      rewrite list_lookup_insert_ne by exact Hne. exact Hj. }
  intros Hcalls. destruct (F4 Hcalls) as [Htrue | (Hold & Hfalse)].
  - exists i, pc'. auto.
  - destruct (E3 Hold) as (j & pcj & Hj & Htrue).
    destruct (decide (i = j)) as [-> | Hne].
    + rewrite Hi in Hj. injection Hj as ->. congruence.
    + exists j, pcj. split; [| exact Htrue].
      rewrite list_lookup_insert_ne by exact Hne. exact Hj.
Qed.

Lemma mount_invariant_start (w0 : World) (n : nat) :
  mount_fault w0 = None -> entity_exists w0 (mount_source s c) = true ->
  opmap w0 !! mount_lock_id s c = None ->
  mount_invariant s c w0 w0 (replicate n AtLock).
Proof.
  intros Hf He Hm. unfold mount_invariant, world_ok.
  repeat match goal with |- _ /\ _ => split end; try tauto.
  - intros i pc [-> _]%lookup_replicate. unfold caller_ok. cbn. intuition discriminate.
  - intros i j pc1 pc2 _ [-> _]%lookup_replicate [-> _]%lookup_replicate.
    unfold callers_apart. cbn. intuition discriminate.
  - intros ch Hch. congruence.
  - intros (i & pc & [-> _]%lookup_replicate & Hwait). discriminate.
  - intros Hcalls. lia.
Qed.

Lemma run_schedule_invariant (w0 : World) (sched : list nat) (g : Globals) (w : World)
    (pcs : list MountPc) (st : Pool (bool * goerr)) :
  mount_invariant s c w0 w pcs ->
  run_schedule (world_handler s) sched
    {| pool_globals := g; pool_world := w; threads := at_pc s c <$> pcs |} = Some st ->
  exists w' pcs',
    st = {| pool_globals := g; pool_world := w'; threads := at_pc s c <$> pcs' |} /\
    mount_invariant s c w0 w' pcs' /\ length pcs' = length pcs.
Proof.
  revert w pcs. induction sched as [| i rest IH]; intros w pcs Hinv Hrun.
  - injection Hrun as <-. eauto.
  - cbn [run_schedule] in Hrun.
    destruct (pcs !! i) as [pc |] eqn:Hi.
    + rewrite (sched_step_at_pc g w Hi) in Hrun.
      destruct (pc_step s c w pc) as [[w1 pc1] |] eqn:Hstep; [| discriminate Hrun].
      cbn in Hrun.
      destruct (IH _ _ (mount_invariant_step Hinv Hi Hstep) Hrun)
        as (w' & pcs' & -> & Hinv' & Hlen).
      exists w', pcs'. rewrite length_insert in Hlen. auto.
    + unfold sched_step in Hrun. cbn [threads] in Hrun.
      rewrite list_lookup_fmap, Hi in Hrun. discriminate Hrun.
Qed.


Lemma at_pc_Ret (pc : MountPc) (r : bool * goerr) :
  at_pc s c pc = Ret r -> (pc = WaitDone /\ r = (false, None)) \/ pc = OwnerDone r.
Proof.
  destruct pc; cbn; intros H; try discriminate H; injection H as <-; auto.
Qed.

Lemma all_returned_lookup (A : Type) (st : Pool A) (i : nat) (p : Prog A) :
  all_returned st = true -> threads st !! i = Some p -> exists a, p = Ret a.
Proof.
  unfold all_returned. intros Hall Hi.
  apply list_elem_of_lookup_2, list_elem_of_In in Hi.
  pose proof (proj1 (forallb_forall _ _) Hall p Hi) as Hp.
  destruct p; try discriminate Hp. eauto.
Qed.

Lemma callers_at_AtLock (n : nat) (g : Globals) (w : World) :
  callers n (ContainerMount s c) g w =
  {| pool_globals := g; pool_world := w; threads := at_pc s c <$> replicate n AtLock |}.
Proof. unfold callers. rewrite fmap_replicate. reflexivity. Qed.

(** C2, as the code has it: for any number of concurrent [ContainerMount]
    calls on the same container, in every interleaving in which [mount(2)]
    does not fail (no fault, the dataset exists) and no operation is in
    flight at the start, [mount(2)] is called at most once and at most one
    caller returns [ourMount = true]; when the mount point is mounted
    already nobody mounts and nobody returns [true]; when it is not, and
    all callers have returned without an error, exactly one of them has
    mounted and returned [true].  A caller that finds an operation in
    flight unlocks, receives from that operation's channel and returns
    [false, nil]: it makes no other call. *)
Theorem ContainerMount_concurrent_callers_mount_at_most_once
    (n : nat) (sched : list nat) (g : Globals) (w0 : World) (st : Pool (bool * goerr)) :
  mount_fault w0 = None ->
  entity_exists w0 (mount_source s c) = true ->
  opmap w0 !! mount_lock_id s c = None ->
  run_schedule (world_handler s) sched (callers n (ContainerMount s c) g w0) = Some st ->
  mount_calls (pool_world st) <= S (mount_calls w0) /\
  (forall i j e1 e2,
     threads st !! i = Some (Ret (true, e1)) -> threads st !! j = Some (Ret (true, e2)) ->
     i = j) /\
  (is_mounted s c w0 = true ->
   mount_calls (pool_world st) = mount_calls w0 /\
   forall i e, threads st !! i <> Some (Ret (true, e))) /\
  (is_mounted s c w0 = false -> 0 < n -> all_returned st = true ->
   (forall i b e, threads st !! i = Some (Ret (b, e)) -> e = None) ->
   mount_calls (pool_world st) = S (mount_calls w0) /\
   exists i, threads st !! i = Some (Ret (true, None))) /\
  (forall (W : Type) (h : Handler W) (g1 : Globals) (w1 : W) (waitChannel : chan),
     fst (h _ (OngoingOperationMap_get (mount_lock_id s c)) (snd (h _ MapLock_Lock w1))) =
       Some waitChannel ->
     outcome (run h (ContainerMount s c) g1 w1) = Done (false, None) /\
     exists b,
       trace (run h (ContainerMount s c) g1 w1) =
       [Ev MapLock_Lock tt; Ev (OngoingOperationMap_get (mount_lock_id s c)) (Some waitChannel);
        Ev MapLock_Unlock tt; Ev (chan_recv waitChannel) b]).
Proof.
  intros Hf He Hm Hrun. rewrite callers_at_AtLock in Hrun.
  destruct (run_schedule_invariant (mount_invariant_start n Hf He Hm) Hrun)
    as (w & pcs & -> & (Hw & H1 & H2 & E1 & E2 & E3) & Hlen).
  cbn [pool_world threads]. rewrite length_replicate in Hlen.
  assert (Hret : forall i r, (at_pc s c <$> pcs) !! i = Some (Ret r) ->
            pcs !! i = Some WaitDone /\ r = (false, None) \/ pcs !! i = Some (OwnerDone r)).
  { intros i r Hi. rewrite list_lookup_fmap in Hi.
    destruct (pcs !! i) as [pc |] eqn:Hpc; [| discriminate Hi].
    injection Hi as Hi. destruct (at_pc_Ret Hi) as [(-> & ->) | ->]; auto. }
  assert (Htrue : forall i e, (at_pc s c <$> pcs) !! i = Some (Ret (true, e)) ->
            pcs !! i = Some (OwnerDone (true, e))).
  { intros i e Hi. destruct (Hret _ _ Hi) as [(_ & Habs) | Hi']; [discriminate Habs | exact Hi']. }
  destruct Hw as (_ & _ & Hc & Hm0 & Hm1).
  repeat match goal with |- _ /\ _ => split end.
  - destruct Hc as [-> | (-> & _)]; lia.
  - intros i j e1 e2 Hi Hj. apply Htrue in Hi, Hj.
    destruct (decide (i = j)) as [| Hne]; [assumption |].
    destruct (H2 _ _ _ _ Hne Hi Hj) as (_ & _ & Habs). exfalso. apply Habs; reflexivity.
  - intros Hmounted. destruct (Hm0 Hmounted) as (_ & Hcalls). split; [exact Hcalls |].
    intros i e Hi. apply Htrue in Hi.
    destruct (H1 _ _ Hi) as (_ & _ & _ & _ & Hone & _).
    specialize (Hone eq_refl). lia.
  - intros Hunmounted Hn Hall Hnoerr.
    assert (Hdone : forall i pc, pcs !! i = Some pc ->
              pc = WaitDone \/ exists r, pc = OwnerDone r).
    { intros i pc Hi.
      assert (Hi' : (at_pc s c <$> pcs) !! i = Some (at_pc s c pc))
        by (rewrite list_lookup_fmap, Hi; reflexivity).
      destruct (all_returned_lookup (st := {| pool_globals := g; pool_world := w;
                  threads := at_pc s c <$> pcs |}) Hall Hi') as (r & Hr).
      destruct (at_pc_Ret Hr) as [(-> & _) | ->]; eauto. }
    assert (Howner : exists j r, pcs !! j = Some (OwnerDone r)).
    { destruct (pcs !! 0) as [pc0 |] eqn:H0.
      - destruct (Hdone _ _ H0) as [-> | (r & ->)]; [| eauto].
        destruct E2 as (j & pcj & Hj & Hown); [exists 0, WaitDone; auto |].
        destruct (Hdone _ _ Hj) as [-> | (r & ->)]; [discriminate Hown | eauto].
      - apply lookup_ge_None in H0. lia. }
    destruct Howner as (j & [b e] & Hj).
    assert (e = None) as ->.
    { apply (Hnoerr j b). rewrite list_lookup_fmap, Hj. reflexivity. }
    destruct (H1 _ _ Hj) as (_ & _ & _ & _ & _ & Hsucc). specialize (Hsucc eq_refl).
    destruct (Hm1 Hsucc) as [Habs | Hcalls]; [congruence |].
    split; [exact Hcalls |].
    destruct (E3 Hcalls) as (k & pck & Hk & Hkt).
    destruct (Hdone _ _ Hk) as [-> | ([[] e] & ->)]; try discriminate Hkt.
    exists k. assert (Hk' : (at_pc s c <$> pcs) !! k = Some (Ret (true, e)))
      by (rewrite list_lookup_fmap, Hk; reflexivity).
    rewrite (Hnoerr _ _ _ Hk') in Hk'. exact Hk'.
  - intros W h g1 w1 ch Hfound. unfold ContainerMount. cbn.
    destruct (h _ MapLock_Lock w1) as [[] w2]. cbn in *.
    destruct (h _ (OngoingOperationMap_get _) w2) as [found w3]. cbn in *. subst found.
    cbn.
    destruct (h _ MapLock_Unlock w3) as [[] w4]. cbn.
    destruct (h _ (chan_recv ch) w4) as [b w5]. cbn.
    split; [reflexivity |]. exists b. reflexivity.
Qed.

End ConcurrentMount.

Lemma ContainerMount_concurrent_callers_mount_at_most_once_witness :
  exists st,
    run_schedule (world_handler pool1) schedule3
      (callers 3 (ContainerMount pool1 (a_container "pool1" "c1")) initial_globals world_c1)
      = Some st /\
    mount_calls (pool_world st) = S (mount_calls world_c1) /\
    (exists i, threads st !! i = Some (Ret (true, None))) /\
    outcome (run (world_handler pool1) (ContainerMount pool1 (a_container "pool1" "c1"))
               initial_globals world_c1_in_flight) = Done (false, None).
Proof.
  destruct (run_schedule (world_handler pool1) schedule3
              (callers 3 (ContainerMount pool1 (a_container "pool1" "c1"))
                 initial_globals world_c1)) as [st |] eqn:E;
    [| vm_compute in E; discriminate E].
  assert (Hsum : mount_summary
                   (run_schedule (world_handler pool1) schedule3
                      (callers 3 (ContainerMount pool1 (a_container "pool1" "c1"))
                         initial_globals world_c1))
                 = Some (2, [Some (true, None); Some (false, None); Some (false, None)]))
    by (vm_compute; reflexivity).
  assert (Hall : option_map all_returned
                   (run_schedule (world_handler pool1) schedule3
                      (callers 3 (ContainerMount pool1 (a_container "pool1" "c1"))
                         initial_globals world_c1)) = Some true)
    by (vm_compute; reflexivity).
  rewrite E in Hsum, Hall. cbn in Hsum, Hall.
  injection Hsum as _ Hres. injection Hall as Hall.
  exists st. split; [reflexivity |].
  destruct (@ContainerMount_concurrent_callers_mount_at_most_once
              pool1 (a_container "pool1" "c1") 3 schedule3 initial_globals world_c1 st)
    as (_ & _ & _ & Hone & Hwait).
  - vm_compute. reflexivity.
  - vm_compute. reflexivity.
  - vm_compute. reflexivity.
  - exact E.
  - destruct Hone as (Hcalls & Hi).
    + vm_compute. reflexivity.
    + lia.
    + exact Hall.
    + intros i b e H.
      assert (H' : map returned (threads st) !! i = Some (Some (b, e))).
      { change (map returned (threads st)) with (returned <$> threads st).
        rewrite list_lookup_fmap, H. reflexivity. }
      rewrite Hres in H'.
      destruct i as [| [| [| i]]]; simpl in H'; try discriminate H';
        injection H' as _ <-; reflexivity.
    + split; [exact Hcalls |]. split; [exact Hi |].
      apply (Hwait World (world_handler pool1) initial_globals world_c1_in_flight 7).
      vm_compute. reflexivity.
Defined.

(** Where the claim as written fails: when [mount(2)] answers [EBUSY] two
    callers, one after the other, both call it; and when the dataset is
    mounted already no caller returns [ourMount = true]. *)
Lemma ContainerMount_concurrent_callers_can_mount_twice :
  mount_calls world_c1_busy = 1 /\
  mount_summary
    (run_schedule (world_handler pool1) (replicate 13 0 ++ replicate 13 1)
       (callers 2 (ContainerMount pool1 (a_container "pool1" "c1"))
          initial_globals world_c1_busy))
  = Some (3, [Some (false, Some EBUSY); Some (false, Some EBUSY)]) /\
  mount_calls world_c1_mounted = 2 /\
  mount_summary
    (run_schedule (world_handler pool1) (replicate 12 0 ++ replicate 12 1)
       (callers 2 (ContainerMount pool1 (a_container "pool1" "c1"))
          initial_globals world_c1_mounted))
  = Some (2, [Some (false, None); Some (false, None)]).
Proof.
  repeat match goal with |- _ /\ _ => split end; vm_compute; reflexivity.
Qed.

(** ** The mutex and the operation map *)

(** X1: every run of [ContainerMount], [ContainerUmount],
    [StoragePoolVolumeMount] and [StoragePoolVolumeUmount], whatever the
    calls answer, takes and releases [lxdStorageMapLock] in turns and ends
    with it released; the operation map and its channels are touched only
    while it is held, and every other call (the mount and unmount
    commands, the filesystem, the receive on a wait channel) is made
    while it is not. *)
Theorem mount_entry_points_keep_mutex_discipline (W : Type) (h : Handler W)
    (s : storageZfs) (c : container) (name path : string) (g : Globals) (w : W) :
  mutex_discipline false (trace (run h (ContainerMount s c) g w)) = true /\
  mutex_discipline false (trace (run h (ContainerUmount s name path) g w)) = true /\
  mutex_discipline false (trace (run h (StoragePoolVolumeMount s) g w)) = true /\
  mutex_discipline false (trace (run h (StoragePoolVolumeUmount s) g w)) = true.
Proof.
  repeat match goal with |- _ /\ _ => split end.
  - unfold ContainerMount. cbn. symex h; reflexivity.
  - unfold ContainerUmount. cbn. symex h; reflexivity.
  - unfold StoragePoolVolumeMount. cbn. symex h; reflexivity.
  - unfold StoragePoolVolumeUmount. cbn. symex h; reflexivity.
Qed.

(** X2: what a call of one of the four mount and unmount entry points
    does to the operation map, whatever the calls answer and however its
    work ends: either it finds an operation under its key and only
    receives from that channel, or it finds none, makes a channel, stores
    it under the key and, at the end, looks the key up again and closes
    and deletes what it finds -- also when the mount point could not be
    made or the mount or unmount failed. *)
Theorem mount_entry_points_follow_protocol (W : Type) (h : Handler W)
    (s : storageZfs) (c : container) (name path : string) (g : Globals) (w : W) :
  mount_protocol (getContainerMountLockID (pool_Name s) (Name c))
    (map_events (trace (run h (ContainerMount s c) g w))) /\
  mount_protocol (getContainerUmountLockID (pool_Name s) name)
    (map_events (trace (run h (ContainerUmount s name path) g w))) /\
  mount_protocol (getCustomMountLockID (pool_Name s) (volume_Name s))
    (map_events (trace (run h (StoragePoolVolumeMount s) g w))) /\
  mount_protocol (getCustomUmountLockID (pool_Name s) (volume_Name s))
    (map_events (trace (run h (StoragePoolVolumeUmount s) g w))).
Proof.
  unfold mount_protocol, release_events.
  repeat match goal with |- _ /\ _ => split end.
  - unfold ContainerMount. cbn. symex h.
    all: first [ left; eexists; reflexivity
               | right; eexists; exists None; reflexivity
               | right; eexists; eexists (Some _); reflexivity ].
  - unfold ContainerUmount. cbn. symex h.
    all: first [ left; eexists; reflexivity
               | right; eexists; exists None; reflexivity
               | right; eexists; eexists (Some _); reflexivity ].
  - unfold StoragePoolVolumeMount. cbn. symex h.
    all: first [ left; eexists; reflexivity
               | right; eexists; exists None; reflexivity
               | right; eexists; eexists (Some _); reflexivity ].
  - unfold StoragePoolVolumeUmount. cbn. symex h.
    all: first [ left; eexists; reflexivity
               | right; eexists; exists None; reflexivity
               | right; eexists; eexists (Some _); reflexivity ].
Qed.

(** ** Unmounting, and mounting a custom volume *)

(** X3: [ContainerUmount], [StoragePoolVolumeUmount] and
    [StoragePoolVolumeMount] issue at most one dataset command: none, and
    they return [false, nil]; or the one unmount (mount) of their dataset,
    and they return [true, nil] when it succeeded and [false] with its
    error when it failed. *)
Theorem volume_mount_and_unmount_results (W : Type) (h : Handler W)
    (s : storageZfs) (name path : string) (g : Globals) (w : W) :
  let result (x : goerr) : Outcome (bool * goerr) :=
    Done match x with None => (true, None) | Some e => (false, Some e) end in
  let quiet (r : Result W (bool * goerr)) :=
    zfs_ops (trace r) = [] /\ outcome r = Done (false, None) in
  (let r := run h (ContainerUmount s name path) g w in
   quiet r \/
   exists x, zfs_ops (trace r) =
               [(OpUmount ("containers/" +:+ name)
                   (getContainerMountPoint (pool_Name s) name), x)] /\
             outcome r = result x) /\
  (let r := run h (StoragePoolVolumeUmount s) g w in
   quiet r \/
   exists x, zfs_ops (trace r) =
               [(OpUmount ("custom/" +:+ volume_Name s)
                   (getStoragePoolVolumeMountPoint (pool_Name s) (volume_Name s)), x)] /\
             outcome r = result x) /\
  (let r := run h (StoragePoolVolumeMount s) g w in
   quiet r \/
   exists x, zfs_ops (trace r) = [(OpMount ("custom/" +:+ volume_Name s), x)] /\
             outcome r = result x).
Proof.
  cbv zeta. repeat match goal with |- _ /\ _ => split end.
  - unfold ContainerUmount. cbn. symex h.
    all: first [ left; split; reflexivity | right; eexists; split; reflexivity ].
  - unfold StoragePoolVolumeUmount. cbn. symex h.
    all: first [ left; split; reflexivity | right; eexists; split; reflexivity ].
  - unfold StoragePoolVolumeMount. cbn. symex h.
    all: first [ left; split; reflexivity | right; eexists; split; reflexivity ].
Qed.

(** ** Volume update *)

(** X4: [StoragePoolVolumeUpdate] returns [nil] exactly when the changed
    keys contain none of [block.mount_options], [block.filesystem] and
    [size]. *)
Theorem StoragePoolVolumeUpdate_ok_iff_no_rejected_key (changedConfig : list string) :
  StoragePoolVolumeUpdate changedConfig = None <->
  forall k, In k volume_rejected_keys -> ~ In k changedConfig.
Proof.
  unfold StoragePoolVolumeUpdate, volume_rejected_keys. split.
  - intros H k Hk Hin.
    repeat match type of H with
           | (if StringInSlice ?key ?l then _ else _) = _ =>
               destruct (StringInSlice key l) eqn:?; [discriminate H |]
           end.
    cbn in Hk.
    repeat match goal with
           | H0 : _ \/ _ |- _ => destruct H0 as [<- | H0]
           | H0 : False |- _ => destruct H0
           | H0 : StringInSlice ?key _ = false |- _ =>
               apply StringInSlice_false in H0
           end; contradiction.
  - intros H.
    repeat match goal with
           | |- (if StringInSlice ?key ?l then _ else _) = _ =>
               destruct (StringInSlice key l) eqn:E;
               [ apply StringInSlice_In in E; exfalso; apply (H key); cbn; tauto | clear E ]
           end.
    reflexivity.
Qed.

(** ** Restore without snapshots *)

Lemma panics_on_empty_defer (W : Type) (h : Handler W) (c : container) (b : bool)
    (body : Prog goerr) (g : Globals) (w : W) :
  panics_on_empty (run h body g w) ->
  panics_on_empty (run h (defer_if b (call (StorageStop c)) body) g w).
Proof.
  destruct b; [| auto]. cbn [defer_if].
  destruct (@defer_StorageStop_run _ _ h c body g w) as (Hs & _ & _ & Ho).
  unfold panics_on_empty. rewrite Hs, Ho. auto.
Qed.

Lemma panics_on_empty_StorageStart (W : Type) (h : Handler W) (c : container)
    (k : bool * goerr -> Prog goerr) (g : Globals) (w : W) :
  (forall x w1, panics_on_empty (run h (k x) g w1)) ->
  panics_on_empty (run h (Vis (StorageStart c) k) g w).
Proof.
  intros H. cbn [run].
  destruct (step h (StorageStart c) g w) as [[x g1] w1] eqn:E.
  assert (g1 = g) by (cbn in E; congruence). subst g1.
  unfold panics_on_empty, add_event, snapshots_answers. cbn [trace outcome].
  rewrite omap_cons_eq. cbn. apply H.
Qed.

(** X5: [ContainerCanRestore] and [ContainerRestore] index the snapshot
    list at [len(snaps)-1] without looking at its length: a run in which
    [Snapshots()] answers the empty list ends in the panic of an index out
    of range. *)
Theorem restore_of_a_container_without_snapshots_panics (W : Type) (h : Handler W)
    (s : storageZfs) (c source : container) (g : Globals) (w : W) :
  (snapshots_answers (trace (run h (ContainerCanRestore s c source) g w)) = [([], None)] ->
   outcome (run h (ContainerCanRestore s c source) g w) = Panicked "index out of range") /\
  (snapshots_answers (trace (run h (ContainerRestore s c source) g w)) = [([], None)] ->
   outcome (run h (ContainerRestore s c source) g w) = Panicked "index out of range").
Proof.
  split.
  - unfold ContainerCanRestore. cbn [bind call run].
    destruct (step h (Snapshots c) g w) as [[[l e] g'] w'].
    unfold add_event, snapshots_answers. cbn [trace outcome fst snd].
    rewrite omap_cons_eq. cbn.
    destruct e as [e |]; cbn; [discriminate |].
    destruct l as [| c0 l]; [reflexivity |].
    intros H. exfalso. destruct (last (c0 :: l)); cbn in H; discriminate H.
  - change (panics_on_empty (run h (ContainerRestore s c source) g w)).
    unfold ContainerRestore.
    destruct (containerGetParentAndSnapshotName (Name source)) as [[cN sN] b].
    cbn [bind call].
    apply panics_on_empty_StorageStart. intros [b1 [e1 |]] w1; cbn [fst snd].
    { intros H. discriminate H. }
    apply panics_on_empty_defer. cbn [bind call].
    apply panics_on_empty_StorageStart. intros [b2 [e2 |]] w2; cbn [fst snd].
    { intros H. discriminate H. }
    apply panics_on_empty_defer. cbn [bind call]. cbn [run].
    destruct (step h (Snapshots c) g w2) as [[[l e3] g'] w3].
    unfold panics_on_empty, add_event, snapshots_answers. cbn [trace outcome fst snd].
    rewrite omap_cons_eq. cbn [fst snd].
    destruct e3 as [e3 |]; [cbn; discriminate |].
    destruct l as [| c0 l]; [reflexivity |].
    cbn. intros H. discriminate H.
Qed.

Lemma restore_of_a_container_without_snapshots_panics_witness :
  outcome (run (world_handler pool1)
             (ContainerCanRestore pool1 (a_container "pool1" "c1")
                (a_snapshot "pool1" "c1" "s1")) initial_globals world_c1)
  = Panicked "index out of range" /\
  outcome (run (world_handler pool1)
             (ContainerRestore pool1 (a_container "pool1" "c1")
                (a_snapshot "pool1" "c1" "s1")) initial_globals world_c1)
  = Panicked "index out of range".
Proof.
  destruct (@restore_of_a_container_without_snapshots_panics
              World (world_handler pool1) pool1 (a_container "pool1" "c1")
              (a_snapshot "pool1" "c1" "s1") initial_globals world_c1) as (H1 & H2).
  split; [apply H1 | apply H2]; vm_compute; reflexivity.
Defined.

(** ** Deleting a snapshot *)

Lemma no_pool_call_observed (t : list Event) :
  existsb (event_is is_pool_call) t = false ->
  zfs_ops t = [] /\ uuid_answers t = [] /\ removable_answers t = [].
Proof.
  induction t as [| [X c x] t IH]; [auto |].
  cbn [existsb event_is]. intros H. apply orb_false_iff in H as [Hc Ht].
  destruct (IH Ht) as (Hz & Hu & Hr).
  unfold zfs_ops, uuid_answers, removable_answers in *.
  rewrite !omap_cons_eq. destruct c; try discriminate Hc; auto.
Qed.

Ltac never_pool_tac :=
  repeat (cbn [never_calls bind call is_pool_call];
          match goal with
          | |- never_calls _ (bind _ _) => apply never_calls_bind
          | |- never_calls _ (match ?x with _ => _ end) => destruct x
          | |- never_calls _ (if ?x then _ else _) => destruct x
          | |- _ /\ _ => split
          | |- forall _, _ => intro
          | |- True => exact I
          | |- _ = _ => reflexivity
          end).


(** ** Creating a custom volume *)


(** ** Starting and stopping a snapshot *)

(** X8: [ContainerSnapshotStart] clones the snapshot to
    [snapshots/<parent>/<name>] and then mounts the clone; it returns
    [true] only when both succeeded, and when the mount fails the clone is
    left in place.  [ContainerSnapshotStop] issues one command, the
    destroy of that same dataset, and returns [true] exactly when it
    succeeded. *)
Theorem ContainerSnapshotStop_destroys_the_clone_of_ContainerSnapshotStart
    (W : Type) (h : Handler W) (s : storageZfs) (c : container)
    (g g' : Globals) (w w' : W) :
  let start := run h (ContainerSnapshotStart s c) g w in
  let stop := run h (ContainerSnapshotStop s c) g' w' in
  let parent := fst (fst (containerGetParentAndSnapshotName (Name c))) in
  let snap := snd (fst (containerGetParentAndSnapshotName (Name c))) in
  let clone := OpClone ("containers/" +:+ parent) ("snapshot-" +:+ snap)
                 ("snapshots/" +:+ parent +:+ "/" +:+ snap)
                 (getSnapshotMountPoint (pool_Name s) (Name c)) in
  let dest := "snapshots/" +:+ parent +:+ "/" +:+ snap in
  ((exists e, zfs_ops (trace start) = [(clone, Some e)] /\
              outcome start = Done (false, Some e)) \/
   (exists e, zfs_ops (trace start) = [(clone, None); (OpMount dest, Some e)] /\
              outcome start = Done (false, Some e)) \/
   (zfs_ops (trace start) = [(clone, None); (OpMount dest, None)] /\
    outcome start = Done (true, None))) /\
  exists x, zfs_ops (trace stop) = [(OpDestroy dest, x)] /\
            outcome stop = Done match x with
                                | None => (true, None)
                                | Some e => (false, Some e)
                                end.
Proof.
  cbv zeta. unfold ContainerSnapshotStart, ContainerSnapshotStop.
  destruct (containerGetParentAndSnapshotName (Name c)) as [[p q] b].
  cbn. symex h.
  all: split;
    [ first [ left; eexists; split; reflexivity
            | right; left; eexists; split; reflexivity
            | right; right; split; reflexivity ]
    | eexists; split; reflexivity ].
Qed.

(** ** Quota and usage *)

(** X9: started from the same value of [zfsUseRefquota], with the same
    configuration, [ContainerSetQuota] and [ContainerGetUsage] agree on
    the accounting: the quota is set as [refquota] exactly when the usage
    is read from [usedbydataset], and as [quota] when it is read from
    [used].  The value set is the decimal size when the size is positive
    and [none] otherwise, and the result of [ContainerSetQuota] is the
    answer of that one command. *)
Theorem quota_and_usage_use_the_same_accounting (W1 W2 : Type) (h1 : Handler W1)
    (h2 : Handler W2) (s : storageZfs) (c : container) (size : Z) (g : Globals)
    (w1 : W1) (w2 : W2) :
  let quota := run h1 (ContainerSetQuota s c size) g w1 in
  let usage := run h2 (ContainerGetUsage s c) g w2 in
  let fs := "containers/" +:+ Name c in
  let value := if (size >? 0)%Z then Sprintf_d size else "none" in
  exists x,
    outcome quota = Done x /\
    ((zfs_ops (trace quota) = [(OpSet fs "refquota" value, x)] /\
      property_queries (trace usage) = [(fs, "usedbydataset")]) \/
     (zfs_ops (trace quota) = [(OpSet fs "quota" value, x)] /\
      property_queries (trace usage) = [(fs, "used")])).
Proof.
  cbv zeta. unfold ContainerSetQuota, ContainerGetUsage, resolve_use_refquota, when.
  destruct (negb (String.eqb (cfg (pool_Config s) "volume.zfs.use_refquota") ""));
    destruct (negb (String.eqb (cfg (volume_Config s) "zfs.use_refquota") ""));
    cbn.
  all: match goal with
       | |- context [IsTrue ?v] => destruct (IsTrue v)
       end.
  all: destruct (size >? 0)%Z; cbn.
  all: symex h1; symex h2.
  all: repeat match goal with
         | |- context [ParseInt ?x] => destruct (ParseInt x) as [? [? |]]
         end; cbn.
  all: eexists; split; [reflexivity |].
  all: first [ left; split; reflexivity | right; split; reflexivity ].
Qed.

(** ** Copy on one pool *)

Lemma returns_bind (A B : Type) (p : Prog A) (f : A -> Prog B) :
  returns p -> (forall a, returns (f a)) -> returns (bind p f).
Proof.
  intros Hp Hf. induction p as [a | X c k IH | msg]; cbn in *; auto.
Qed.

Lemma returns_run (W A : Type) (h : Handler W) (p : Prog A) (g : Globals) (w : W) :
  returns p -> exists a, outcome (run h p g w) = Done a.
Proof.
  revert g w. induction p as [a | X c k IH | msg]; intros g w Hp; cbn in *.
  - eauto.
  - destruct (step h c g w) as [[x g'] w']. cbn. apply IH, Hp.
  - destruct Hp.
Qed.

Ltac returns_tac :=
  repeat (cbn [returns bind call];
          match goal with
          | |- returns (bind _ _) => apply returns_bind
          | |- returns (defer _ _) => unfold defer
          | |- returns (defer_if ?b _ _) => destruct b; cbn [defer_if]
          | |- returns (with_revert _ _) => unfold with_revert
          | |- returns (match ?x with _ => _ end) => destruct x
          | |- returns (if ?x then _ else _) => destruct x
          | |- _ /\ _ => split
          | |- forall _, _ => intro
          | |- True => exact I
          end).

Lemma ContainerMount_returns (s : storageZfs) (c : container) :
  returns (ContainerMount s c).
Proof. unfold ContainerMount, removeLockFromMap. returns_tac. Qed.

Lemma ContainerUmount_returns (s : storageZfs) (name path : string) :
  returns (ContainerUmount s name path).
Proof. unfold ContainerUmount, removeLockFromMap. returns_tac. Qed.

Lemma ContainerDelete_removable_returns (fs : string) (snaps : list string) (b : bool) :
  returns (ContainerDelete_removable fs snaps b).
Proof.
  revert b. induction snaps as [| snap rest IH]; intros b; [exact I |].
  cbn [ContainerDelete_removable]. returns_tac; apply IH.
Qed.

Lemma ContainerDelete_returns (s : storageZfs) (c : container) :
  returns (ContainerDelete s c).
Proof.
  unfold ContainerDelete. returns_tac; try apply ContainerDelete_removable_returns.
Qed.

Lemma ContainerCreate_returns (s : storageZfs) (c : container) :
  returns (ContainerCreate s c).
Proof.
  unfold ContainerCreate.
  returns_tac; first [ apply ContainerMount_returns | apply ContainerUmount_returns
                     | apply ContainerDelete_returns ].
Qed.

Lemma copyWithoutSnapshotsSparse_returns (s : storageZfs) (target source : container) :
  returns (copyWithoutSnapshotsSparse s target source).
Proof.
  unfold copyWithoutSnapshotsSparse.
  destruct (containerGetParentAndSnapshotName (Name source)) as [[p q] b].
  returns_tac;
    first [ apply ContainerMount_returns | apply ContainerUmount_returns
          | apply ContainerDelete_returns | apply ContainerCreate_returns ].
Qed.

Lemma copyWithoutSnapshotFull_returns (s : storageZfs) (target source : container) :
  returns (copyWithoutSnapshotFull s target source).
Proof.
  unfold copyWithoutSnapshotFull, send_receive.
  destruct (containerGetParentAndSnapshotName (Name source)) as [[p q] b].
  returns_tac; first [ apply ContainerMount_returns | apply ContainerUmount_returns ].
Qed.

(** X10: on one pool, when the source's storage starts and its snapshots
    are listed, a copy of the container alone ([containerOnly], or a
    source without snapshots) returns [nil] whatever
    [copyWithoutSnapshotsSparse] or [copyWithoutSnapshotFull] returned:
    their error is assigned and not looked at again. *)
Theorem ContainerCopy_returns_nil_whatever_the_copy_does (W : Type) (h : Handler W)
    (s : storageZfs) (target source : container) (containerOnly : bool)
    (g : Globals) (w w1 : W) (ourStart : bool) (snapshots : list container) :
  StoragePool source = StoragePool target ->
  h _ (StorageStart source) w = ((ourStart, None), w1) ->
  fst (h _ (Snapshots source) w1) = (snapshots, None) ->
  containerOnly = true \/ snapshots = [] ->
  outcome (run h (ContainerCopy s target source containerOnly) g w) = Done None.
Proof.
  intros Hpool Hstart Hsnaps Hmode. unfold ContainerCopy.
  cbn [bind call run step]. rewrite Hstart. cbn [fst snd].
  unfold add_event. cbn [outcome].
  match goal with
  | |- outcome (run h (defer_if _ _ ?body) _ _) = _ =>
      assert (Hbody : outcome (run h body g w1) = Done None)
  end.
  { rewrite Hpool, String.eqb_refl. cbn [negb bind call run step].
    destruct (h _ (Snapshots source) w1) as [[l e] w2]. cbn in Hsnaps.
    injection Hsnaps as -> ->. cbn [fst snd]. unfold add_event. cbn [outcome].
    assert (Hif : containerOnly || (length snapshots =? 0)%nat = true).
    { destruct Hmode as [-> | ->]; [reflexivity | apply orb_true_r]. }
    rewrite Hif. rewrite run_bind.
    match goal with
    | |- outcome (and_then (run h ?p g w2) _) = _ =>
        destruct (@returns_run _ _ h p g w2) as (a & Ha)
    end.
    { destruct (negb (String.eqb (cfg (pool_Config s) "zfs.clone_copy") "")
                && negb (IsTrue (cfg (pool_Config s) "zfs.clone_copy")));
        [apply copyWithoutSnapshotFull_returns | apply copyWithoutSnapshotsSparse_returns]. }
    unfold and_then. rewrite Ha. reflexivity. }
  destruct ourStart; cbn [defer_if]; [| exact Hbody].
  match goal with
  | |- outcome (run h (defer _ ?body) _ _) = _ =>
      destruct (@defer_StorageStop_run _ _ h source body g w1) as (_ & _ & _ & Ho)
  end.
  rewrite Ho. exact Hbody.
Qed.

Lemma ContainerCopy_returns_nil_whatever_the_copy_does_witness :
  some_command_failed
    (trace (run (world_handler pool1)
              (ContainerCopy pool1 (a_container "pool1" "c1") (a_container "pool1" "c1") true)
              initial_globals world_c1)) = true /\
  outcome (run (world_handler pool1)
             (ContainerCopy pool1 (a_container "pool1" "c1") (a_container "pool1" "c1") true)
             initial_globals world_c1) = Done None.
Proof.
  split; [vm_compute; reflexivity |].
  apply (@ContainerCopy_returns_nil_whatever_the_copy_does
           World (world_handler pool1) pool1 (a_container "pool1" "c1")
           (a_container "pool1" "c1") true initial_globals world_c1 world_c1 false []).
  - reflexivity.
  - reflexivity.
  - vm_compute. reflexivity.
  - left. reflexivity.
Defined.

(** ** Migration source *)

Lemma MigrationSource_loop_run (W : Type) (h : Handler W) (ct : container)
    (listed : list string) (d : zfsMigrationSourceDriver) (g : Globals) (w : W) :
  let r := run h (MigrationSource_loop ct listed d) g w in
  let names := List.filter (fun snap => HasPrefix snap "snapshot-") listed in
  list_answers (trace r) = [] /\
  ((exists e, outcome r = Done (None, Some e)) \/
   exists d',
     outcome r = Done (Some d', None) /\
     drv_container d' = drv_container d /\
     drv_runningSnapName d' = drv_runningSnapName d /\
     drv_stoppedSnapName d' = drv_stoppedSnapName d /\
     drv_zfsSnapshotNames d' = drv_zfsSnapshotNames d ++ names /\
     map fst (load_calls (trace r)) = map (snapshot_lxd_name ct) names /\
     drv_snapshots d' = drv_snapshots d ++ map (fun l => fst (snd l)) (load_calls (trace r))).
Proof.
  cbv zeta. revert d g w. induction listed as [| snap rest IH]; intros d g w.
  - cbn. split; [reflexivity |]. right. exists d. rewrite !app_nil_r. auto 10.
  - cbn [MigrationSource_loop List.filter].
    destruct (HasPrefix snap "snapshot-") eqn:Hp; cbn [negb].
    + cbn [bind call run].
      destruct (step h (containerLoadByName (Name ct +:+ SnapshotDelimiter
                                              +:+ string_from 9 snap)) g w)
        as [[[c0 e] g1] w1] eqn:Hstep.
      assert (g1 = g) by (cbn in Hstep; congruence). subst g1.
      cbn [fst snd]. destruct e as [e |].
      * cbn. split; [reflexivity |]. left. eauto.
      * unfold add_event. cbn [outcome trace].
        unfold list_answers, load_calls. rewrite !omap_cons_eq. cbn [fst snd].
        change (omap _ ?t) with (list_answers t) at 1.
        match goal with
        | |- context [run h (MigrationSource_loop ct rest ?d1) g w1] =>
            destruct (IH d1 g w1) as (Hl & [(e & Ho) | (d' & Ho & Hc & Hr & Hs & Hn & Hload & Hsn)])
        end.
        -- split; [exact Hl |]. left. eauto.
        -- split; [exact Hl |]. right. exists d'. cbn in Hc, Hr, Hs, Hn, Hsn.
           unfold load_calls in Hload, Hsn.
           repeat split; try assumption.
           ++ rewrite Hn, <- app_assoc. reflexivity.
           ++ cbn [map fst]. rewrite Hload. reflexivity.
           ++ rewrite Hsn, <- app_assoc. reflexivity.
    + apply IH.
Qed.

(** X11: the driver [MigrationSource] returns, whatever the calls answer.
    For a snapshot, or with [containerOnly], it makes no call and the
    driver names no snapshot.  Otherwise it lists the snapshots of
    [containers/<name>] once; the driver's [zfsSnapshotNames] are the
    listed names that start with [snapshot-], in the listed order, its
    [snapshots] are the records [containerLoadByName] gave for
    [<name>/<rest of the snapshot name>], one for each name and in the
    same order.  No temporary snapshot is named yet.  The only other
    result is an error, with no driver. *)
Theorem MigrationSource_lists_the_snapshots_in_step (W : Type) (h : Handler W)
    (s : storageZfs) (ct : container) (containerOnly : bool) (g : Globals) (w : W) :
  let r := run h (MigrationSource s ct containerOnly) g w in
  (exists e, outcome r = Done (None, Some e)) \/
  exists d,
    outcome r = Done (Some d, None) /\
    drv_container d = ct /\ drv_runningSnapName d = "" /\ drv_stoppedSnapName d = "" /\
    length (drv_snapshots d) = length (drv_zfsSnapshotNames d) /\
    if IsSnapshot ct || containerOnly then
      trace r = [] /\ drv_zfsSnapshotNames d = []
    else
      exists listed,
        list_answers (trace r) = [(listed, None)] /\
        drv_zfsSnapshotNames d
        = List.filter (fun snap => HasPrefix snap "snapshot-") listed /\
        map fst (load_calls (trace r))
        = map (snapshot_lxd_name ct) (drv_zfsSnapshotNames d) /\
        drv_snapshots d = map (fun l => fst (snd l)) (load_calls (trace r)).
Proof.
  cbv zeta. unfold MigrationSource.
  destruct (IsSnapshot ct); [right; eexists; cbn; repeat split; reflexivity |].
  destruct containerOnly; [right; eexists; cbn; repeat split; reflexivity |].
  cbn [orb bind call run].
  destruct (step h (zfsPoolListSnapshots ("containers/" +:+ Name ct)) g w)
    as [[[listed e] g1] w1] eqn:Hstep.
  assert (g1 = g) by (cbn in Hstep; congruence). subst g1.
  cbn [fst snd]. destruct e as [e |]; [left; cbn; eauto |].
  unfold add_event. cbn [outcome trace].
  match goal with
  | |- context [run h (MigrationSource_loop ct listed ?d0) g w1] =>
      destruct (@MigrationSource_loop_run _ h ct listed d0 g w1)
        as (Hl & [(e & Ho) | (d' & Ho & Hc & Hr & Hs & Hn & Hload & Hsn)])
  end; [left; eauto |].
  right. exists d'. cbn in Hc, Hr, Hs, Hn, Hsn.
  unfold list_answers, load_calls in *. rewrite !omap_cons_eq. cbn [fst snd].
  repeat split; try assumption.
  - rewrite Hsn, Hn, length_map, <- (length_map fst), Hload, length_map. reflexivity.
  - exists listed. rewrite Hl. repeat split; try assumption.
    rewrite Hn. exact Hload.
Qed.

(** A [send]: it starts its one command, issues no dataset command and
    asks for no identifier. *)
Lemma send_run (W : Type) (h : Handler W) (s : storageZfs) (d : zfsMigrationSourceDriver)
    (zfsName zfsParent : string) (g : Globals) (w : W) :
  let r := run h (send s d zfsName zfsParent) g w in
  globals r = g /\ zfs_ops (trace r) = [] /\ uuid_answers (trace r) = [] /\
  created_snapshots (trace r) = [] /\
  exists e, outcome r = Done e /\
            (e = None ->
             started_cmds (trace r) = [(send_cmd s d zfsName zfsParent, None)]).
Proof.
  cbv zeta. unfold send. remember (send_cmd s d zfsName zfsParent) as cmd.
  cbn. symex h.
  all: repeat split; try reflexivity.
  all: eexists; split; [reflexivity | intros H; try discriminate H; reflexivity].
Qed.

Lemma last_nonempty_default {A : Type} (l : list A) (a d d' : A) :
  List.last (a :: l) d = List.last (a :: l) d'.
Proof.
  revert a. induction l as [| b l IH]; intros a; [reflexivity |].
  change (List.last (b :: l) d = List.last (b :: l) d'). apply IH.
Qed.

Lemma SendWhileRunning_loop_run (W : Type) (h : Handler W) (s : storageZfs)
    (d : zfsMigrationSourceDriver) (names : list string) (prev : string)
    (g : Globals) (w : W) :
  let r := run h (SendWhileRunning_loop s d prev names) g w in
  globals r = g /\ zfs_ops (trace r) = [] /\ uuid_answers (trace r) = [] /\
  created_snapshots (trace r) = [] /\
  exists lastSnap e,
    outcome r = Done (lastSnap, e) /\
    (e = None ->
     lastSnap = List.last names prev /\
     started_cmds (trace r)
     = map (fun c => (c, None)) (incremental_sends s d prev names)).
Proof.
  cbv zeta. revert prev g w. induction names as [| snap rest IH]; intros prev g w.
  - cbn. repeat split; try reflexivity. exists prev, None. auto.
  - cbn [SendWhileRunning_loop incremental_sends map]. rewrite run_bind.
    destruct (@send_run _ h s d snap prev g w) as (Hg & Hz & Hu & Hc & e & Ho & Hs).
    destruct (run h (send s d snap prev) g w) as [o g1 w1 t].
    cbn [globals outcome trace] in *. subst g1 o.
    rewrite and_then_Done. unfold prepend.
    destruct e as [e |].
    + cbn. unfold zfs_ops, uuid_answers, created_snapshots in *.
      rewrite !app_nil_r. repeat split; try assumption.
      exists snap, (Some e). split; [reflexivity | discriminate].
    + destruct (IH snap g w1) as (Hg' & Hz' & Hu' & Hc' & lastSnap & e' & Ho' & Hs').
      cbn [globals outcome trace].
      unfold zfs_ops, uuid_answers, created_snapshots, started_cmds in *.
      rewrite !omap_app, Hz, Hu, Hc, Hz', Hu', Hc'.
      repeat split; try assumption; try reflexivity.
      exists lastSnap, e'. split; [exact Ho' |].
      intros He. destruct (Hs' He) as (Hl & Hst). rewrite (Hs eq_refl), Hst.
      split; [| reflexivity].
      rewrite Hl. destruct rest as [| snap' rest]; [reflexivity |].
      change (List.last (snap' :: rest) snap = List.last (snap' :: rest) prev).
      apply last_nonempty_default.
Qed.

(** X12: a [SendWhileRunning] of a container (not a snapshot) that returns
    [nil] has started these commands and no other, in this order: a
    [zfs send] of every snapshot in [zfsSnapshotNames] (none with
    [containerOnly]), the first in full and each later one as an increment
    ([-i]) on the one before it, and then the send of the snapshot
    [migration-send-<uuid>] it created on [containers/<name>], as an
    increment on the last of the snapshots (in full when there is none).
    The driver remembers that snapshot as [runningSnapName]. *)
Theorem SendWhileRunning_sends_the_snapshots_oldest_first (W : Type) (h : Handler W)
    (s : storageZfs) (d d' : zfsMigrationSourceDriver) (containerOnly : bool)
    (g : Globals) (w : W) :
  let r := run h (SendWhileRunning s d containerOnly) g w in
  let names := if containerOnly then [] else drv_zfsSnapshotNames d in
  IsSnapshot (drv_container d) = false ->
  outcome r = Done (d', None) ->
  exists u,
    uuid_answers (trace r) = [u] /\
    d' = set_runningSnapName d ("migration-send-" +:+ u) /\
    zfs_ops (trace r)
    = [(OpSnapshotCreate ("containers/" +:+ Name (drv_container d))
          ("migration-send-" +:+ u), None)] /\
    started_cmds (trace r)
    = map (fun c => (c, None))
        (incremental_sends s d "" names
         ++ [send_cmd s d ("migration-send-" +:+ u) (List.last names "")]).
Proof.
  cbv zeta. intros Hsnap. unfold SendWhileRunning. rewrite Hsnap.
  rewrite run_bind.
  assert (Hloop : let r := run h (if negb containerOnly
                                  then SendWhileRunning_loop s d "" (drv_zfsSnapshotNames d)
                                  else Ret ("", None)) g w in
            globals r = g /\ zfs_ops (trace r) = [] /\ uuid_answers (trace r) = [] /\
            exists lastSnap e,
              outcome r = Done (lastSnap, e) /\
              (e = None ->
               lastSnap = List.last (if containerOnly then [] else drv_zfsSnapshotNames d) "" /\
               started_cmds (trace r)
               = map (fun c => (c, None))
                   (incremental_sends s d ""
                      (if containerOnly then [] else drv_zfsSnapshotNames d)))).
  { destruct containerOnly; cbn [negb].
    - cbn. repeat split; try reflexivity. exists "", None. auto.
    - destruct (@SendWhileRunning_loop_run _ h s d (drv_zfsSnapshotNames d) "" g w)
        as (Hg & Hz & Hu & _ & Hrest). auto. }
  cbv zeta in Hloop. destruct Hloop as (Hg & Hz & Hu & lastSnap & e & Ho & Hs).
  destruct (run h (if negb containerOnly then _ else _) g w) as [o g1 w1 t].
  cbn [globals outcome trace] in *. subst g1 o.
  rewrite and_then_Done. unfold prepend. cbn [fst snd].
  destruct e as [e |]; [cbn; discriminate |].
  destruct (Hs eq_refl) as (Hlast & Hstarted). clear Hs.
  cbn [bind call run].
  destruct (step h uuid_NewRandom g w1) as [[u g2] w2] eqn:Hstep.
  assert (g2 = g) by (cbn in Hstep; congruence). subst g2.
  cbn [drv_container set_runningSnapName drv_runningSnapName].
  destruct (step h (zfsPoolVolumeSnapshotCreate _ _) g w2) as [[e1 g3] w3] eqn:Hstep2.
  assert (g3 = g) by (cbn in Hstep2; congruence). subst g3.
  destruct e1 as [e1 |]; [cbn; discriminate |].
  rewrite run_bind.
  match goal with
  | |- context [run h (send s ?d1 ?zn ?zp) g w3] =>
      destruct (@send_run _ h s d1 zn zp g w3) as (Hg' & Hz' & Hu' & _ & e2 & Ho' & Hs');
      destruct (run h (send s d1 zn zp) g w3) as [o' g4 w4 t']
  end.
  cbn [globals outcome trace] in *. subst g4 o'.
  rewrite and_then_Done. unfold prepend, add_event. cbn [outcome trace].
  destruct e2 as [e2 |]; [cbn; discriminate |].
  cbn [run outcome trace]. intros Hd. injection Hd as <-.
  exists u. unfold zfs_ops, uuid_answers, started_cmds in *.
  rewrite !omap_app, !omap_cons_eq. cbn [zfs_op fst snd].
  rewrite !omap_app, Hz, Hu, Hz', Hu', Hstarted, (Hs' eq_refl), <- Hlast.
  rewrite map_app. cbn [map].
  repeat split; reflexivity.
Qed.


Lemma SendWhileRunning_sends_the_snapshots_oldest_first_witness :
  exists u,
    started_cmds (trace (run (world_handler pool1)
                           (SendWhileRunning pool1 driver_c1_snaps false)
                           initial_globals world_c1_snaps))
    = [(["zfs"; "send"; "pool1/containers/c1@snapshot-s1"], None);
       (["zfs"; "send"; "pool1/containers/c1@snapshot-s2";
         "-i"; "pool1/containers/c1@snapshot-s1"], None);
       (["zfs"; "send"; "pool1/containers/c1@snapshot-s3";
         "-i"; "pool1/containers/c1@snapshot-s2"], None);
       (["zfs"; "send"; "pool1/containers/c1@migration-send-" +:+ u;
         "-i"; "pool1/containers/c1@snapshot-s3"], None)].
Proof.
  destruct (@SendWhileRunning_sends_the_snapshots_oldest_first _ (world_handler pool1)
              pool1 driver_c1_snaps
              (set_runningSnapName driver_c1_snaps
                 ("migration-send-" +:+ uuid_of (next_uuid world_c1_snaps)))
              false initial_globals world_c1_snaps)
    as (u & _ & _ & _ & Hs).
  - reflexivity.
  - vm_compute. reflexivity.
  - exists u. rewrite Hs. reflexivity.
Defined.

(** A send creates at most the snapshot it sends, and so names it in the
    driver. *)
Lemma SendWhileRunning_created (W : Type) (h : Handler W) (s : storageZfs)
    (d : zfsMigrationSourceDriver) (containerOnly : bool) (g : Globals) (w : W) :
  let r := run h (SendWhileRunning s d containerOnly) g w in
  exists d' e,
    outcome r = Done (d', e) /\ globals r = g /\
    drv_container d' = drv_container d /\
    drv_stoppedSnapName d' = drv_stoppedSnapName d /\
    ((d' = d /\ created_snapshots (trace r) = []) \/
     (exists u,
        drv_runningSnapName d' = "migration-send-" +:+ u /\
        created_snapshots (trace r)
        = [("containers/" +:+ Name (drv_container d), "migration-send-" +:+ u)])).
Proof.
  cbv zeta. unfold SendWhileRunning.
  destruct (IsSnapshot (drv_container d)).
  { destruct (containerGetParentAndSnapshotName _) as [[p sn] b].
    rewrite run_bind.
    destruct (@send_run _ h s d ("snapshot-" +:+ sn) "" g w) as (Hg & _ & _ & Hc & e & Ho & _).
    destruct (run h (send s d _ _) g w) as [o g1 w1 t].
    cbn [globals outcome trace] in *. subst g1 o.
    rewrite and_then_Done. unfold prepend. cbn.
    exists d, e. rewrite app_nil_r. auto 10. }
  rewrite run_bind.
  assert (Hloop : let r := run h (if negb containerOnly
                                  then SendWhileRunning_loop s d "" (drv_zfsSnapshotNames d)
                                  else Ret ("", None)) g w in
            globals r = g /\ created_snapshots (trace r) = [] /\
            exists lastSnap e, outcome r = Done (lastSnap, e)).
  { destruct containerOnly; cbn [negb].
    - cbn. repeat split; try reflexivity. exists "", None. auto.
    - destruct (@SendWhileRunning_loop_run _ h s d (drv_zfsSnapshotNames d) "" g w)
        as (Hg & _ & _ & Hc & l & e & Ho & _). eauto 10. }
  cbv zeta in Hloop. destruct Hloop as (Hg & Hc & lastSnap & e & Ho).
  destruct (run h (if negb containerOnly then _ else _) g w) as [o g1 w1 t].
  cbn [globals outcome trace] in *. subst g1 o.
  rewrite and_then_Done. unfold prepend. cbn [fst snd].
  destruct e as [e |].
  { cbn. exists d, (Some e). rewrite app_nil_r. auto 10. }
  cbn [bind call run].
  destruct (step h uuid_NewRandom g w1) as [[u g2] w2] eqn:Hstep.
  assert (g2 = g) by (cbn in Hstep; congruence). subst g2.
  cbn [drv_container set_runningSnapName drv_runningSnapName].
  destruct (step h (zfsPoolVolumeSnapshotCreate _ _) g w2) as [[e1 g3] w3] eqn:Hstep2.
  assert (g3 = g) by (cbn in Hstep2; congruence). subst g3.
  unfold created_snapshots in *.
  destruct e1 as [e1 |].
  { cbn [run add_event outcome globals trace].
    eexists _, _. split; [reflexivity |]. repeat split. right. exists u.
    rewrite omap_app, Hc. split; reflexivity. }
  rewrite run_bind.
  match goal with
  | |- context [run h (send s ?d1 ?zn ?zp) g w3] =>
      destruct (@send_run _ h s d1 zn zp g w3) as (Hg' & _ & _ & Hc' & e2 & Ho' & _);
      destruct (run h (send s d1 zn zp) g w3) as [o' g4 w4 t']
  end.
  cbn [globals outcome trace] in *. subst g4 o'.
  rewrite and_then_Done. unfold prepend, add_event. cbn [outcome trace globals].
  unfold created_snapshots in Hc'.
  destruct e2 as [e2 |]; cbn [run outcome trace globals].
  all: eexists _, _; (split; [reflexivity |]); repeat split; right; exists u.
  all: rewrite !omap_app, Hc, !omap_cons_eq; cbn [fst snd]; rewrite omap_app, Hc'.
  all: split; reflexivity.
Qed.

Lemma SendAfterCheckpoint_created (W : Type) (h : Handler W) (s : storageZfs)
    (d : zfsMigrationSourceDriver) (g : Globals) (w : W) :
  let r := run h (SendAfterCheckpoint s d) g w in
  exists d' e u,
    outcome r = Done (d', e) /\ globals r = g /\
    d' = set_stoppedSnapName d ("migration-send-" +:+ u) /\
    created_snapshots (trace r)
    = [("containers/" +:+ Name (drv_container d), "migration-send-" +:+ u)].
Proof.
  cbv zeta. unfold SendAfterCheckpoint. cbn [bind call run].
  destruct (step h uuid_NewRandom g w) as [[u g2] w2] eqn:Hstep.
  assert (g2 = g) by (cbn in Hstep; congruence). subst g2.
  cbn [drv_container set_stoppedSnapName drv_stoppedSnapName drv_runningSnapName].
  destruct (step h (zfsPoolVolumeSnapshotCreate _ _) g w2) as [[e1 g3] w3] eqn:Hstep2.
  assert (g3 = g) by (cbn in Hstep2; congruence). subst g3.
  unfold created_snapshots.
  destruct e1 as [e1 |].
  { cbn [run add_event outcome globals trace].
    eexists _, _, u. repeat split. }
  rewrite run_bind.
  match goal with
  | |- context [run h (send s ?d1 ?zn ?zp) g w3] =>
      destruct (@send_run _ h s d1 zn zp g w3) as (Hg' & _ & _ & Hc' & e2 & Ho' & _);
      destruct (run h (send s d1 zn zp) g w3) as [o' g4 w4 t']
  end.
  cbn [globals outcome trace] in *. subst g4 o'.
  rewrite and_then_Done. unfold prepend, add_event. cbn [outcome trace globals].
  unfold created_snapshots in Hc'.
  destruct e2 as [e2 |]; cbn [run outcome trace globals].
  all: eexists _, _, u; (split; [reflexivity |]); repeat split.
  all: rewrite !omap_cons_eq; cbn [fst snd]; rewrite omap_app, Hc'; reflexivity.
Qed.

Lemma Cleanup_run (W : Type) (h : Handler W) (s : storageZfs)
    (d : zfsMigrationSourceDriver) (g : Globals) (w : W) :
  let r := run h (Cleanup s d) g w in
  outcome r = Done tt /\ destroyed_snapshots (trace r) = cleanup_targets d.
Proof.
  cbv zeta. unfold Cleanup, cleanup_targets.
  destruct (negb (String.eqb (drv_stoppedSnapName d) ""));
    destruct (negb (String.eqb (drv_runningSnapName d) ""));
    cbn; symex h; split; reflexivity.
Qed.

(** X13: on a driver as [MigrationSource] makes it (no temporary snapshot
    named), [Cleanup] destroys the snapshots the sends created, and only
    those, whether the sends succeeded or failed: after [SendWhileRunning]
    the snapshot that send created, if it got that far; after
    [SendWhileRunning] and [SendAfterCheckpoint] the two snapshots, the
    later one first.  The sends and the cleanup always return. *)
Theorem Cleanup_destroys_the_snapshots_the_sends_made (W : Type) (h : Handler W)
    (s : storageZfs) (d : zfsMigrationSourceDriver) (containerOnly : bool)
    (g : Globals) (w : W) :
  drv_runningSnapName d = "" -> drv_stoppedSnapName d = "" ->
  let r1 := run h (SendWhileRunning s d containerOnly) g w in
  exists d1 e1,
    outcome r1 = Done (d1, e1) /\
    (* a migration of a stopped container: the running send, then the cleanup *)
    (let r := run h (Cleanup s d1) (globals r1) (world r1) in
     outcome r = Done tt /\
     destroyed_snapshots (trace r) = created_snapshots (trace r1)) /\
    (* a live migration: the send after the checkpoint comes between *)
    (let r2 := run h (SendAfterCheckpoint s d1) (globals r1) (world r1) in
     exists d2 e2,
       outcome r2 = Done (d2, e2) /\
       let r := run h (Cleanup s d2) (globals r2) (world r2) in
       outcome r = Done tt /\
       destroyed_snapshots (trace r)
       = rev (created_snapshots (trace r1 ++ trace r2))).
Proof.
  intros Hrun Hstop. cbv zeta.
  destruct (@SendWhileRunning_created _ h s d containerOnly g w)
    as (d1 & e1 & Ho1 & Hg1 & Hc1 & Hs1 & Hcr1).
  exists d1, e1. split; [exact Ho1 |]. split.
  - destruct (@Cleanup_run _ h s d1 (globals (run h (SendWhileRunning s d containerOnly) g w))
                (world (run h (SendWhileRunning s d containerOnly) g w))) as (Ho & Hd).
    split; [exact Ho |]. rewrite Hd. unfold cleanup_targets. rewrite Hs1, Hstop, Hc1.
    destruct Hcr1 as [(-> & ->) | (u & -> & ->)]; [rewrite Hrun |]; reflexivity.
  - destruct (@SendAfterCheckpoint_created _ h s d1
                (globals (run h (SendWhileRunning s d containerOnly) g w))
                (world (run h (SendWhileRunning s d containerOnly) g w)))
      as (d2 & e2 & u2 & Ho2 & Hg2 & Hd2 & Hcr2).
    exists d2, e2. split; [exact Ho2 |].
    match goal with
    | |- context [run h (Cleanup s d2) ?g2 ?w2] =>
        destruct (@Cleanup_run _ h s d2 g2 w2) as (Ho & Hd)
    end.
    split; [exact Ho |]. rewrite Hd. unfold created_snapshots in *.
    rewrite omap_app, Hcr2. subst d2. unfold cleanup_targets.
    cbn [set_stoppedSnapName drv_stoppedSnapName drv_runningSnapName drv_container].
    rewrite Hc1.
    destruct Hcr1 as [(-> & ->) | (u & -> & ->)]; [rewrite Hrun |]; reflexivity.
Qed.

Lemma Cleanup_destroys_the_snapshots_the_sends_made_witness :
  exists d1 e1,
    outcome (run (world_handler pool1) (SendWhileRunning pool1 driver_c1_snaps false)
               initial_globals world_c1_snaps) = Done (d1, e1).
Proof.
  destruct (@Cleanup_destroys_the_snapshots_the_sends_made _ (world_handler pool1)
              pool1 driver_c1_snaps false initial_globals world_c1_snaps)
    as (d1 & e1 & Ho & _).
  - reflexivity.
  - reflexivity.
  - exists d1, e1. exact Ho.
Defined.


(** ** Renaming a snapshot *)

Lemma ContainerSnapshotRename_to_own_name_no_pool_call (fuel : nat) (s : storageZfs)
    (c : container) :
  never_calls is_pool_call (ContainerSnapshotRename fuel s c (Name c)).
Proof.
  induction fuel as [| fuel IH]; [exact I |].
  cbn [ContainerSnapshotRename].
  destruct (containerGetParentAndSnapshotName (Name c)) as [[p sn] b].
  rewrite String.eqb_refl. cbn [negb]. unfold with_revert.
  never_pool_tac; exact IH.
Qed.

(** X14: [ContainerSnapshotRename] issues one dataset command at most: the
    rename of [containers/<parent>@snapshot-<old>] to [snapshot-<new>],
    and none when the two snapshot names are the same.  When that rename
    fails, its error is the result and nothing else was called.  When a
    later step fails, the revert calls the method with the record's own
    name, which renames nothing: the snapshot keeps its new name. *)
Theorem ContainerSnapshotRename_never_renames_the_snapshot_back (W : Type)
    (h : Handler W) (fuel : nat) (s : storageZfs) (c : container) (newName : string)
    (g : Globals) (w : W) :
  let r := run h (ContainerSnapshotRename (S fuel) s c newName) g w in
  match snapshot_rename_op c newName with
  | None => zfs_ops (trace r) = []
  | Some op =>
      exists e, zfs_ops (trace r) = [(op, e)] /\
                (e <> None -> outcome r = Done e /\ length (trace r) = 1)
  end.
Proof.
  cbv zeta. unfold snapshot_rename_op. cbn [ContainerSnapshotRename].
  destruct (containerGetParentAndSnapshotName (Name c)) as [[p sn] b].
  destruct (containerGetParentAndSnapshotName newName) as [[p' sn'] b'].
  match goal with
  | |- context [with_revert ?u ?b] => remember (with_revert u b) as rest eqn:Hrest
  end.
  assert (Hnever : never_calls is_pool_call rest).
  { subst rest. unfold with_revert.
    never_pool_tac; apply ContainerSnapshotRename_to_own_name_no_pool_call. }
  clear Hrest.
  destruct (String.eqb ("snapshot-" +:+ sn) ("snapshot-" +:+ sn')); cbn [negb bind].
  - apply no_pool_call_observed, never_calls_trace, Hnever.
  - cbn [call bind run].
    destruct (step h (zfsPoolVolumeSnapshotRename _ _ _) g w) as [[e g1] w1].
    exists e. unfold add_event, zfs_ops. cbn [trace outcome].
    rewrite omap_cons_eq. cbn [zfs_op].
    destruct e as [e |].
    + cbn. split; [reflexivity | auto].
    + change (omap zfs_op ?t) with (zfs_ops t).
      destruct (no_pool_call_observed (never_calls_trace h g1 w1 Hnever)) as (-> & _).
      split; [reflexivity | congruence].
Qed.

Section BusyMountPoint.
Variables (W : Type) (h : Handler W) (s : storageZfs) (c : container).
Hypothesis exists_always :
  forall w, fst (@h _ (PathExists (getSnapshotMountPoint (pool_Name s) (Name c))) w) = true.
Hypothesis remove_fails :
  forall w, fst (@h _ (os_Remove (getSnapshotMountPoint (pool_Name s) (Name c))) w) <> None.

(** One level of the recursion: the body of the method fails at the
    removal of the old mount point at the latest, so the revert runs. *)
Lemma ContainerSnapshotRename_level (fuel : nat) (newName : string)
    (g : Globals) (w : W) :
  (forall g' w',
     outcome (run h (ContainerSnapshotRename fuel s c (Name c)) g' w')
     = Panicked "out of fuel") ->
  let r := run h (ContainerSnapshotRename (S fuel) s c newName) g w in
  outcome r = Panicked "out of fuel" \/
  exists op e,
    snapshot_rename_op c newName = Some op /\
    zfs_ops (trace r) = [(op, Some e)] /\ outcome r = Done (Some e).
Proof using exists_always remove_fails.
  intros IH. cbv zeta. unfold snapshot_rename_op. cbn [ContainerSnapshotRename].
  destruct (containerGetParentAndSnapshotName (Name c)) as [[p sn] b].
  destruct (containerGetParentAndSnapshotName newName) as [[p' sn'] b'].
  unfold with_revert.
  remember (ContainerSnapshotRename fuel s c (Name c)) as undo.
  assert (Hundo : forall (e : error) g' w',
             outcome (run h (undo ;; Ret (Some e)) g' w') = Panicked "out of fuel").
  { intros e g' w'. rewrite run_bind. unfold and_then. rewrite IH. reflexivity. }
  assert (Hrest : forall w',
             outcome
               (run h
                  (r <- (x <- call (PathExists (getSnapshotMountPoint (pool_Name s) (Name c))) ;;
                         try! (if x
                               then call (os_Remove
                                            (getSnapshotMountPoint (pool_Name s) (Name c)))
                               else Ret None) ;;
                         e3 <- call (PathExists
                                       (getSnapshotMountPoint (pool_Name s) newName)) ;;
                         try! (if negb e3
                               then call (os_MkdirAll
                                            (getSnapshotMountPoint (pool_Name s) newName)
                                            448)
                               else Ret None) ;;
                         e4 <- call (PathExists (VarPath ["snapshots"; p])) ;;
                         try! (if negb e4
                               then call (os_Symlink
                                            (VarPath ["storage-pools"; pool_Name s;
                                                      "snapshots"; p])
                                            (VarPath ["snapshots"; p]))
                               else Ret None) ;;
                         Ret None) ;;
                   match r with
                   | Some e => undo ;; Ret (Some e)
                   | None => Ret None
                   end) g w') = Panicked "out of fuel").
  { intros w'. cbn [bind call run step add_event outcome].
    rewrite exists_always. cbn [bind call run step add_event outcome].
    destruct (fst (h (os_Remove _) _)) as [e |] eqn:E;
      [| exfalso; exact (remove_fails E)].
    cbn [bind]. apply Hundo. }
  assert (Hbody : forall w',
             outcome
               (run h
                  (r <- (e1 <- call (PathExists
                                       (VarPath ["snapshots/" +:+ p +:+ "/" +:+ sn
                                                 +:+ ".zfs"])) ;;
                         try! (if e1
                               then call (os_Remove
                                            (VarPath ["snapshots/" +:+ p +:+ "/" +:+ sn
                                                      +:+ ".zfs"]))
                               else Ret None) ;;
                         x <- call (PathExists (getSnapshotMountPoint (pool_Name s) (Name c))) ;;
                         try! (if x
                               then call (os_Remove
                                            (getSnapshotMountPoint (pool_Name s) (Name c)))
                               else Ret None) ;;
                         e3 <- call (PathExists
                                       (getSnapshotMountPoint (pool_Name s) newName)) ;;
                         try! (if negb e3
                               then call (os_MkdirAll
                                            (getSnapshotMountPoint (pool_Name s) newName)
                                            448)
                               else Ret None) ;;
                         e4 <- call (PathExists (VarPath ["snapshots"; p])) ;;
                         try! (if negb e4
                               then call (os_Symlink
                                            (VarPath ["storage-pools"; pool_Name s;
                                                      "snapshots"; p])
                                            (VarPath ["snapshots"; p]))
                               else Ret None) ;;
                         Ret None) ;;
                   match r with
                   | Some e => undo ;; Ret (Some e)
                   | None => Ret None
                   end) g w') = Panicked "out of fuel").
  { intros w'. cbn [bind call run step add_event outcome].
    destruct (h (PathExists (VarPath _)) w') as [e1 w1]. cbn [fst snd].
    destruct e1; cbn [bind call run step add_event outcome].
    - destruct (h (os_Remove (VarPath _)) w1) as [r1 w2]. cbn [fst snd].
      destruct r1 as [r1 |]; cbn [bind].
      + apply Hundo.
      + apply Hrest.
    - apply Hrest. }
  clear Hrest Hundo.
  destruct (String.eqb ("snapshot-" +:+ sn) ("snapshot-" +:+ sn')); cbn [negb bind].
  - left. apply Hbody.
  - cbn [call bind run step add_event outcome trace].
    destruct (h (zfsPoolVolumeSnapshotRename _ _ _) w) as [e w1]. cbn [fst snd].
    destruct e as [e |]; cbn [bind].
    + right. eexists _, e. cbn. repeat split.
    + left. apply Hbody.
Qed.

Lemma ContainerSnapshotRename_to_own_name_runs_out (fuel : nat) (g : Globals) (w : W) :
  outcome (run h (ContainerSnapshotRename fuel s c (Name c)) g w) = Panicked "out of fuel".
Proof using exists_always remove_fails.
  revert g w. induction fuel as [| fuel IH]; intros g w; [reflexivity |].
  destruct (@ContainerSnapshotRename_level fuel (Name c) g w IH)
    as [H | (op & e & Hop & _)]; [exact H |].
  unfold snapshot_rename_op in Hop.
  destruct (containerGetParentAndSnapshotName (Name c)) as [[p sn] b].
  rewrite String.eqb_refl in Hop. discriminate Hop.
Qed.

End BusyMountPoint.

(** X15: where the mount point of the snapshot exists and cannot be
    removed, [ContainerSnapshotRename] does not return once the rename of
    the dataset is done (or not needed): the body fails at [os.Remove],
    the deferred revert calls the method again with the same record, and
    that call fails the same way -- no bound on the depth of the recursion
    is enough.  The only other end is the error of the dataset rename. *)
Theorem ContainerSnapshotRename_recurses_without_end (W : Type) (h : Handler W)
    (s : storageZfs) (c : container) (fuel : nat) (newName : string)
    (g : Globals) (w : W) :
  (forall w', fst (@h _ (PathExists (getSnapshotMountPoint (pool_Name s) (Name c))) w')
              = true) ->
  (forall w', fst (@h _ (os_Remove (getSnapshotMountPoint (pool_Name s) (Name c))) w')
              <> None) ->
  let r := run h (ContainerSnapshotRename fuel s c newName) g w in
  outcome r = Panicked "out of fuel" \/
  exists op e,
    snapshot_rename_op c newName = Some op /\
    zfs_ops (trace r) = [(op, Some e)] /\ outcome r = Done (Some e).
Proof.
  intros Hex Hrm. destruct fuel as [| fuel]; [left; reflexivity |].
  apply ContainerSnapshotRename_level; try assumption.
  intros g' w'. apply ContainerSnapshotRename_to_own_name_runs_out; assumption.
Qed.

Lemma ContainerSnapshotRename_recurses_without_end_witness :
  outcome (run (busy_path_handler pool1 (getSnapshotMountPoint "pool1" "c1/s1"))
             (ContainerSnapshotRename 1000 pool1 (a_snapshot "pool1" "c1" "s1") "c1/s2")
             initial_globals world_c1_s1)
  = Panicked "out of fuel".
Proof.
  destruct (@ContainerSnapshotRename_recurses_without_end _
              (busy_path_handler pool1 (getSnapshotMountPoint "pool1" "c1/s1"))
              pool1 (a_snapshot "pool1" "c1" "s1") 1000 "c1/s2"
              initial_globals world_c1_s1)
    as [H | (op & e & Hop & Hz & Ho)].
  - intros w'. reflexivity.
  - intros w'. discriminate.
  - exact H.
  - exfalso. vm_compute in Ho. discriminate Ho.
Defined.

(** ** Renaming a container: the revert *)

Ltac never_rename_tac :=
  repeat (cbn [never_calls bind call is_dataset_rename is_other_rename];
          match goal with
          | |- never_calls _ (bind _ _) => apply never_calls_bind
          | |- never_calls _ (defer _ _) => unfold defer
          | |- never_calls _ (with_revert _ _) => unfold with_revert
          | |- never_calls _ (match ?x with _ => _ end) => destruct x
          | |- never_calls _ (if ?x then _ else _) => destruct x
          | |- _ /\ _ => split
          | |- forall _, _ => intro
          | |- True => exact I
          | |- _ = _ => reflexivity
          end).

Lemma ContainerUmount_never_renames (s : storageZfs) (name path : string) :
  never_calls is_dataset_rename (ContainerUmount s name path).
Proof. unfold ContainerUmount, removeLockFromMap. never_rename_tac. Qed.

Lemma never_renames_other (A : Type) (fs : string) (p : Prog A) :
  never_calls is_dataset_rename p -> never_calls (is_other_rename fs) p.
Proof.
  induction p as [a | X c k IH | msg]; cbn; auto.
  intros [Hc Hk]. split; [| auto].
  destruct c; try reflexivity; discriminate Hc.
Qed.

Lemma no_dataset_rename_observed (t : list Event) :
  existsb (event_is is_dataset_rename) t = false -> dataset_renames t = [].
Proof.
  induction t as [| [X c x] t IH]; [auto |].
  cbn [existsb event_is]. intros H. apply orb_false_iff in H as [Hc Ht].
  unfold dataset_renames in *. rewrite omap_cons_eq, (IH Ht).
  destruct c; try discriminate Hc; reflexivity.
Qed.

Lemma only_own_renames_observed (fs : string) (t : list Event) :
  existsb (event_is (is_other_rename fs)) t = false ->
  Forall (fun o => o = (fs, fs)) (dataset_renames t).
Proof.
  induction t as [| [X c x] t IH]; [constructor |].
  cbn [existsb event_is]. intros H. apply orb_false_iff in H as [Hc Ht].
  unfold dataset_renames in *. rewrite omap_cons_eq.
  destruct c; try exact (IH Ht).
  cbn in Hc. apply negb_false_iff, andb_true_iff in Hc as [Ha Hb].
  apply String.eqb_eq in Ha, Hb. subst. constructor; [reflexivity | exact (IH Ht)].
Qed.

Lemma ContainerRename_to_own_name_renames_onto_itself (fuel : nat) (s : storageZfs)
    (c : container) :
  never_calls (is_other_rename ("containers/" +:+ Name c))
    (ContainerRename fuel s c (Name c)).
Proof.
  induction fuel as [| fuel IH]; [exact I |].
  cbn [ContainerRename].
  apply never_calls_bind;
    [apply never_renames_other, ContainerUmount_never_renames |].
  intros [u [e |]]; cbn [fst snd]; [exact I |].
  never_rename_tac;
    first [ rewrite String.eqb_refl; reflexivity
          | exact IH
          | apply never_renames_other, ContainerUmount_never_renames ].
Qed.

(** X16: the [zfs rename] commands of [ContainerRename], whatever the calls
    answer: at most one rename of [containers/<old>] to
    [containers/<new>], and after it only renames of [containers/<old>]
    onto itself, which are those of the revert (it calls the method with
    the container's own name).  The dataset is never renamed back from
    [containers/<new>]. *)
Theorem ContainerRename_never_renames_the_dataset_back (W : Type) (h : Handler W)
    (fuel : nat) (s : storageZfs) (c : container) (newName : string)
    (g : Globals) (w : W) :
  let r := run h (ContainerRename fuel s c newName) g w in
  let fs := "containers/" +:+ Name c in
  dataset_renames (trace r) = [] \/
  exists l,
    dataset_renames (trace r) = (fs, "containers/" +:+ newName) :: l /\
    Forall (fun o => o = (fs, fs)) l.
Proof.
  cbv zeta. destruct fuel as [| fuel]; [left; reflexivity |].
  cbn [ContainerRename]. rewrite run_bind.
  pose proof (no_dataset_rename_observed
                (never_calls_trace h g w (ContainerUmount_never_renames s (Name c) "")))
    as Hum.
  destruct (run h (ContainerUmount s (Name c) "") g w) as [o g1 w1 t].
  cbn [trace] in Hum. unfold and_then. cbn [outcome globals world trace].
  destruct o as [[u e] | msg]; [| left; exact Hum].
  cbn [fst snd]. destruct e as [e |].
  { left. cbn. rewrite app_nil_r. exact Hum. }
  match goal with
  | |- context [with_revert ?u ?b] => remember (with_revert u b) as rest eqn:Hrest
  end.
  assert (Hnever : never_calls (is_other_rename ("containers/" +:+ Name c)) rest).
  { subst rest.
    never_rename_tac;
      first [ apply ContainerRename_to_own_name_renames_onto_itself
            | apply never_renames_other, ContainerUmount_never_renames ]. }
  clear Hrest. cbn [bind call run].
  destruct (step h (zfsPoolVolumeRename _ _) g1 w1) as [[e g2] w2].
  right. unfold dataset_renames in *. cbn [add_event trace].
  rewrite omap_app, Hum, omap_cons_eq. cbn [app].
  destruct e as [e |].
  - exists []. cbn. split; [reflexivity | constructor].
  - eexists. split; [reflexivity |].
    apply only_own_renames_observed, never_calls_trace, Hnever.
Qed.

(** ** Concurrent mounts: no deadlock *)

Section ConcurrentMountProgress.
Variables (s : storageZfs) (c : container).

Lemma sys_mount_live (w : World) (src dst : string) :
  let w' := snd (sys_mount w src dst) in
  lock_held w' = lock_held w /\ opmap w' = opmap w /\ closed w' = closed w.
Proof.
  unfold sys_mount. cbn. repeat case_match; cbn; auto.
Qed.

Lemma create_container_mountpoint_live (w : World) (a b : string) :
  let w' := snd (create_container_mountpoint w a b) in
  lock_held w' = lock_held w /\ opmap w' = opmap w /\ closed w' = closed w.
Proof.
  unfold create_container_mountpoint, fs_mkdir_all. cbn.
  repeat case_match; cbn; auto.
Qed.

Ltac live_case H :=
  match type of H with
  | context [negb (lock_held ?w)] => destruct (lock_held w) eqn:?
  | context [bool_decide (?a ∈ closed ?X)] =>
      destruct (bool_decide (a ∈ closed X)) eqn:?
  | context [bool_decide (?a ∈ mounts ?X)] => destruct (bool_decide (a ∈ mounts X))
  | context [path_exists ?w ?k] => destruct (path_exists w k)
  | context [opmap ?w !! ?k] => destruct (opmap w !! k) eqn:?
  end.

Ltac live_inversion Hstep :=
  cbn -[create_container_mountpoint sys_mount path_exists] in Hstep;
  unfold take in Hstep;
  cbn -[create_container_mountpoint sys_mount path_exists] in Hstep;
  try discriminate Hstep;
  try (match type of Hstep with
       | context [sys_mount ?w ?a ?b] =>
           destruct (sys_mount_live w a b) as (Hl1 & Ho1 & Hc1);
           destruct (sys_mount w a b) as [[?|] w1]; cbn [snd] in *
       end);
  try (match type of Hstep with
       | context [create_container_mountpoint ?w ?a ?b] =>
           destruct (create_container_mountpoint_live w a b) as (Hl1 & Ho1 & Hc1);
           destruct (create_container_mountpoint w a b) as [[?|] w1]; cbn [snd] in *
       end);
  repeat (live_case Hstep;
          cbn -[create_container_mountpoint sys_mount path_exists] in Hstep);
  try discriminate Hstep;
  injection Hstep as <- <-.

Ltac live_rewrite :=
  cbn in *;
  rewrite ?lookup_insert_eq, ?lookup_delete_eq;
  repeat match goal with
    | H : lock_held ?w1 = _ |- context [lock_held ?w1] => rewrite H
    | H : opmap ?w1 = _ |- context [opmap ?w1] => rewrite H
    | H : closed ?w1 = _ |- context [closed ?w1] => rewrite H
    end.

Ltac live_facts :=
  repeat match goal with
    | H : _ /\ _ |- _ => destruct H
    | H : true = true -> _ |- _ => specialize (H eq_refl)
    | H : false = true -> _ |- _ => clear H
    | H : forall ch, None = Some ch -> _ |- _ => clear H
    | H : forall ch, Some ?a = Some ch -> _ |- _ => specialize (H a eq_refl)
    | H : Some _ <> None -> _ |- _ => specialize (H ltac:(discriminate))
    | H : None <> None -> _ |- _ => clear H
    | H : bool_decide _ = true |- _ => apply bool_decide_eq_true in H
    end.

Ltac live_mem :=
  apply elem_of_union;
  first [ left; apply elem_of_singleton; congruence | right; assumption ].

Ltac live_close :=
  repeat match goal with
    | |- _ /\ _ => split
    | |- forall _, _ => intro
    end;
  first [ discriminate | assumption | contradiction | congruence
        | live_mem
        | (left; first [ assumption | congruence | live_mem ])
        | (right; first [ assumption | congruence ])
        | (right; split; congruence) ].

Lemma pc_step_live (w w' : World) (pc pc' : MountPc) :
  caller_live s c w pc -> pc_step s c w pc = Some (w', pc') ->
  caller_live s c w' pc' /\
  (forall pcj, caller_live s c w pcj -> live_apart pc pcj ->
               caller_live s c w' pcj /\ live_apart pc' pcj) /\
  (lock_held w' = true ->
   holds_mutex pc' = true \/ (lock_held w = true /\ holds_mutex pc = false)) /\
  (forall ch, opmap w' !! mount_lock_id s c = Some ch ->
     registered pc' = Some ch \/
     (opmap w !! mount_lock_id s c = Some ch /\ registered pc <> Some ch)).
Proof.
  intros Hpc Hstep.
  destruct pc; live_inversion Hstep.
  all: unfold caller_live, live_apart in *; live_rewrite.
  all: (split; [ | split; [ intros pcj Hj Hap; destruct pcj; cbn in * | ] ]).
  all: try (live_facts; live_close; fail).
  all: try (live_facts; intuition (congruence || live_mem); fail).
  all: live_facts;
    repeat match goal with H : _ \/ _ |- _ => destruct H end;
    repeat match goal with
      | |- _ /\ _ => split
      | |- forall _, _ => intro
      end;
    simplify_eq;
    first [ discriminate | contradiction
          | (left; live_mem) | (right; assumption) ].
Qed.

Lemma live_invariant_step (w w' : World) (pcs : list MountPc) (i : nat)
    (pc pc' : MountPc) :
  live_invariant s c w pcs -> pcs !! i = Some pc ->
  pc_step s c w pc = Some (w', pc') ->
  live_invariant s c w' (<[i := pc']> pcs).
Proof.
  intros (H1 & H2 & E0 & E1) Hi Hstep.
  assert (Hlt : i < length pcs) by (eapply lookup_lt_Some; eassumption).
  destruct (pc_step_live (H1 _ _ Hi) Hstep) as (Hown & Hothers & F0 & F1).
  assert (Hnew : <[i := pc']> pcs !! i = Some pc')
    by (apply list_lookup_insert_eq; assumption).
  split.
  { intros j pcj Hj. apply list_lookup_insert_Some in Hj as [(-> & <- & _) | (Hne & Hj)].
    - exact Hown.
    - apply (proj1 (Hothers pcj (H1 _ _ Hj) (H2 _ _ _ _ Hne Hi Hj))). }
  split.
  { intros j k pc1 pc2 Hjk Hj Hk.
    apply list_lookup_insert_Some in Hj as [(-> & <- & _) | (Hne1 & Hj)];
      apply list_lookup_insert_Some in Hk as [(-> & <- & _) | (Hne2 & Hk)].
    - contradiction.
    - apply (proj2 (Hothers pc2 (H1 _ _ Hk) (H2 _ _ _ _ Hne2 Hi Hk))).
    - pose proof (proj2 (Hothers pc1 (H1 _ _ Hj) (H2 _ _ _ _ Hne1 Hi Hj))) as Hap.
      unfold live_apart in *. tauto.
    - apply (H2 _ _ _ _ Hjk Hj Hk). }
  split.
  { intros Hlock. destruct (F0 Hlock) as [Hholds | (Hold & Hnot)].
    - exists i, pc'. auto.
    - destruct (E0 Hold) as (j & pcj & Hj & Hholds).
      destruct (decide (i = j)) as [-> | Hne].
      + rewrite Hi in Hj. injection Hj as ->. congruence.
      + exists j, pcj. split; [| exact Hholds].
        rewrite list_lookup_insert_ne by exact Hne. exact Hj. }
  intros ch Hch. destruct (F1 ch Hch) as [Hreg | (Hold & Hnot)].
  - exists i, pc'. auto.
  - destruct (E1 ch Hold) as (j & pcj & Hj & Hreg).
    destruct (decide (i = j)) as [-> | Hne].
    + rewrite Hi in Hj. injection Hj as ->. contradiction.
    + exists j, pcj. split; [| exact Hreg].
      rewrite list_lookup_insert_ne by exact Hne. exact Hj.
Qed.

Lemma live_invariant_start (w0 : World) (n : nat) :
  lock_held w0 = false -> opmap w0 !! mount_lock_id s c = None ->
  live_invariant s c w0 (replicate n AtLock).
Proof.
  intros Hl Hm. unfold live_invariant.
  repeat match goal with |- _ /\ _ => split end.
  - intros i pc [-> _]%lookup_replicate. unfold caller_live. cbn.
    repeat split; intros; discriminate.
  - intros i j pc1 pc2 _ [-> _]%lookup_replicate [-> _]%lookup_replicate.
    unfold live_apart. cbn. split; intros; [discriminate | contradiction].
  - congruence.
  - intros ch Hch. congruence.
Qed.

Lemma steps_left_insert (pcs : list MountPc) (i : nat) (pc pc' : MountPc) :
  pcs !! i = Some pc ->
  sum_list_with steps_left (<[i := pc']> pcs) + steps_left pc
  = sum_list_with steps_left pcs + steps_left pc'.
Proof.
  revert i. induction pcs as [| p pcs IH]; intros [| i] Hi; try discriminate Hi.
  - injection Hi as ->. change (<[0 := pc']> (pc :: pcs)) with (pc' :: pcs).
    cbn [sum_list_with]. lia.
  - change (<[S i := pc']> (p :: pcs)) with (p :: <[i := pc']> pcs).
    cbn [sum_list_with]. specialize (IH i Hi). lia.
Qed.

Lemma pc_step_steps_left (w w' : World) (pc pc' : MountPc) :
  pc_step s c w pc = Some (w', pc') -> steps_left pc' < steps_left pc.
Proof.
  intros Hstep.
  destruct pc; cbn -[create_container_mountpoint sys_mount path_exists] in Hstep;
    unfold take in Hstep;
    cbn -[create_container_mountpoint sys_mount path_exists] in Hstep;
    repeat case_match; cbn in Hstep; simplify_eq; cbn; lia.
Qed.

Lemma run_schedule_live (sched : list nat) (g : Globals) (w : World)
    (pcs : list MountPc) (st : Pool (bool * goerr)) :
  live_invariant s c w pcs ->
  run_schedule (world_handler s) sched
    {| pool_globals := g; pool_world := w; threads := at_pc s c <$> pcs |} = Some st ->
  exists w' pcs',
    st = {| pool_globals := g; pool_world := w'; threads := at_pc s c <$> pcs' |} /\
    live_invariant s c w' pcs' /\
    length sched + sum_list_with steps_left pcs' <= sum_list_with steps_left pcs.
Proof.
  revert w pcs. induction sched as [| i rest IH]; intros w pcs Hinv Hrun.
  - injection Hrun as <-. exists w, pcs. cbn. auto.
  - cbn [run_schedule] in Hrun.
    destruct (pcs !! i) as [pc |] eqn:Hi.
    + rewrite (@sched_step_at_pc s c i g w pcs pc Hi) in Hrun.
      destruct (pc_step s c w pc) as [[w1 pc1] |] eqn:Hstep; [| discriminate Hrun].
      cbn in Hrun.
      destruct (IH _ _ (live_invariant_step Hinv Hi Hstep) Hrun)
        as (w' & pcs' & -> & Hinv' & Hlen).
      exists w', pcs'. split; [reflexivity |]. split; [exact Hinv' |].
      pose proof (steps_left_insert pc1 Hi). pose proof (pc_step_steps_left Hstep).
      cbn [length]. lia.
    + unfold sched_step in Hrun. cbn [threads] in Hrun.
      rewrite list_lookup_fmap, Hi in Hrun. discriminate Hrun.
Qed.

Ltac can_step :=
  cbn -[create_container_mountpoint sys_mount path_exists];
  unfold take;
  cbn -[create_container_mountpoint sys_mount path_exists];
  repeat case_match; simplify_eq; eauto.

(** Whoever holds the mutex can take its next call. *)
Lemma holder_can_step (w : World) (pc : MountPc) :
  holds_mutex pc = true -> exists r, pc_step s c w pc = Some r.
Proof. destruct pc; intros H; try discriminate H; can_step. Qed.

(** While the mutex is free, an owner that has not returned can take its
    next call. *)
Lemma owner_can_step (w : World) (pc : MountPc) (ch : chan) :
  lock_held w = false -> caller_live s c w pc -> registered pc = Some ch ->
  exists r, pc_step s c w pc = Some r.
Proof.
  intros Hl (Hm & _) Hreg.
  destruct pc; try discriminate Hreg; cbn in Hm;
    try (specialize (Hm eq_refl); congruence); can_step.
  all: match goal with H : negb (lock_held _) = false |- _ => rewrite Hl in H end;
    discriminate.
Qed.

Lemma not_all_done (pcs : list MountPc) :
  forallb is_done pcs = false ->
  exists i pc, pcs !! i = Some pc /\ is_done pc = false.
Proof.
  induction pcs as [| p pcs IH]; [discriminate |].
  cbn [forallb]. destruct (is_done p) eqn:Hp.
  - intros H. destruct (IH H) as (i & pc & Hi & Hd). exists (S i), pc. auto.
  - intros _. exists 0, p. auto.
Qed.

Lemma live_progress (w : World) (pcs : list MountPc) :
  live_invariant s c w pcs ->
  forallb is_done pcs = true \/
  exists i pc r, pcs !! i = Some pc /\ pc_step s c w pc = Some r.
Proof.
  intros (H1 & H2 & E0 & E1).
  destruct (forallb is_done pcs) eqn:Hall; [left; reflexivity | right].
  destruct (lock_held w) eqn:Hl.
  - destruct (E0 eq_refl) as (j & pcj & Hj & Hholds).
    destruct (holder_can_step w Hholds) as (r & Hr). eauto.
  - destruct (not_all_done Hall) as (i & pc & Hi & Hnd).
    pose proof (H1 _ _ Hi) as Hlive.
    assert (Hcase : (exists r, pc_step s c w pc = Some r) \/
                    exists ch, opmap w !! mount_lock_id s c = Some ch).
    { destruct Hlive as (Hm & _ & _ & _ & Hw).
      destruct pc; try discriminate Hnd; cbn in Hm;
        try (specialize (Hm eq_refl); congruence).
      all: try (left; can_step;
                try match goal with
                    | H : negb (lock_held _) = false |- _ =>
                        rewrite Hl in H; discriminate H
                    end; fail).
      destruct (Hw _ eq_refl) as [Hin | Hmap]; [left | right; eauto].
      cbn. unfold take. cbn. rewrite bool_decide_eq_true_2 by exact Hin. cbn. eauto. }
    destruct Hcase as [(r & Hr) | (ch & Hch)]; [eauto |].
    destruct (E1 ch Hch) as (j & pcj & Hj & Hreg).
    destruct (owner_can_step Hl (H1 _ _ Hj) Hreg) as (r & Hr). eauto.
Qed.

Lemma all_done_returned (pcs : list MountPc) (g : Globals) (w : World) :
  forallb is_done pcs = true ->
  all_returned {| pool_globals := g; pool_world := w; threads := at_pc s c <$> pcs |}
  = true.
Proof.
  unfold all_returned. cbn [threads].
  induction pcs as [| p pcs IH]; [reflexivity |].
  cbn [forallb fmap list_fmap]. intros [Hp Hrest]%andb_true_iff.
  rewrite (IH Hrest), andb_true_r.
  destruct p; try discriminate Hp; reflexivity.
Qed.

(** X17: any number of concurrent [ContainerMount] calls on one container,
    started while the mutex is free and no operation is registered under
    the key, never deadlock: in every state an interleaving can reach,
    either every caller has returned or some caller can take its next
    call.  A caller makes 14 calls at most, so no interleaving is longer
    than [14 * n] steps: whatever the order, the callers all return. *)
Theorem ContainerMount_concurrent_callers_never_deadlock
    (n : nat) (sched : list nat) (g : Globals) (w0 : World) (st : Pool (bool * goerr)) :
  lock_held w0 = false ->
  opmap w0 !! mount_lock_id s c = None ->
  run_schedule (world_handler s) sched (callers n (ContainerMount s c) g w0) = Some st ->
  (all_returned st = true \/ can_move (world_handler s) st) /\
  length sched <= 14 * n.
Proof.
  intros Hl Hm Hrun. rewrite (@callers_at_AtLock s c n g w0) in Hrun.
  destruct (run_schedule_live (live_invariant_start n Hl Hm) Hrun)
    as (w' & pcs' & -> & Hinv & Hlen).
  split.
  - destruct (live_progress Hinv) as [Hall | (i & pc & [w1 pc1] & Hi & Hstep)].
    + left. apply all_done_returned, Hall.
    + right. exists i. rewrite (@sched_step_at_pc s c i g w' pcs' pc Hi), Hstep.
      cbn. eauto.
  - assert (Hsum : sum_list_with steps_left (replicate n AtLock) = 14 * n).
    { clear. induction n as [| n IH]; cbn in *; lia. }
    lia.
Qed.

End ConcurrentMountProgress.

Lemma ContainerMount_concurrent_callers_never_deadlock_witness :
  exists st,
    run_schedule (world_handler pool1) (replicate 5 0 ++ replicate 3 1)
      (callers 3 (ContainerMount pool1 (a_container "pool1" "c1")) initial_globals world_c1)
      = Some st /\
    all_returned st = false /\
    can_move (world_handler pool1) st.
Proof.
  destruct (run_schedule (world_handler pool1) (replicate 5 0 ++ replicate 3 1)
              (callers 3 (ContainerMount pool1 (a_container "pool1" "c1"))
                 initial_globals world_c1)) as [st |] eqn:E;
    [| vm_compute in E; discriminate E].
  assert (Hall : option_map all_returned
                   (run_schedule (world_handler pool1) (replicate 5 0 ++ replicate 3 1)
                      (callers 3 (ContainerMount pool1 (a_container "pool1" "c1"))
                         initial_globals world_c1)) = Some false)
    by (vm_compute; reflexivity).
  rewrite E in Hall. cbn in Hall. injection Hall as Hall.
  exists st. split; [reflexivity |]. split; [exact Hall |].
  destruct (@ContainerMount_concurrent_callers_never_deadlock
              pool1 (a_container "pool1" "c1") 3 (replicate 5 0 ++ replicate 3 1)
              initial_globals world_c1 st) as ([Hret | Hmove] & _).
  - vm_compute. reflexivity.
  - vm_compute. reflexivity.
  - exact E.
  - congruence.
  - exact Hmove.
Defined.
